(** * coba learners: a shallow embedding of [coba/learners.py]

    The Python module defines the [Learner] contract and four learners that
    are modelled here: [RandomLearner], [EpsilonLearner], [UcbTunedLearner]
    and [CorralLearner] (the log-barrier online-mirror-descent combinator).

    Conventions of the embedding.
    - A Python [float] is an exact rational ([Q]); Python's [==] on floats is
      [Qeq].  Rounding error and overflow of binary floating point are not
      modelled (a number that grows without bound here ends a Python run
      with [OverflowError] once it leaves the range of a double); the one
      infinite value the code handles ([math.inf], the default horizon) is
      a separate constructor of [pyfloat].  Whether the root finder's loop
      ends is a question about the rounded arithmetic; for it the solve is
      modelled a second time, on binary64 numbers ([CorralLearner64]).
    - A Python exception ends a call: every operation that can raise returns
      a [result].  A method that mutates [self] returns the state it leaves
      behind together with its [result], so that the mutations made before an
      exception stay visible.
    - The [while True] loop of the root finder is run with fuel; [Diverge]
      is the outcome of a run that used up its fuel.
    - [print] calls only write diagnostics and are left out.
    - A [defaultdict] is a finite map read with a default: the entry that a
      read of a missing key leaves behind cannot be observed through the
      operations the module uses on these dictionaries (indexing only). *)

From Stdlib Require Import QArith Qround Qabs Lqa Lia ZArith List.
From stdpp Require Import gmap list strings sorting.
From Stdlib Require Floats.

Local Open Scope Q_scope.

(** ** Python values, exceptions and arithmetic *)

Module Py.

Inductive exn : Set :=
| KeyError
| ValueError
| ZeroDivisionError
| TypeError
| IndexError
| OverflowError.

Inductive result (A : Type) : Type :=
| Ret (a : A)
| Raise (e : exn)
| Diverge.
Arguments Ret {A} a.
Arguments Raise {A} e.
Arguments Diverge {A}.

Definition bind {A B} (m : result A) (k : A -> result B) : result B :=
  match m with
  | Ret a => k a
  | Raise e => Raise e
  | Diverge => Diverge
  end.

Definition raises {A} (m : result A) : Prop := exists e, m = Raise e.

Definition returns {A} (m : result A) : Prop := exists a, m = Ret a.

(** The error conditions the specification names.  The module defines no
    exception class of its own; of the built-in exceptions it can raise,
    [KeyError] is the one that means "key not found". *)
Inductive condition : Set :=
| KeyNotFound
| InvalidArgument
| OptimizationDivergence.

Definition condition_of (e : exn) : option condition :=
  match e with
  | KeyError => Some KeyNotFound
  | _ => None
  end.

Definition fails_with {A} (m : result A) (c : condition) : Prop :=
  exists e, m = Raise e /\ condition_of e = Some c.

(** [a / b] on floats. *)
Definition div (a b : Q) : result Q :=
  if Qeq_bool b 0 then Raise ZeroDivisionError else Ret (a / b).

Definition Qlt_bool (a b : Q) : bool := negb (Qle_bool b a).

(** [max(a, b)] and [min(a, b)]: the first argument wins a tie. *)
Definition max (a b : Q) : Q := if Qlt_bool a b then b else a.
Definition min (a b : Q) : Q := if Qlt_bool b a then b else a.

(** [max(l)] and [min(l)] of a sequence. *)
Definition max_list (l : list Q) : result Q :=
  match l with
  | [] => Raise ValueError
  | x :: xs => Ret (fold_left max xs x)
  end.

Definition min_list (l : list Q) : result Q :=
  match l with
  | [] => Raise ValueError
  | x :: xs => Ret (fold_left min xs x)
  end.

(** [sum(l)]. *)
Definition sum (l : list Q) : Q := fold_left Qplus l 0.

(** [int(b)] of a boolean, used as a number. *)
Definition int (b : bool) : Q := if b then 1 else 0.

(** [float(n)] of a non-negative integer. *)
Definition of_nat (n : nat) : Q := inject_Z (Z.of_nat n).

Definition range (n : nat) : list nat := seq 0 n.

(** [round(x, ndigits)]: to the nearest multiple of [10^-ndigits], a tie
    going to the even one. *)
Definition round (x : Q) (ndigits : nat) : Q :=
  let scale := inject_Z (10 ^ Z.of_nat ndigits) in
  let y := x * scale in
  let lo := Qfloor y in
  let frac := y - inject_Z lo in
  let n :=
    if Qlt_bool frac (1 # 2) then lo
    else if Qlt_bool (1 # 2) frac then (lo + 1)%Z
    else if Z.even lo then lo else (lo + 1)%Z in
  inject_Z n / scale.

(** A list comprehension whose body can raise. *)
Fixpoint mapM {A B} (f : A -> result B) (l : list A) : result (list B) :=
  match l with
  | [] => Ret []
  | x :: xs =>
      bind (f x) (fun y => bind (mapM f xs) (fun ys => Ret (y :: ys)))
  end.

(** The one non-finite float the module meets: [math.inf]. *)
Inductive pyfloat : Set :=
| Fin (q : Q)
| Inf.

(** [1 / x]. *)
Definition inv (x : pyfloat) : result Q :=
  match x with
  | Fin q => div 1 q
  | Inf => Ret 0
  end.

End Py.

Import Py.

Notation "x <- m ;; k" := (Py.bind m (fun x => k))
  (at level 100, m at next level, right associativity).

(** ** What the module imports

    [math.log], [math.sqrt] and [math.exp] return a rounded value that has no
    rational description; [coba.statistics.OnlineVariance] and
    [coba.random.CobaRandom] are not part of the sources.  They are the
    fields of [Externals]; the model fixes only what Python guarantees about
    the [math] functions: their domain errors and their exact values
    ([log(1) = 0], [log(inf) = inf], [sqrt(0) = 0], [exp(0) = 1]). *)

Definition Key := Z.
Definition Action := Z.
Definition Context := option Z.

Class Externals : Type := {
  log_approx : Q -> Q;
  sqrt_approx : Q -> Q;
  exp_approx : Q -> Q;
  OnlineVariance : Type;
  OnlineVariance_new : OnlineVariance;
  OnlineVariance_update : OnlineVariance -> Q -> OnlineVariance;
  OnlineVariance_variance : OnlineVariance -> Q;
  CobaRandom : Type;
  CobaRandom_choice : CobaRandom -> list Action -> list Q -> CobaRandom * Action
}.

Module math.
Section Math.
Context `{Externals}.

Definition log (x : pyfloat) : result pyfloat :=
  match x with
  | Inf => Ret Inf
  | Fin q =>
      if Qle_bool q 0 then Raise ValueError
      else Ret (Fin (if Qeq_bool q 1 then 0 else log_approx q))
  end.

Definition sqrt (q : Q) : result Q :=
  if Qlt_bool q 0 then Raise ValueError
  else Ret (if Qeq_bool q 0 then 0 else sqrt_approx q).

Definition exp (q : Q) : Q :=
  if Qeq_bool q 0 then 1 else exp_approx q.

(** [math.log] of a finite argument, as a number. *)
Definition ln (q : Q) : result Q :=
  r <- log (Fin q) ;;
  match r with
  | Fin v => Ret v
  | Inf => Raise ValueError
  end.
End Math.
End math.

(** ** Greedy selection shared by [EpsilonLearner] and [UcbTunedLearner]

    Both [predict] methods contain the same two lines:
    [max_value = None if set(values) == {None} else max(v for v in values if v is not None)]
    and [max_indexes = [i for i in range(len(values)) if values[i]==max_value]]. *)

Module Greedy.

Definition value_eq (a b : option Q) : bool :=
  match a, b with
  | None, None => true
  | Some x, Some y => Qeq_bool x y
  | _, _ => false
  end.

(** [set(values) == {None}] *)
Definition only_None (values : list (option Q)) : bool :=
  match values with
  | [] => false
  | _ => forallb (fun v => value_eq v None) values
  end.

Definition not_None (values : list (option Q)) : list Q :=
  omap (fun v => v) values.

Definition max_value (values : list (option Q)) : result (option Q) :=
  if only_None values then Ret None
  else m <- Py.max_list (not_None values) ;; Ret (Some m).

Definition max_indexes (values : list (option Q)) (mv : option Q) : list nat :=
  List.filter (fun i => match values !! i with
                        | Some v => value_eq v mv
                        | None => false
                        end) (Py.range (length values)).

(** [i in max_indexes] *)
Definition mem (i : nat) (l : list nat) : bool := existsb (Nat.eqb i) l.

End Greedy.

(** ** The contract of [predict]

    [predict] answers with one probability per action; the probabilities are
    non-negative and sum to 1 within the tolerance [1e-6]. *)

Module Learner.



End Learner.

(** ** RandomLearner *)

Module RandomLearner.

(** [[1/len(actions)] * len(actions)] *)
Definition predict (key : Key) (context : Context) (actions : list Action)
  : result (list Q) :=
  u <- Py.div 1 (Py.of_nat (length actions)) ;;
  Ret (repeat u (length actions)).

Definition learn (key : Key) (context : Context) (action : Action)
  (reward probability : Q) : result unit :=
  Ret tt.

End RandomLearner.

(** ** EpsilonLearner *)

Module EpsilonLearner.

Record state : Type := {
  epsilon : Q;
  include_context : bool;
  N : gmap (option Context * Action) nat;
  Q_ : gmap (option Context * Action) Q
}.

Definition init (epsilon : Q) (include_context : bool) : state :=
  {| epsilon := epsilon; include_context := include_context;
     N := ∅; Q_ := ∅ |}.

Definition key_ (s : state) (context : Context) (action : Action)
  : option Context * Action :=
  if include_context s then (Some context, action) else (None, action).

(** [self._Q[k]] and [self._N[k]] on a [defaultdict(int)] *)
Definition Q_get (s : state) (k : option Context * Action) : Q :=
  default 0 (Q_ s !! k).
Definition N_get (s : state) (k : option Context * Action) : nat :=
  default 0%nat (N s !! k).

Definition predict (s : state) (key : Key) (context : Context)
  (actions : list Action) : result (list Q) :=
  let keys := map (key_ s context) actions in
  let values := map (fun k => Some (Q_get s k)) keys in
  max_value <- Greedy.max_value values ;;
  let max_indexes := Greedy.max_indexes values max_value in
  u <- Py.div 1 (Py.of_nat (length actions)) ;;
  let prob_selected_randomly := repeat (u * epsilon s) (length actions) in
  prob_selected_greedily <-
    Py.mapM (fun i =>
               g <- Py.div (Py.int (Greedy.mem i max_indexes))
                      (Py.of_nat (length max_indexes)) ;;
               Ret (g * (1 - epsilon s)))
      (Py.range (length actions)) ;;
  Ret (zip_with Qplus prob_selected_randomly prob_selected_greedily).

Definition learn (s : state) (key : Key) (context : Context)
  (action : Action) (reward probability : Q) : state * result unit :=
  let sa_key := key_ s context action in
  match Py.div 1 (Py.of_nat (N_get s sa_key + 1)) with
  | Ret alpha =>
      let old_Q := Q_get s sa_key in
      ({| epsilon := epsilon s; include_context := include_context s;
          N := <[sa_key := (N_get s sa_key + 1)%nat]> (N s);
          Q_ := <[sa_key := (1 - alpha) * old_Q + alpha * reward]> (Q_ s) |},
       Ret tt)
  | Raise e => (s, Raise e)
  | Diverge => (s, Diverge)
  end.

End EpsilonLearner.

(** ** UcbTunedLearner *)

Module UcbTunedLearner.
Section Ucb.
Context `{Externals}.

Record state : Type := {
  init_a : nat;
  t : nat;
  s_ : gmap Action nat;
  m : gmap Action Q;
  v : gmap Action OnlineVariance
}.

Definition init : state :=
  {| init_a := 0; t := 0; s_ := ∅; m := ∅; v := ∅ |}.

(** reads of the two [defaultdict]s *)
Definition s_get (s : state) (a : Action) : nat := default 0%nat (s_ s !! a).
Definition v_get (s : state) (a : Action) : OnlineVariance :=
  default OnlineVariance_new (v s !! a).

(** [var + math.sqrt(2*ln(t)/s)] *)
Definition Var_R_UCB (s : state) (action : Action) : result Q :=
  let var := OnlineVariance_variance (v_get s action) in
  l <- math.ln (Py.of_nat (t s)) ;;
  d <- Py.div (2 * l) (Py.of_nat (s_get s action)) ;;
  r <- math.sqrt d ;;
  Ret (var + r).

(** [math.sqrt(ln(n)/n_j * min(1/4,V_j))] *)
Definition Avg_R_UCB (s : state) (action : Action) : result Q :=
  V_j <- Var_R_UCB s action ;;
  l <- math.ln (Py.of_nat (t s)) ;;
  d <- Py.div l (Py.of_nat (s_get s action)) ;;
  math.sqrt (d * Py.min (1 # 4) V_j).

Definition one_hot (k n : nat) : list Q :=
  map (fun i => Py.int (Nat.eqb i k)) (Py.range n).

Definition predict (s : state) (key : Key) (context : Context)
  (actions : list Action) : state * result (list Q) :=
  if (init_a s <? length actions)%nat then
    let s' := {| init_a := init_a s + 1; t := t s; s_ := s_ s;
                 m := m s; v := v s |} in
    (s', Ret (one_hot (init_a s' - 1) (length actions)))
  else
    (s,
     values <- Py.mapM (fun a =>
                  match m s !! a with
                  | Some m_a => u <- Avg_R_UCB s a ;; Ret (Some (m_a + u))
                  | None => Ret None
                  end) actions ;;
     max_value <- Greedy.max_value values ;;
     let max_indexes := Greedy.max_indexes values max_value in
     Py.mapM (fun i => Py.div (Py.int (Greedy.mem i max_indexes))
                         (Py.of_nat (length max_indexes)))
       (Py.range (length actions))).

Definition learn (s : state) (key : Key) (context : Context)
  (action : Action) (reward probability : Q) : state * result unit :=
  let new_m : result Q :=
    match m s !! action with
    | None => Ret reward
    | Some m_a =>
        w <- Py.div 1 (Py.of_nat (s_get s action)) ;;
        w' <- Py.div 1 (Py.of_nat (s_get s action)) ;;
        Ret ((1 - w) * m_a + w' * reward)
    end in
  match new_m with
  | Ret x =>
      ({| init_a := init_a s;
          t := t s + 1;
          s_ := <[action := (s_get s action + 1)%nat]> (s_ s);
          m := <[action := x]> (m s);
          v := <[action := OnlineVariance_update (v_get s action) reward]> (v s) |},
       Ret tt)
  | Raise e => (s, Raise e)
  | Diverge => (s, Diverge)
  end.
(** A caller's use of one learner: a sequence of method calls, each made
    on the state the previous one left. *)
Inductive call : Type :=
| Predict (key : Key) (context : Context) (actions : list Action)
| Learn (key : Key) (context : Context) (action : Action)
    (reward probability : Q).

Definition run_call (s : state) (c : call) : state :=
  match c with
  | Predict key context actions => fst (predict s key context actions)
  | Learn key context action reward probability =>
      fst (learn s key context action reward probability)
  end.

Definition run (s : state) (calls : list call) : state :=
  fold_left run_call calls s.

Definition predicts_on (n : nat) (c : call) : bool :=
  match c with
  | Predict _ _ actions => Nat.eqb (length actions) n
  | Learn _ _ _ _ _ => true
  end.

Definition is_predict (c : call) : bool :=
  match c with
  | Predict _ _ _ => true
  | Learn _ _ _ _ _ => false
  end.
End Ucb.
End UcbTunedLearner.

(** ** CorralLearner *)

Module CorralLearner.
Section Corral.
Context `{Externals}.

(** The base learners a [CorralLearner] can own.  [VowpalLearner] wraps
    an external solver and is not modelled. *)
Inductive learner : Type :=
| Random
| Epsilon (s : EpsilonLearner.state)
| Ucb (s : UcbTunedLearner.state).

Definition learner_predict (b : learner) (key : Key) (context : Context)
  (actions : list Action) : learner * result (list Q) :=
  match b with
  | Random => (Random, RandomLearner.predict key context actions)
  | Epsilon s => (Epsilon s, EpsilonLearner.predict s key context actions)
  | Ucb s =>
      let '(s', r) := UcbTunedLearner.predict s key context actions in
      (Ucb s', r)
  end.

Definition learner_learn (b : learner) (key : Key) (context : Context)
  (action : Action) (reward probability : Q) : learner * result unit :=
  match b with
  | Random =>
      (Random, RandomLearner.learn key context action reward probability)
  | Epsilon s =>
      let '(s', r) :=
        EpsilonLearner.learn s key context action reward probability in
      (Epsilon s', r)
  | Ucb s =>
      let '(s', r) :=
        UcbTunedLearner.learn s key context action reward probability in
      (Ucb s', r)
  end.

Record state : Type := {
  base_learners : list learner;
  gamma : Q;
  beta : Q;
  eta_init : Q;
  etas : list Q;
  rhos : list Q;
  ps : list Q;
  p_bars : list Q;
  random : CobaRandom;
  base_actions : gmap Key (list Action);
  base_predicts : gmap Key (list Q)
}.

Definition init (base_learners : list learner) (eta : Q) (T : pyfloat)
  (random : CobaRandom) : result state :=
  let M := length base_learners in
  gamma <- Py.inv T ;;
  log_T <- math.log T ;;
  e <- Py.inv log_T ;;
  beta <- Py.div 1 (math.exp e) ;;
  p <- Py.div 1 (Py.of_nat M) ;;
  p_bar <- Py.div 1 (Py.of_nat M) ;;
  Ret {| base_learners := base_learners;
         gamma := gamma;
         beta := beta;
         eta_init := eta;
         etas := repeat eta M;
         rhos := repeat (Py.of_nat (2 * M)) M;
         ps := repeat p M;
         p_bars := repeat p_bar M;
         random := random;
         base_actions := ∅;
         base_predicts := ∅ |}.

(** *** predict *)

(** [[b.predict(key, context, actions) for b in self._base_learners]] *)
Fixpoint predicts_of (bs : list learner) (key : Key) (context : Context)
  (actions : list Action) : list learner * result (list (list Q)) :=
  match bs with
  | [] => ([], Ret [])
  | b :: bs' =>
      let '(b', r) := learner_predict b key context actions in
      match r with
      | Ret predict =>
          let '(bs'', rs) := predicts_of bs' key context actions in
          (b' :: bs'', rest <- rs ;; Ret (predict :: rest))
      | Raise e => (b' :: bs', Raise e)
      | Diverge => (b' :: bs', Diverge)
      end
  end.

(** [[self._random.choice(actions, predict) for predict in predicts]] *)
Fixpoint choices (rnd : CobaRandom) (actions : list Action)
  (predicts : list (list Q)) : CobaRandom * list Action :=
  match predicts with
  | [] => (rnd, [])
  | predict :: rest =>
      let '(rnd', a) := CobaRandom_choice rnd actions predict in
      let '(rnd'', l) := choices rnd' actions rest in
      (rnd'', a :: l)
  end.

(** [actions.index(action)] *)
Fixpoint index (actions : list Action) (action : Action) : result nat :=
  match actions with
  | [] => Raise ValueError
  | a :: rest =>
      if Z.eqb a action then Ret 0%nat
      else i <- index rest action ;; Ret (S i)
  end.

(** [predict[i]] *)
Definition item (predict : list Q) (i : nat) : result Q :=
  match predict !! i with
  | Some x => Ret x
  | None => Raise IndexError
  end.

(** [sum([p_b*int(a==b_a) for p_b,b_a in zip(self._p_bars, base_actions)])] *)
Definition mixture (p_bars : list Q) (base_actions : list Action)
  (a : Action) : Q :=
  Py.sum (map (fun '(p_b, b_a) => p_b * Py.int (Z.eqb a b_a))
            (zip p_bars base_actions)).

Definition with_learners (s : state) (bs : list learner) : state :=
  {| base_learners := bs; gamma := gamma s; beta := beta s;
     eta_init := eta_init s; etas := etas s; rhos := rhos s; ps := ps s;
     p_bars := p_bars s; random := random s;
     base_actions := base_actions s; base_predicts := base_predicts s |}.

Definition with_random (s : state) (rnd : CobaRandom) : state :=
  {| base_learners := base_learners s; gamma := gamma s; beta := beta s;
     eta_init := eta_init s; etas := etas s; rhos := rhos s; ps := ps s;
     p_bars := p_bars s; random := rnd;
     base_actions := base_actions s; base_predicts := base_predicts s |}.

Definition with_maps (s : state) (ba : gmap Key (list Action))
  (bp : gmap Key (list Q)) : state :=
  {| base_learners := base_learners s; gamma := gamma s; beta := beta s;
     eta_init := eta_init s; etas := etas s; rhos := rhos s; ps := ps s;
     p_bars := p_bars s; random := random s;
     base_actions := ba; base_predicts := bp |}.

Definition with_weights (s : state) (ps' p_bars' : list Q) : state :=
  {| base_learners := base_learners s; gamma := gamma s; beta := beta s;
     eta_init := eta_init s; etas := etas s; rhos := rhos s; ps := ps';
     p_bars := p_bars'; random := random s;
     base_actions := base_actions s; base_predicts := base_predicts s |}.

Definition with_rates (s : state) (rhos' etas' : list Q) : state :=
  {| base_learners := base_learners s; gamma := gamma s; beta := beta s;
     eta_init := eta_init s; etas := etas'; rhos := rhos'; ps := ps s;
     p_bars := p_bars s; random := random s;
     base_actions := base_actions s; base_predicts := base_predicts s |}.

Definition predict (s : state) (key : Key) (context : Context)
  (actions : list Action) : state * result (list Q) :=
  let '(bs, r) := predicts_of (base_learners s) key context actions in
  let s1 := with_learners s bs in
  match r with
  | Ret predicts =>
      let '(rnd, base_actions') := choices (random s1) actions predicts in
      let s2 := with_random s1 rnd in
      match Py.mapM (fun '(action, predict) =>
                       i <- index actions action ;; item predict i)
              (zip base_actions' predicts) with
      | Ret base_predicts' =>
          (with_maps s2 (<[key := base_actions']> (base_actions s2))
             (<[key := base_predicts']> (base_predicts s2)),
           Ret (map (mixture (p_bars s2) base_actions') actions))
      | Raise e => (s2, Raise e)
      | Diverge => (s2, Diverge)
      end
  | Raise e => (s1, Raise e)
  | Diverge => (s1, Diverge)
  end.

(** *** The log-barrier solve *)

(** [zip(self._ps, self._etas, losses)], the triples [(p, eta, loss)]
    that [f], [df] and the final comprehension go through. *)
Definition zip3 (s : state) (losses : list Q) : list (Q * Q * Q) :=
  zip (zip (ps s) (etas s)) losses.

(** [(1/p) + eta*(loss-l)] *)
Definition denom (l : Q) (pel : Q * Q * Q) : result Q :=
  let '(p, eta, loss) := pel in
  a <- Py.div 1 p ;; Ret (a + eta * (loss - l)).

Definition f (zs : list (Q * Q * Q)) (l : Q) : result Q :=
  ts <- Py.mapM (fun pel => d <- denom l pel ;; Py.div 1 d) zs ;;
  Ret (Py.sum ts).

Definition df (zs : list (Q * Q * Q)) (l : Q) : result Q :=
  ts <- Py.mapM (fun pel => d <- denom l pel ;;
                            Py.div (snd (fst pel)) (d ^ 2)) zs ;;
  Ret (Py.sum ts).

(** [((-1/p)-(eta*loss))/-eta] *)
Definition denom_zero (pel : Q * Q * Q) : result Q :=
  let '(p, eta, loss) := pel in
  a <- Py.div (-1) p ;; Py.div (a - eta * loss) (- eta).

Definition precision : nat := 4.

(** The body of [while True]: one damped Newton step from [x] (the
    first [df(x)] is the one printed about when it is zero), then the
    convergence test on the new [x].  How many passes the loop makes in
    Python, and whether it ends, depends on the rounding of the floats:
    that is the subject of [CorralLearner64] below. *)
Definition newton_step (zs : list (Q * Q * Q)) (x : Q) : result Q :=
  _ <- df zs x ;;
  fx <- f zs x ;;
  dfx <- df zs x ;;
  step <- Py.div (fx - 1) dfx ;;
  Ret (x - step).

Definition converged (zs : list (Q * Q * Q)) (x : Q) : result bool :=
  fx <- f zs x ;; Ret (Qeq_bool (Py.round fx precision) 1).

Fixpoint newton_loop (fuel : nat) (zs : list (Q * Q * Q)) (x : Q)
  : result Q :=
  match fuel with
  | O => Diverge
  | S fuel' =>
      x' <- newton_step zs x ;;
      c <- converged zs x' ;;
      if c then Ret x' else newton_loop fuel' zs x'
  end.

Definition newtons_zero (fuel : nat) (zs : list (Q * Q * Q)) (l r : Q)
  : result (option Q) :=
  fl <- f zs (l + 0.0001) ;;
  fr <- f zs (r - 0.00001) ;;
  if Qle_bool 0 ((fl - 1) * (fr - 1)) then Ret None
  else x <- newton_loop fuel zs ((l + r) / 2) ;; Ret (Some x).

(** [sorted(set(zs))]: ascending, one representative of equal numbers *)
Fixpoint insert_sorted (x : Q) (l : list Q) : list Q :=
  match l with
  | [] => [x]
  | y :: ys =>
      if Py.Qlt_bool x y then x :: y :: ys
      else if Qeq_bool x y then y :: ys
      else y :: insert_sorted x ys
  end.

Definition sorted_set (zs : list Q) : list Q :=
  fold_right insert_sorted [] zs.

(** [x in zs] *)
Definition member (x : Q) (zs : list Q) : bool := existsb (Qeq_bool x) zs.

(** [for l_brack, r_brack in zip(brackets[:-1], brackets[1:])] with its
    [break] on the first root *)
Fixpoint search_brackets (fuel : nat) (zs : list (Q * Q * Q))
  (pairs : list (Q * Q)) : result (option Q) :=
  match pairs with
  | [] => Ret None
  | (l_brack, r_brack) :: rest =>
      lmbda <- newtons_zero fuel zs l_brack r_brack ;;
      match lmbda with
      | Some x => Ret (Some x)
      | None => search_brackets fuel zs rest
      end
  end.

Definition brackets_of (denom_zeros : list Q) (min_loss max_loss : Q)
  : list Q :=
  sorted_set
    (List.filter (fun z => Qle_bool min_loss z && Qle_bool z max_loss)
       (denom_zeros ++ [min_loss; max_loss])).

(** [round(f(l),precision) == 1] for a boundary candidate [l] that is
    not one of the [denom_zeros] *)
Definition boundary_root (zs : list (Q * Q * Q)) (denom_zeros : list Q)
  (l : Q) : result bool :=
  if negb (member l denom_zeros)
  then fl <- f zs l ;; Ret (Qeq_bool (Py.round fl precision) 1)
  else Ret false.

(** The value of [lmbda] when the final list comprehension is reached. *)
Definition find_lmbda (fuel : nat) (s : state) (losses : list Q)
  : result (option Q) :=
  let zs := zip3 s losses in
  denom_zeros <- Py.mapM denom_zero zs ;;
  min_loss <- Py.min_list losses ;;
  max_loss <- Py.max_list losses ;;
  if Qeq_bool min_loss max_loss then Ret (Some min_loss)
  else
    at_min <- boundary_root zs denom_zeros min_loss ;;
    if at_min then Ret (Some min_loss)
    else
      at_max <- boundary_root zs denom_zeros max_loss ;;
      if at_max then Ret (Some max_loss)
      else
        let brackets := brackets_of denom_zeros min_loss max_loss in
        search_brackets fuel zs
          (zip (removelast brackets) (tl brackets)).

Definition floor : Q := 0.00001.

(** [max(1/((1/p) + eta*(loss-lmbda)),.00001)]; with [lmbda] still [None]
    the subtraction [loss-lmbda] raises [TypeError]. *)
Definition new_weight (lmbda : option Q) (pel : Q * Q * Q) : result Q :=
  let '(p, eta, loss) := pel in
  a <- Py.div 1 p ;;
  match lmbda with
  | None => Raise TypeError
  | Some lam =>
      w <- Py.div 1 (a + eta * (loss - lam)) ;; Ret (Py.max w floor)
  end.

Definition log_barrier_omd (fuel : nat) (s : state) (losses : list Q)
  : result (list Q) :=
  lmbda <- find_lmbda fuel s losses ;;
  Py.mapM (new_weight lmbda) (zip3 s losses).

(** *** learn *)

(** [for learner, action, L, P in zip(...): learner.learn(key, context, action, 1-L, P)] *)
Fixpoint learn_base (bs : list learner) (key : Key) (context : Context)
  (base_actions : list Action) (losses base_predicts : list Q)
  : list learner * result unit :=
  match bs, base_actions, losses, base_predicts with
  | b :: bs', action :: acts, L :: Ls, P :: Ps =>
      let '(b', r) := learner_learn b key context action (1 - L) P in
      match r with
      | Ret _ =>
          let '(bs'', r') := learn_base bs' key context acts Ls Ps in
          (b' :: bs'', r')
      | Raise e => (b' :: bs', Raise e)
      | Diverge => (b' :: bs', Diverge)
      end
  | _, _, _, _ => (bs, Ret tt)
  end.

(** One round of the rate-control loop, for index [i]. *)
Definition rate_control_at (beta : Q) (p_bars : list Q) (i : nat)
  (rhos etas : list Q) : list Q * list Q * result unit :=
  match p_bars !! i with
  | None => (rhos, etas, Raise IndexError)
  | Some p_bar =>
      match Py.div 1 p_bar, rhos !! i with
      | Ret q, Some rho =>
          if Py.Qlt_bool rho q then
            match Py.div 2 p_bar with
            | Ret rho' =>
                let rhos' := <[i := rho']> rhos in
                match etas !! i with
                | Some eta => (rhos', <[i := eta * beta]> etas, Ret tt)
                | None => (rhos', etas, Raise IndexError)
                end
            | Raise e => (rhos, etas, Raise e)
            | Diverge => (rhos, etas, Diverge)
            end
          else (rhos, etas, Ret tt)
      | Ret _, None => (rhos, etas, Raise IndexError)
      | Raise e, _ => (rhos, etas, Raise e)
      | Diverge, _ => (rhos, etas, Diverge)
      end
  end.

(** [for i in range(len(self._base_learners))] *)
Fixpoint rate_control (beta : Q) (p_bars : list Q) (indexes : list nat)
  (rhos etas : list Q) : list Q * list Q * result unit :=
  match indexes with
  | [] => (rhos, etas, Ret tt)
  | i :: rest =>
      let '(rhos', etas', r) := rate_control_at beta p_bars i rhos etas in
      match r with
      | Ret _ => rate_control beta p_bars rest rhos' etas'
      | _ => (rhos', etas', r)
      end
  end.

(** [(1-self._gamma)*p + self._gamma*1/len(self._base_learners)] *)
Definition smooth (s : state) (p : Q) : result Q :=
  g <- Py.div (gamma s * 1) (Py.of_nat (length (base_learners s))) ;;
  Ret ((1 - gamma s) * p + g).

(** [loss/probability * int(act==action)] *)
Definition base_loss (loss probability : Q) (action act : Action)
  : result Q :=
  q <- Py.div loss probability ;; Ret (q * Py.int (Z.eqb act action)).

Definition learn (fuel : nat) (s : state) (key : Key) (context : Context)
  (action : Action) (reward probability : Q) : state * result unit :=
  let loss := 1 - reward in
  match base_actions s !! key with
  | None => (s, Raise KeyError)
  | Some base_actions' =>
      let s1 := with_maps s (delete key (base_actions s)) (base_predicts s) in
      match base_predicts s1 !! key with
      | None => (s1, Raise KeyError)
      | Some base_predicts' =>
          let s2 := with_maps s1 (base_actions s1)
                      (delete key (base_predicts s1)) in
          match Py.mapM (base_loss loss probability action) base_actions' with
          | Ret losses =>
              let '(bs, r) := learn_base (base_learners s2) key context
                                base_actions' losses base_predicts' in
              let s3 := with_learners s2 bs in
              match r with
              | Ret _ =>
                  match log_barrier_omd fuel s3 losses with
                  | Ret ps' =>
                      let s4 := with_weights s3 ps' (p_bars s3) in
                      match Py.mapM (smooth s4) (ps s4) with
                      | Ret p_bars' =>
                          let s5 := with_weights s4 (ps s4) p_bars' in
                          let '(rhos', etas', r') :=
                            rate_control (beta s5) (p_bars s5)
                              (Py.range (length (base_learners s5)))
                              (rhos s5) (etas s5) in
                          (with_rates s5 rhos' etas', r')
                      | Raise e => (s4, Raise e)
                      | Diverge => (s4, Diverge)
                      end
                  | Raise e => (s3, Raise e)
                  | Diverge => (s3, Diverge)
                  end
              | Raise e => (s3, Raise e)
              | Diverge => (s3, Diverge)
              end
          | Raise e => (s2, Raise e)
          | Diverge => (s2, Diverge)
          end
      end
  end.

(** *** Vocabulary for the properties of [learn] *)

(** The fields that no method assigns after construction. *)
Definition same_parameters (s s' : state) : Prop :=
  gamma s' = gamma s /\ beta s' = beta s /\
  length (base_learners s') = length (base_learners s).

Definition same_weights (s s' : state) : Prop :=
  ps s' = ps s /\ p_bars s' = p_bars s /\
  rhos s' = rhos s /\ etas s' = etas s.

(** [(1-gamma)*p + gamma*1/M], the value [smooth] returns *)
Definition smoothed (s : state) (p : Q) : Q :=
  (1 - gamma s) * p + gamma s * 1 / Py.of_nat (length (base_learners s)).

(** What a rate-control loop that runs to its end has done to index [i]:
    [rhos], [etas] are the lists before the loop, [rhos'], [etas'] the
    lists after it. *)
Definition rate_rule (b : Q) (p_bars rhos etas rhos' etas' : list Q)
  (i : nat) : Prop :=
  exists pb rho,
    p_bars !! i = Some pb /\ rhos !! i = Some rho /\
    (rho < 1 / pb ->
     rhos' !! i = Some (2 / pb) /\
     exists eta, etas !! i = Some eta /\ etas' !! i = Some (eta * b)) /\
    (1 / pb <= rho -> rhos' !! i = Some rho /\ etas' !! i = etas !! i).

(** A learner built with sensible parameters: at least one base learner,
    [gamma] and [beta] in [[0,1]] (a horizon [T > 1] or the infinite
    one), non-negative learning rates, positive smoothed weights. *)
Definition well_formed (s : state) : Prop :=
  length (base_learners s) <> 0%nat /\
  0 <= gamma s <= 1 /\ 0 <= beta s <= 1 /\
  Forall (fun p => 0 < p) (p_bars s) /\
  Forall (fun e => 0 <= e) (etas s).

(** Two outcomes that differ at most in the representation of the
    number returned. *)
Definition same_result (r r' : result Q) : Prop :=
  match r, r' with
  | Ret a, Ret b => a == b
  | Raise e, Raise e' => e = e'
  | Diverge, Diverge => True
  | _, _ => False
  end.

(** *** The states a learner goes through

    One call of [predict] or [learn] takes the learner from one state to
    the next, whether it returns or raises; a [learn] that never returns
    has no next state. *)
Inductive step : state -> state -> Prop :=
| step_predict s key context actions :
    step s (fst (predict s key context actions))
| step_learn fuel s key context action reward probability :
    snd (learn fuel s key context action reward probability) <> Diverge ->
    step s (fst (learn fuel s key context action reward probability)).

Definition reachable (s0 s : state) : Prop := rtc step s0 s.

End Corral.
End CorralLearner.

(** ** A concrete environment

    Used to run the model on concrete inputs.  The random source is the list
    of draws the seeded generator is going to make, in order; the variance
    accumulator keeps the running count, mean and sum of squares; the [math]
    functions are low-order rational approximations. *)

Module Demo.

Definition choice (rnd : list Action) (actions : list Action)
  (weights : list Q) : list Action * Action :=
  match rnd with
  | a :: rest => (rest, a)
  | [] => ([], hd 0%Z actions)
  end.

Definition variance_update (o : nat * Q * Q) (value : Q) : nat * Q * Q :=
  let '(count, mean, M2) := o in
  let count' := S count in
  let delta := value - mean in
  let mean' := mean + delta / Py.of_nat count' in
  (count', mean', M2 + delta * (value - mean')).

Definition variance (o : nat * Q * Q) : Q :=
  let '(count, _, M2) := o in
  if (1 <? count)%nat then M2 / Py.of_nat (count - 1) else 0.

Definition externals : Externals :=
  {| log_approx := fun q => q - 1;
     sqrt_approx := fun q => (q + 1) / 2;
     exp_approx := fun q => 1 + q + q * q / 2;
     OnlineVariance := nat * Q * Q;
     OnlineVariance_new := (0%nat, 0, 0);
     OnlineVariance_update := variance_update;
     OnlineVariance_variance := variance;
     CobaRandom := list Action;
     CobaRandom_choice := choice |}.

#[local] Existing Instance externals.

(** The state [CorralLearner(base_learners, eta, T, draws)] starts in,
    given the [gamma] and [beta] the constructor derives from [T]. *)
Definition corral (base_learners : list CorralLearner.learner)
  (eta gamma beta : Q) (draws : list Action) : CorralLearner.state :=
  let M := length base_learners in
  {| CorralLearner.base_learners := base_learners;
     CorralLearner.gamma := gamma;
     CorralLearner.beta := beta;
     CorralLearner.eta_init := eta;
     CorralLearner.etas := repeat eta M;
     CorralLearner.rhos := repeat (Py.of_nat (2 * M)) M;
     CorralLearner.ps := repeat (1 / Py.of_nat M) M;
     CorralLearner.p_bars := repeat (1 / Py.of_nat M) M;
     CorralLearner.random := draws;
     CorralLearner.base_actions := ∅;
     CorralLearner.base_predicts := ∅ |}.

(** [self._base_learners[i]._m.get(a)] for a [UcbTunedLearner] at index
    [i]: the mean reward that base learner has recorded for action [a]. *)
Definition base_mean (s : CorralLearner.state) (i : nat) (a : Action)
  : option Q :=
  match CorralLearner.base_learners s !! i with
  | Some (CorralLearner.Ucb u) => UcbTunedLearner.m u !! a
  | _ => None
  end.

(** The learner a successful construction returns. *)
Definition started (r : Py.result CorralLearner.state) : CorralLearner.state :=
  match r with
  | Py.Ret s => s
  | _ => corral [] 0 0 0 []
  end.

End Demo.

(** ** Histories of calls

    The estimates of [EpsilonLearner] and [UcbTunedLearner] are functions of
    the [learn] calls made so far.  A history is the list of these calls,
    oldest first. *)

Module EpsilonHistory.

(** One call [learn(key, context, action, reward, probability)]. *)
Record learn_call : Type := {
  key : Key;
  context : Context;
  action : Action;
  reward : Q;
  probability : Q
}.

Definition run_call (s : EpsilonLearner.state) (c : learn_call)
  : EpsilonLearner.state :=
  fst (EpsilonLearner.learn s (key c) (context c) (action c) (reward c)
         (probability c)).

Definition run (s : EpsilonLearner.state) (calls : list learn_call)
  : EpsilonLearner.state :=
  fold_left run_call calls s.

(** The rewards of the calls whose table key [_key(context, action)] is
    [k], in the order of the calls. *)
Definition rewards_for (s : EpsilonLearner.state)
  (k : option Context * Action) (calls : list learn_call) : list Q :=
  map reward
    (List.filter (fun c => bool_decide
                             (EpsilonLearner.key_ s (context c) (action c) = k))
       calls).

End EpsilonHistory.

Module UcbHistory.

Definition reward_of (a : Action) (c : UcbTunedLearner.call) : option Q :=
  match c with
  | UcbTunedLearner.Learn _ _ action reward _ =>
      if Z.eqb action a then Some reward else None
  | UcbTunedLearner.Predict _ _ _ => None
  end.

(** The rewards learned for action [a], in the order of the calls. *)
Definition rewards_of (a : Action) (calls : list UcbTunedLearner.call)
  : list Q :=
  omap (reward_of a) calls.

(** The number of [learn] calls. *)
Definition learns (calls : list UcbTunedLearner.call) : nat :=
  length (List.filter (fun c => negb (UcbTunedLearner.is_predict c)) calls).

End UcbHistory.

(** ** [family] and [params]

    The two properties every learner has; benchmark results are labelled
    with them. *)

Module Description.
Section Description.
Context `{Externals}.

Definition RandomLearner_family : string := "random".

Definition EpsilonLearner_family (s : EpsilonLearner.state) : string :=
  if EpsilonLearner.include_context s then "cb_epsilongreedy"
  else "bandit_epsilongreedy".

(** [{"epsilon": self._epsilon}] *)
Definition EpsilonLearner_params (s : EpsilonLearner.state) : Q :=
  EpsilonLearner.epsilon s.

Definition UcbTunedLearner_family : string := "bandit_UCB".

Definition CorralLearner_family : string := "corral".

Definition family (b : CorralLearner.learner) : string :=
  match b with
  | CorralLearner.Random => RandomLearner_family
  | CorralLearner.Epsilon s => EpsilonLearner_family s
  | CorralLearner.Ucb _ => UcbTunedLearner_family
  end.

(** [{"eta": self._eta_init, "B": [ b.family for b in self._base_learners ]}] *)
Definition CorralLearner_params (s : CorralLearner.state) : Q * list string :=
  (CorralLearner.eta_init s, map family (CorralLearner.base_learners s)).

End Description.
End Description.

(** ** What the lists of a [CorralLearner] look like

    [shaped s]: the four per-learner lists have one entry per base learner,
    and so has every list stored for a key by [predict]. *)

Module CorralShape.
Section Shape.
Context `{Externals}.
Import CorralLearner.

Definition shaped (s : state) : Prop :=
  let M := length (base_learners s) in
  length (ps s) = M /\ length (p_bars s) = M /\
  length (rhos s) = M /\ length (etas s) = M /\
  map_Forall (fun _ l => length l = M) (base_actions s) /\
  map_Forall (fun _ l => length l = M) (base_predicts s) /\
  dom (base_actions s) = dom (base_predicts s).

(** [rho_i] bounds [1/p_bar_i] from above. *)
Definition rho_bounds (s : state) : Prop :=
  Forall2 (fun rho p_bar => 1 / p_bar <= rho) (rhos s) (p_bars s).

End Shape.
End CorralShape.

(** ** VowpalLearner

    [coba.vowpal] ([VW]) and the Vowpal Wabbit process behind it are not
    part of the sources.  Of the classes [learners.py] names, the model
    keeps what the code looks at: which of the two learning classes an
    object is ([isinstance(..., VW.cb_explore)]; the two classes are taken
    to be unrelated), and the exploration objects by their constructor
    arguments.  The wrapper [VW.pyvw_Wrapper] is a field of [Vowpal]: an
    opaque state with the four operations the learner calls, each of which
    can raise. *)

Module VW.

Inductive learning : Set :=
| cb_explore
| cb_explore_adf.

Inductive exploration : Set :=
| epsilongreedy (epsilon : Q)
| softmax (softmax : Q)
| bagging (bag : Z)
| cover (cover : Z).

End VW.

Class Vowpal : Type := {
  pyvw_Wrapper : Type;
  pyvw_Wrapper_new : VW.learning -> option Z -> pyvw_Wrapper;
  vw_created : pyvw_Wrapper -> bool;
  vw_create : pyvw_Wrapper -> VW.learning -> VW.exploration -> list Action ->
              string -> pyvw_Wrapper * result unit;
  vw_predict : pyvw_Wrapper -> Context -> list Action ->
               pyvw_Wrapper * result (list Q);
  vw_learn : pyvw_Wrapper -> Q -> list Action -> Context -> Action -> Q ->
             pyvw_Wrapper * result unit
}.

Module VowpalLearner.
Section Vowpal.
Context `{Vowpal}.

(** [self._actions]: a list (the actions of the first [predict]) or a
    dict from keys to action lists. *)
Inductive store : Type :=
| Fixed (actions : list Action)
| PerKey (actions : gmap Key (list Action)).

Record state : Type := {
  learning : VW.learning;
  exploration : VW.exploration;
  probs : gmap Key (list Q);
  actions : store;
  flags : string;
  vw : pyvw_Wrapper
}.

(** The keyword arguments of the constructor; [None] for one that is not
    passed. *)
Record kwargs : Type := {
  kw_epsilon : option Q;
  kw_softmax : option Q;
  kw_bag : option Z;
  kw_cover : option Z;
  kw_is_adf : option bool;
  kw_flags : option string;
  kw_seed : option Z
}.

Definition new_actions (learning : VW.learning) : store :=
  match learning with
  | VW.cb_explore => Fixed []
  | VW.cb_explore_adf => PerKey ∅
  end.

(** [VW.cb_explore_adf() if kwargs.get('is_adf',True) else VW.cb_explore()] *)
Definition adf_unless_disabled (kw : kwargs) : VW.learning :=
  if default true (kw_is_adf kw) then VW.cb_explore_adf else VW.cb_explore.

Definition init (learning : VW.learning) (exploration : VW.exploration)
  (kw : kwargs) : state :=
  let '(learning', exploration') :=
    match kw_epsilon kw, kw_softmax kw, kw_bag kw, kw_cover kw with
    | Some e, _, _, _ => (adf_unless_disabled kw, VW.epsilongreedy e)
    | None, Some l, _, _ => (VW.cb_explore_adf, VW.softmax l)
    | None, None, Some b, _ => (adf_unless_disabled kw, VW.bagging b)
    | None, None, None, Some c => (VW.cb_explore, VW.cover c)
    | None, None, None, None => (learning, exploration)
    end in
  {| learning := learning';
     exploration := exploration';
     probs := ∅;
     actions := new_actions learning';
     flags := default "" (kw_flags kw);
     vw := pyvw_Wrapper_new learning' (kw_seed kw) |}.

Definition with_actions (s : state) (a : store) : state :=
  {| learning := learning s; exploration := exploration s; probs := probs s;
     actions := a; flags := flags s; vw := vw s |}.

Definition with_vw (s : state) (w : pyvw_Wrapper) : state :=
  {| learning := learning s; exploration := exploration s; probs := probs s;
     actions := actions s; flags := flags s; vw := w |}.

Definition set_actions (s : state) (key : Key) (actions_ : list Action)
  : state :=
  let s1 := match actions s with
            | Fixed [] => with_actions s (Fixed actions_)
            | _ => s
            end in
  match actions s1 with
  | PerKey m => with_actions s1 (PerKey (<[key := actions_]> m))
  | Fixed _ => s1
  end.

Definition get_actions (s : state) (key : Key)
  : state * result (list Action) :=
  match actions s with
  | PerKey m =>
      match m !! key with
      | Some l => (with_actions s (PerKey (delete key m)), Ret l)
      | None => (s, Raise KeyError)
      end
  | Fixed l => (s, Ret l)
  end.

(** [sorted(xs, key=...)] on the keys already computed: ascending, and
    stable (of two entries with the same key the one that came first stays
    first). *)
Fixpoint insert_by_key {A} (x : nat * A) (l : list (nat * A))
  : list (nat * A) :=
  match l with
  | [] => [x]
  | y :: ys =>
      if (fst x <=? fst y)%nat then x :: y :: ys
      else y :: insert_by_key x ys
  end.

Definition sorted_by_key {A} (keys : list nat) (xs : list A) : list A :=
  map snd (fold_right insert_by_key [] (zip keys xs)).

(** [actions.index(self._actions[i])], the sort key of index [i].  With a
    dict in [self._actions] the subscript looks up the key [i], and what it
    finds is a list, which is none of the actions. *)
Definition sort_key (st : store) (actions_ : list Action) (i : nat)
  : result nat :=
  match st with
  | Fixed l =>
      match l !! i with
      | Some a => CorralLearner.index actions_ a
      | None => Raise IndexError
      end
  | PerKey m =>
      match m !! Z.of_nat i with
      | Some _ => Raise ValueError
      | None => Raise KeyError
      end
  end.

(** [[probs[i] for i in sorted(range(len(actions)), key=...)]] *)
Definition reorder (st : store) (actions_ : list Action) (probs_ : list Q)
  : result (list Q) :=
  keys <- Py.mapM (sort_key st actions_) (Py.range (length actions_)) ;;
  Py.mapM (CorralLearner.item probs_)
    (sorted_by_key keys (Py.range (length actions_))).

Definition predict (s : state) (key : Key) (context : Context)
  (actions_ : list Action) : state * result (list Q) :=
  let '(w, created) :=
    if vw_created (vw s) then (vw s, Ret tt)
    else vw_create (vw s) (learning s) (exploration s) actions_ (flags s) in
  match created with
  | Ret _ =>
      let '(w', r) := vw_predict w context actions_ in
      match r with
      | Ret probs_ =>
          let s1 := set_actions (with_vw s w') key actions_ in
          (s1,
           match learning s1 with
           | VW.cb_explore => reorder (actions s1) actions_ probs_
           | VW.cb_explore_adf => Ret probs_
           end)
      | Raise e => (with_vw s w', Raise e)
      | Diverge => (with_vw s w', Diverge)
      end
  | Raise e => (with_vw s w, Raise e)
  | Diverge => (with_vw s w, Diverge)
  end.

Definition learn (s : state) (key : Key) (context : Context)
  (action : Action) (reward probability : Q) : state * result unit :=
  let '(s1, r) := get_actions s key in
  match r with
  | Ret actions_ =>
      let '(w, r') :=
        vw_learn (vw s1) probability actions_ context action reward in
      (with_vw s1 w, r')
  | Raise e => (s1, Raise e)
  | Diverge => (s1, Diverge)
  end.

(** One call of [predict] or [learn], whatever its outcome. *)
Inductive step : state -> state -> Prop :=
| step_predict s key context actions_ :
    step s (fst (predict s key context actions_))
| step_learn s key context action reward probability :
    step s (fst (learn s key context action reward probability)).

End Vowpal.
End VowpalLearner.

(** ** VowpalSolver, the solver of [examples/covtype.py]

    The script defines a solver on top of the [vowpalwabbit] package and
    then runs a benchmark with it; the model covers the class.  States and
    actions are Python values: [None], integers (booleans are integers),
    strings, and tuples or lists of values.  The Vowpal Wabbit object, the
    draw [random.random()] makes and Python's [str] on values other than
    strings are inputs of the model. *)

Module VowpalSolver.

#[local] Unset Elimination Schemes.
Inductive value : Type :=
| VNone
| VInt (z : Z)
| VStr (s : string)
| VTuple (l : list value)
| VList (l : list value).
#[local] Set Elimination Schemes.

(** [==] on values *)
Fixpoint value_eqb (a b : value) {struct a} : bool :=
  let fix list_eqb (l k : list value) {struct l} : bool :=
    match l, k with
    | [], [] => true
    | x :: l', y :: k' => value_eqb x y && list_eqb l' k'
    | _, _ => false
    end in
  match a, b with
  | VNone, VNone => true
  | VInt x, VInt y => Z.eqb x y
  | VStr s, VStr t => String.eqb s t
  | VTuple l, VTuple k => list_eqb l k
  | VList l, VList k => list_eqb l k
  | _, _ => false
  end.

(** A value that can be part of a dictionary key: lists cannot. *)
Fixpoint hashable (v : value) : bool :=
  match v with
  | VList _ => false
  | VTuple l => forallb hashable l
  | _ => true
  end.

Class Host : Type := {
  pyvw_vw : Type;
  pyvw_new : string -> pyvw_vw;
  pyvw_predict : pyvw_vw -> string -> pyvw_vw * result (list Q);
  pyvw_learn : pyvw_vw -> string -> pyvw_vw * result unit;
  str_value : value -> string;
  str_number : Q -> string
}.

Section Solver.
Context `{Host}.

(** [str(v)] *)
Definition str (v : value) : string :=
  match v with
  | VStr s => s
  | _ => str_value v
  end.

(** [self._prob]: the entries in the order they were assigned, latest
    first; a lookup finds the latest entry of an equal key. *)
Record state : Type := {
  vw : pyvw_vw;
  prob : list (list value * Q)
}.

Definition init : state :=
  {| vw := pyvw_new "--cb_explore 7 --epsilon 0.1 --quiet"; prob := [] |}.

Definition tuple_ (v : value) : list value :=
  match v with
  | VTuple l => l
  | VList l => l
  | _ => [v]
  end.

Definition key_ (state_ action : value) : list value :=
  tuple_ state_ ++ tuple_ action.

Definition vw_format (state_ : value) : string :=
  match state_ with
  | VNone => ""
  | VInt _ => str state_
  | VStr s =>
      String.concat " "
        (map (fun c => str (VStr (String c EmptyString)))
           (String.list_ascii_of_string s))
  | VTuple l => String.concat " " (map str l)
  | VList l => String.concat " " (map str l)
  end.

Fixpoint keys_eqb (k k' : list value) : bool :=
  match k, k' with
  | [], [] => true
  | x :: l, y :: l' => value_eqb x y && keys_eqb l l'
  | _, _ => false
  end.

Fixpoint dict_get (d : list (list value * Q)) (k : list value) : option Q :=
  match d with
  | [] => None
  | (k', p) :: d' => if keys_eqb k' k then Some p else dict_get d' k
  end.

(** [itertools.accumulate(pmf)] *)
Fixpoint accumulate_from (total : Q) (l : list Q) : list Q :=
  match l with
  | [] => []
  | x :: xs => (total + x) :: accumulate_from (total + x) xs
  end.

Definition accumulate (l : list Q) : list Q :=
  match l with
  | [] => []
  | x :: xs => x :: accumulate_from x xs
  end.

(** [l.index(True)] *)
Fixpoint index_True (l : list bool) : result nat :=
  match l with
  | [] => Raise ValueError
  | b :: rest => if b then Ret 0%nat else i <- index_True rest ;; Ret (S i)
  end.

(** [choose(state, actions)], with the number [rng] that
    [random.random()] returns. *)
Definition choose (s : state) (state_ : value) (actions : list value)
  (rng : Q) : state * result nat :=
  let '(w, r) := pyvw_predict (vw s) ("| " +:+ vw_format state_) in
  let s1 := {| vw := w; prob := prob s |} in
  match r with
  | Ret pmf =>
      let cdf := accumulate pmf in
      match index_True (map (fun c => Py.Qlt_bool rng c) cdf) with
      | Ret index =>
          match pmf !! index, actions !! index with
          | Some p, Some a =>
              if forallb hashable (key_ state_ a)
              then ({| vw := w; prob := (key_ state_ a, p) :: prob s |},
                    Ret index)
              else (s1, Raise TypeError)
          | _, _ => (s1, Raise IndexError)
          end
      | Raise e => (s1, Raise e)
      | Diverge => (s1, Diverge)
      end
  | Raise e => (s1, Raise e)
  | Diverge => (s1, Diverge)
  end.

Definition learn (s : state) (state_ action : value) (reward : Q)
  : state * result unit :=
  if forallb hashable (key_ state_ action) then
    match dict_get (prob s) (key_ state_ action) with
    | Some p =>
        let '(w, r) :=
          pyvw_learn (vw s)
            (str action +:+ ":" +:+ str_number (- reward) +:+ ":"
             +:+ str_number p +:+ " | " +:+ vw_format state_) in
        ({| vw := w; prob := prob s |}, r)
    | None => (s, Raise KeyError)
    end
  else (s, Raise TypeError).

End Solver.
End VowpalSolver.

(** ** Concrete stand-ins for Vowpal Wabbit

    Used to run the two Vowpal models on concrete inputs: a wrapper
    that remembers whether it was created and answers every [predict]
    with the probabilities [1/T, 2/T, ...] ([T] their total), and a solver
    that answers with a fixed distribution. *)

Module DemoVowpal.

Definition ramp (n : nat) : list Q :=
  map (fun i => Py.of_nat (S i) / Py.of_nat (n * S n / 2)) (Py.range n).

Definition vowpal : Vowpal :=
  {| pyvw_Wrapper := bool;
     pyvw_Wrapper_new := fun _ _ => false;
     vw_created := fun w => w;
     vw_create := fun _ _ _ _ _ => (true, Ret tt);
     vw_predict := fun w _ actions => (w, Ret (ramp (length actions)));
     vw_learn := fun w _ _ _ _ _ => (w, Ret tt) |}.

(** A constructor call without keyword arguments. *)
Definition no_kwargs : VowpalLearner.kwargs :=
  {| VowpalLearner.kw_epsilon := None; VowpalLearner.kw_softmax := None;
     VowpalLearner.kw_bag := None; VowpalLearner.kw_cover := None;
     VowpalLearner.kw_is_adf := None; VowpalLearner.kw_flags := None;
     VowpalLearner.kw_seed := None |}.

Definition host : VowpalSolver.Host :=
  {| VowpalSolver.pyvw_vw := unit;
     VowpalSolver.pyvw_new := fun _ => tt;
     VowpalSolver.pyvw_predict := fun w _ => (w, Ret [1 # 4; 0; 3 # 4]);
     VowpalSolver.pyvw_learn := fun w _ => (w, Ret tt);
     VowpalSolver.str_value := fun _ => "?";
     VowpalSolver.str_number := fun _ => "?" |}.

End DemoVowpal.

(** ** The root finder in binary64

    Whether the [while True] loop of the root finder ends depends on the
    rounding of the arithmetic, which the rational model above leaves
    out.  This second model of [_log_barrier_omd], and of what [learn]
    does to the weights, runs on binary64 numbers, Python's [float]: the
    kernel's primitive floats, whose [+], [-], [*], [/] round to nearest
    (ties to even) as Python's do.
    What Python adds to the IEEE operations is written out: [/] raises
    [ZeroDivisionError] on a zero divisor, [**] raises [OverflowError]
    when the power of a finite number is infinite, and every other
    infinite or NaN result is a value like any other.  [x ** 2] is taken
    as the correctly rounded product [x * x], and [sum] adds from the
    left, starting at [0]. *)

Module PyFloat.
Import PrimFloat.
#[local] Set Warnings "-inexact-float".

(** [a / b] *)
Definition div (a b : float) : result float :=
  if eqb b 0 then Raise ZeroDivisionError else Ret (a / b)%float.

(** [x ** 2] *)
Definition square (x : float) : result float :=
  let y := (x * x)%float in
  if is_infinity y && negb (is_infinity x) then Raise OverflowError
  else Ret y.

(** [sum(l)] *)
Definition sum (l : list float) : float := fold_left add l 0%float.

(** [max(a, b)]: [b] when [b > a] *)
Definition max (a b : float) : float := if ltb a b then b else a.

(** [max(l)] and [min(l)] of a sequence: a later item replaces the
    current one when it is greater (smaller). *)
Definition max_list (l : list float) : result float :=
  match l with
  | [] => Raise ValueError
  | x :: xs => Ret (fold_left (fun m y => if ltb m y then y else m) xs x)
  end.

Definition min_list (l : list float) : result float :=
  match l with
  | [] => Raise ValueError
  | x :: xs => Ret (fold_left (fun m y => if ltb y m then y else m) xs x)
  end.

(** [x in zs]: an item equal to [x] *)
Definition member (x : float) (zs : list float) : bool := existsb (eqb x) zs.

(** [set(zs)], in the order of first occurrence: of equal numbers the
    first is the one kept *)
Definition set_ (zs : list float) : list float :=
  fold_left (fun seen z => if member z seen then seen else seen ++ [z]) zs [].

(** [sorted(zs)] *)
Fixpoint insert_sorted (x : float) (l : list float) : list float :=
  match l with
  | [] => [x]
  | y :: ys => if ltb x y then x :: y :: ys else y :: insert_sorted x ys
  end.

Definition sorted (zs : list float) : list float :=
  fold_right insert_sorted [] zs.

(** The number a finite float stands for. *)
Definition value (x : float) : option Q :=
  match FloatOps.Prim2SF x with
  | SpecFloat.S754_zero _ => Some 0
  | SpecFloat.S754_finite s m e =>
      Some ((if s then -1 else 1) * (inject_Z (Z.pos m) * 2 ^ e))
  | _ => None
  end.

(** [round(x, ndigits) == 1].  Python rounds the number [x] stands for to
    [ndigits] decimals, a tie going to the even one, and returns the
    float nearest to that decimal; for a few digits the only such
    decimal whose nearest float is [1.0] is [1] itself.  An infinite [x]
    and a NaN are returned as they are, and differ from [1]. *)
Definition round_is_one (x : float) (ndigits : nat) : bool :=
  match value x with
  | Some q => Qeq_bool (Py.round q ndigits) 1
  | None => false
  end.

End PyFloat.

(** [CorralLearner._log_barrier_omd] and [CorralLearner.learn] on binary64
    numbers.  In the solve [ps] and [etas] are [self._ps] and
    [self._etas]. *)
Module CorralLearner64.
Import PrimFloat.
#[local] Set Warnings "-inexact-float".

(** [loss/probability * int(act==action)] with [loss = 1-reward] *)
Definition base_loss (reward probability : float) (action act : Action)
  : result float :=
  q <- PyFloat.div (1 - reward) probability ;;
  Ret (q * (if Z.eqb act action then 1 else 0))%float.

Definition zip3 (ps etas losses : list float) : list (float * float * float) :=
  zip (zip ps etas) losses.

(** [(1/p) + eta*(loss-l)] *)
Definition denom (l : float) (pel : float * float * float) : result float :=
  let '(p, eta, loss) := pel in
  a <- PyFloat.div 1 p ;; Ret (a + eta * (loss - l))%float.

Definition f (zs : list (float * float * float)) (l : float) : result float :=
  ts <- Py.mapM (fun pel => d <- denom l pel ;; PyFloat.div 1 d) zs ;;
  Ret (PyFloat.sum ts).

Definition df (zs : list (float * float * float)) (l : float) : result float :=
  ts <- Py.mapM (fun pel => d <- denom l pel ;;
                            d2 <- PyFloat.square d ;;
                            PyFloat.div (snd (fst pel)) d2) zs ;;
  Ret (PyFloat.sum ts).

(** [((-1/p)-(eta*loss))/-eta] *)
Definition denom_zero (pel : float * float * float) : result float :=
  let '(p, eta, loss) := pel in
  a <- PyFloat.div (-1) p ;; PyFloat.div (a - eta * loss) (- eta).

Definition precision : nat := 4.

(** The body of [while True], as in the rational model: the [df(x)] of
    the diagnostic test, the step, then the convergence test on the new
    [x].  The counter [i] is only printed and is left out. *)
Definition newton_step (zs : list (float * float * float)) (x : float)
  : result float :=
  _ <- df zs x ;;
  fx <- f zs x ;;
  dfx <- df zs x ;;
  step <- PyFloat.div (fx - 1) dfx ;;
  Ret (x - step)%float.

Definition converged (zs : list (float * float * float)) (x : float)
  : result bool :=
  fx <- f zs x ;; Ret (PyFloat.round_is_one fx precision).

Fixpoint newton_loop (fuel : nat) (zs : list (float * float * float))
  (x : float) : result float :=
  match fuel with
  | O => Diverge
  | S fuel' =>
      x' <- newton_step zs x ;;
      c <- converged zs x' ;;
      if c then Ret x' else newton_loop fuel' zs x'
  end.

Definition newtons_zero (fuel : nat) (zs : list (float * float * float))
  (l r : float) : result (option float) :=
  fl <- f zs (l + 0.0001) ;;
  fr <- f zs (r - 0.00001) ;;
  if leb 0 ((fl - 1) * (fr - 1)) then Ret None
  else x <- newton_loop fuel zs ((l + r) / 2) ;; Ret (Some x).

Fixpoint search_brackets (fuel : nat) (zs : list (float * float * float))
  (pairs : list (float * float)) : result (option float) :=
  match pairs with
  | [] => Ret None
  | (l_brack, r_brack) :: rest =>
      lmbda <- newtons_zero fuel zs l_brack r_brack ;;
      match lmbda with
      | Some x => Ret (Some x)
      | None => search_brackets fuel zs rest
      end
  end.

(** [sorted(filter(..., set(denom_zeros + [min_loss, max_loss])))]: the
    numbers that pass the filter are ordered and pairwise different, so
    the order in which the set yields them does not show in the sorted
    list. *)
Definition brackets_of (denom_zeros : list float) (min_loss max_loss : float)
  : list float :=
  PyFloat.sorted
    (List.filter (fun z => leb min_loss z && leb z max_loss)
       (PyFloat.set_ (denom_zeros ++ [min_loss; max_loss]))).

Definition boundary_root (zs : list (float * float * float))
  (denom_zeros : list float) (l : float) : result bool :=
  if negb (PyFloat.member l denom_zeros)
  then fl <- f zs l ;; Ret (PyFloat.round_is_one fl precision)
  else Ret false.

Definition find_lmbda (fuel : nat) (ps etas losses : list float)
  : result (option float) :=
  let zs := zip3 ps etas losses in
  denom_zeros <- Py.mapM denom_zero zs ;;
  min_loss <- PyFloat.min_list losses ;;
  max_loss <- PyFloat.max_list losses ;;
  if eqb min_loss max_loss then Ret (Some min_loss)
  else
    at_min <- boundary_root zs denom_zeros min_loss ;;
    if at_min then Ret (Some min_loss)
    else
      at_max <- boundary_root zs denom_zeros max_loss ;;
      if at_max then Ret (Some max_loss)
      else
        let brackets := brackets_of denom_zeros min_loss max_loss in
        search_brackets fuel zs
          (zip (removelast brackets) (tl brackets)).

(** [max(1/((1/p) + eta*(loss-lmbda)),.00001)] *)
Definition new_weight (lmbda : option float) (pel : float * float * float)
  : result float :=
  let '(p, eta, loss) := pel in
  a <- PyFloat.div 1 p ;;
  match lmbda with
  | None => Raise TypeError
  | Some lam =>
      w <- PyFloat.div 1 (a + eta * (loss - lam)) ;;
      Ret (PyFloat.max w 0.00001)
  end.

Definition log_barrier_omd (fuel : nat) (ps etas losses : list float)
  : result (list float) :=
  lmbda <- find_lmbda fuel ps etas losses ;;
  Py.mapM (new_weight lmbda) (zip3 ps etas losses).

(** *** The weights from call to call

    The numeric fields of a [CorralLearner] with [M] base learners.  The
    per-key dictionaries and the base learners are those of the rational
    model; here [learn] is given the list [base_actions] that it pops
    for its key, and the base learners are [RandomLearner]s, whose
    [learn] does nothing. *)
Record state : Type := {
  M : nat;
  gamma : float;
  beta : float;
  etas : list float;
  rhos : list float;
  ps : list float;
  p_bars : list float
}.

(** [float(n)] of a non-negative integer below [2^53] *)
Fixpoint of_nat (n : nat) : float :=
  match n with
  | O => 0
  | S n' => (of_nat n' + 1)%float
  end.

(** [CorralLearner(base_learners, eta)] with the default horizon
    [T = math.inf]: [1/T] is [0.0], [math.log(T)] is [inf], [1/inf] is
    [0.0] and [math.exp(0.0)] is [1.0]. *)
Definition init (M : nat) (eta : float) : result state :=
  beta <- PyFloat.div 1 1 ;;
  p <- PyFloat.div 1 (of_nat M) ;;
  p_bar <- PyFloat.div 1 (of_nat M) ;;
  Ret {| M := M;
         gamma := 0;
         beta := beta;
         etas := repeat eta M;
         rhos := repeat (of_nat (2 * M)) M;
         ps := repeat p M;
         p_bars := repeat p_bar M |}.

Definition with_weights (s : state) (ps' p_bars' : list float) : state :=
  {| M := M s; gamma := gamma s; beta := beta s; etas := etas s;
     rhos := rhos s; ps := ps'; p_bars := p_bars' |}.

Definition with_rates (s : state) (rhos' etas' : list float) : state :=
  {| M := M s; gamma := gamma s; beta := beta s; etas := etas';
     rhos := rhos'; ps := ps s; p_bars := p_bars s |}.

(** [(1-self._gamma)*p + self._gamma*1/len(self._base_learners)] *)
Definition smooth (s : state) (p : float) : result float :=
  g <- PyFloat.div (gamma s * 1) (of_nat (M s)) ;;
  Ret ((1 - gamma s) * p + g)%float.

(** One round of the rate-control loop, for index [i]. *)
Definition rate_control_at (beta : float) (p_bars : list float) (i : nat)
  (rhos etas : list float) : list float * list float * result unit :=
  match p_bars !! i with
  | None => (rhos, etas, Raise IndexError)
  | Some p_bar =>
      match PyFloat.div 1 p_bar, rhos !! i with
      | Ret q, Some rho =>
          if ltb rho q then
            match PyFloat.div 2 p_bar with
            | Ret rho' =>
                let rhos' := <[i := rho']> rhos in
                match etas !! i with
                | Some eta => (rhos', <[i := (eta * beta)%float]> etas, Ret tt)
                | None => (rhos', etas, Raise IndexError)
                end
            | Raise e => (rhos, etas, Raise e)
            | Diverge => (rhos, etas, Diverge)
            end
          else (rhos, etas, Ret tt)
      | Ret _, None => (rhos, etas, Raise IndexError)
      | Raise e, _ => (rhos, etas, Raise e)
      | Diverge, _ => (rhos, etas, Diverge)
      end
  end.

Fixpoint rate_control (beta : float) (p_bars : list float)
  (indexes : list nat) (rhos etas : list float)
  : list float * list float * result unit :=
  match indexes with
  | [] => (rhos, etas, Ret tt)
  | i :: rest =>
      let '(rhos', etas', r) := rate_control_at beta p_bars i rhos etas in
      match r with
      | Ret _ => rate_control beta p_bars rest rhos' etas'
      | _ => (rhos', etas', r)
      end
  end.

Definition learn (fuel : nat) (s : state) (base_actions : list Action)
  (action : Action) (reward probability : float) : state * result unit :=
  match Py.mapM (base_loss reward probability action) base_actions with
  | Ret losses =>
      match log_barrier_omd fuel (ps s) (etas s) losses with
      | Ret ps' =>
          let s4 := with_weights s ps' (p_bars s) in
          match Py.mapM (smooth s4) (ps s4) with
          | Ret p_bars' =>
              let s5 := with_weights s4 (ps s4) p_bars' in
              let '(rhos', etas', r') :=
                rate_control (beta s5) (p_bars s5) (Py.range (M s5))
                  (rhos s5) (etas s5) in
              (with_rates s5 rhos' etas', r')
          | Raise e => (s4, Raise e)
          | Diverge => (s4, Diverge)
          end
      | Raise e => (s, Raise e)
      | Diverge => (s, Diverge)
      end
  | Raise e => (s, Raise e)
  | Diverge => (s, Diverge)
  end.

(** *** Vocabulary for the properties of the loop *)

(** The iterate after [n] passes through the body of the loop, none of
    which has passed the convergence test; [None] when one of them has,
    and the loop has returned. *)
Fixpoint iterate (n : nat) (zs : list (float * float * float)) (x : float)
  : result (option float) :=
  match n with
  | O => Ret (Some x)
  | S n' =>
      x' <- newton_step zs x ;;
      c <- converged zs x' ;;
      if c then Ret None else iterate n' zs x'
  end.

End CorralLearner64.

(** Concrete learners for the binary64 model. *)
Module Demo64.
Import PrimFloat CorralLearner64.
#[local] Set Warnings "-inexact-float".

(** The state [CorralLearner(base_learners, eta)] starts in, with [M]
    base learners. *)
Definition fresh (M : nat) (eta : float) : state :=
  {| CorralLearner64.M := M;
     gamma := 0;
     beta := 1;
     etas := repeat eta M;
     rhos := repeat (of_nat (2 * M)) M;
     ps := repeat (1 / of_nat M)%float M;
     p_bars := repeat (1 / of_nat M)%float M |}.

(** [CorralLearner([RandomLearner()]*3, eta=1)] after three [learn]
    calls with reward 0, for an action offered with probability 0.2 and
    drawn by the second base learner only, then for one offered with
    probability 0.1 and drawn by the third only, then for one offered
    with probability 0.1 and drawn by the first only. *)
Definition after_one_call : state :=
  fst (learn 100 (fresh 3 1) [1; 2; 1]%Z 2%Z 0 0.2).

Definition after_two_calls : state :=
  fst (learn 100 after_one_call [1; 1; 2]%Z 2%Z 0 0.1).

Definition after_three_calls : state :=
  fst (learn 100 after_two_calls [2; 1; 1]%Z 2%Z 0 0.1).

End Demo64.

(** ** Facts about the Python arithmetic *)

Module PyFacts.

Lemma Qlt_bool_iff (a b : Q) : Py.Qlt_bool a b = true <-> a < b.
Proof.
  unfold Py.Qlt_bool. rewrite negb_true_iff.
  split; intros Hab.
  - apply Qnot_le_lt. intros Hle. apply Qle_bool_iff in Hle. congruence.
  - destruct (Qle_bool b a) eqn:E; [|reflexivity].
    apply Qle_bool_iff in E. lra.
Qed.

Lemma Qlt_bool_false (a b : Q) : Py.Qlt_bool a b = false <-> b <= a.
Proof.
  unfold Py.Qlt_bool. rewrite negb_false_iff. apply Qle_bool_iff.
Qed.

Lemma Qeq_bool_false (a b : Q) : Qeq_bool a b = false <-> ~ a == b.
Proof.
  split.
  - intros E Hab. apply Qeq_bool_iff in Hab. congruence.
  - intros Hne. destruct (Qeq_bool a b) eqn:E; [|reflexivity].
    apply Qeq_bool_iff in E. contradiction.
Qed.

Lemma div_ret (a b : Q) : ~ b == 0 -> Py.div a b = Ret (a / b).
Proof.
  intros Hb. unfold Py.div. apply Qeq_bool_false in Hb. now rewrite Hb.
Qed.

Lemma div_zero (a b : Q) : b == 0 -> Py.div a b = Raise ZeroDivisionError.
Proof.
  intros Hb. unfold Py.div. apply Qeq_bool_iff in Hb. now rewrite Hb.
Qed.

Lemma div_inv (a b : Q) (r : result Q) :
  Py.div a b = r ->
  (b == 0 /\ r = Raise ZeroDivisionError) \/ (~ b == 0 /\ r = Ret (a / b)).
Proof.
  intros <-. unfold Py.div. destruct (Qeq_bool b 0) eqn:E.
  - left. split; [now apply Qeq_bool_iff|reflexivity].
  - right. split; [now apply Qeq_bool_false|reflexivity].
Qed.

Lemma max_ge_r (a b : Q) : b <= Py.max a b.
Proof.
  unfold Py.max. destruct (Py.Qlt_bool a b) eqn:E.
  - lra.
  - now apply Qlt_bool_false in E.
Qed.

Lemma max_l (a b : Q) : b <= a -> Py.max a b = a.
Proof.
  intros Hba. unfold Py.max. apply Qlt_bool_false in Hba. now rewrite Hba.
Qed.

Lemma of_nat_pos (n : nat) : n <> 0%nat -> 0 < Py.of_nat n.
Proof.
  intros Hn. unfold Py.of_nat.
  change 0 with (inject_Z 0). rewrite <- Zlt_Qlt. lia.
Qed.

Lemma of_nat_S (n : nat) : Py.of_nat (S n) == Py.of_nat n + 1.
Proof.
  unfold Py.of_nat. rewrite Nat2Z.inj_succ. unfold Z.succ.
  rewrite inject_Z_plus. reflexivity.
Qed.

Lemma sum_from (l : list Q) (a : Q) : fold_left Qplus l a == a + Py.sum l.
Proof.
  unfold Py.sum. revert a. induction l as [|x l IH]; intros a; simpl.
  - lra.
  - rewrite (IH (a + x)), (IH (0 + x)). lra.
Qed.

Lemma sum_cons (x : Q) (l : list Q) : Py.sum (x :: l) == x + Py.sum l.
Proof.
  unfold Py.sum at 1. simpl. rewrite sum_from. lra.
Qed.

Lemma sum_nil : Py.sum [] == 0.
Proof. reflexivity. Qed.


Lemma sum_neg (l : list Q) : l <> [] -> Forall (fun x => x < 0) l -> Py.sum l < 0.
Proof.
  intros Hl Hall. induction Hall as [|x l Hx Hall IH]; [contradiction|].
  rewrite sum_cons. destruct l as [|y l].
  - rewrite sum_nil. lra.
  - assert (Py.sum (y :: l) < 0) by (apply IH; discriminate). lra.
Qed.

Lemma sum_pos (l : list Q) : l <> [] -> Forall (fun x => 0 < x) l -> 0 < Py.sum l.
Proof.
  intros Hl Hall. induction Hall as [|x l Hx Hall IH]; [contradiction|].
  rewrite sum_cons. destruct l as [|y l].
  - rewrite sum_nil. lra.
  - assert (0 < Py.sum (y :: l)) by (apply IH; discriminate). lra.
Qed.

Lemma sum_Forall2 (l l' : list Q) : Forall2 Qeq l l' -> Py.sum l == Py.sum l'.
Proof.
  induction 1 as [|x y l l' Hxy _ IH]; [reflexivity|].
  rewrite !sum_cons, Hxy, IH. reflexivity.
Qed.

(** A negative number does not round to 1. *)
Lemma round_neg (x : Q) (ndigits : nat) :
  x < 0 -> Qeq_bool (Py.round x ndigits) 1 = false.
Proof.
  intros Hx. apply Qeq_bool_false. unfold Py.round.
  set (scale := inject_Z (10 ^ Z.of_nat ndigits)).
  assert (Hs : 0 < scale).
  { subst scale. change 0 with (inject_Z 0). rewrite <- Zlt_Qlt.
    apply Z.pow_pos_nonneg; lia. }
  set (y := x * scale).
  assert (Hy : y < 0) by (subst y; nra).
  assert (Hlo : (Qfloor y + 1 <= 0)%Z).
  { assert (Hf := Qfloor_le y).
    assert (Hlt : (Qfloor y < 0)%Z).
    { rewrite Zlt_Qlt. change (inject_Z 0) with 0. lra. }
    lia. }
  set (n := if Py.Qlt_bool _ _ then _ else _).
  assert (Hn : (n <= 0)%Z).
  { subst n. repeat match goal with |- context [if ?b then _ else _] => destruct b end; lia. }
  intros Heq.
  assert (Hq : inject_Z n <= 0).
  { change 0 with (inject_Z 0). now rewrite <- Zle_Qle. }
  assert (Hdiv : inject_Z n / scale <= 0).
  { apply Qle_shift_div_r; [exact Hs|]. lra. }
  lra.
Qed.

Lemma mapM_ret {A B} (f : A -> result B) (l : list A) (l' : list B) :
  Py.mapM f l = Ret l' <-> Forall2 (fun x y => f x = Ret y) l l'.
Proof.
  revert l'. induction l as [|x l IH]; intros l'; simpl.
  - split.
    + intros [= <-]. constructor.
    + intros Hl. inversion Hl. reflexivity.
  - split.
    + destruct (f x) as [y| |] eqn:Ex; simpl; try discriminate.
      destruct (Py.mapM f l) as [ys| |] eqn:El; simpl; try discriminate.
      intros [= <-]. constructor; [exact Ex|]. now apply IH.
    + intros Hl. inversion Hl as [|? y ? ys Hy Hys]; subst.
      rewrite Hy. simpl. apply IH in Hys. rewrite Hys. reflexivity.
Qed.

Lemma mapM_length {A B} (f : A -> result B) (l : list A) (l' : list B) :
  Py.mapM f l = Ret l' -> length l' = length l.
Proof.
  intros Hl. apply mapM_ret in Hl. symmetry. eapply Forall2_length, Hl.
Qed.

Lemma mapM_total {A B} (f : A -> result B) (g : A -> B) (l : list A) :
  Forall (fun x => f x = Ret (g x)) l -> Py.mapM f l = Ret (map g l).
Proof.
  intros Hall. apply mapM_ret. induction Hall; simpl; constructor; auto.
Qed.

Lemma bind_ret {A B} (m : result A) (k : A -> result B) (b : B) :
  Py.bind m k = Ret b -> exists a, m = Ret a /\ k a = Ret b.
Proof.
  destruct m as [a| |]; simpl; try discriminate. eauto.
Qed.

Lemma mapM_returns {A B} (f : A -> result B) (l : list A) :
  Forall (fun x => Py.returns (f x)) l -> Py.returns (Py.mapM f l).
Proof.
  induction 1 as [|x l [y Hy] _ [ys Hys]]; simpl.
  - now exists [].
  - rewrite Hy, Hys. simpl. now eexists.
Qed.

End PyFacts.

(** ** Greedy selection and the simple learners *)

Module GreedyFacts.
Import PyFacts.

Lemma fold_max_In (xs : list Q) (x : Q) : In (fold_left Py.max xs x) (x :: xs).
Proof.
  revert x. induction xs as [|y xs IH]; intros x; simpl.
  - now left.
  - destruct (IH (Py.max x y)) as [E|E].
    + rewrite <- E. unfold Py.max. destruct (Py.Qlt_bool x y); auto.
    + auto.
Qed.

Lemma not_None_In (values : list (option Q)) (q : Q) :
  In q (Greedy.not_None values) -> In (Some q) values.
Proof.
  unfold Greedy.not_None. induction values as [|v values IH]; simpl; [tauto|].
  destruct v as [x|]; simpl.
  - intros [->|Hin]; auto.
  - auto.
Qed.

Lemma only_None_false (values : list (option Q)) :
  values <> [] -> Greedy.only_None values = false ->
  Greedy.not_None values <> [].
Proof.
  intros Hne Hf. unfold Greedy.only_None in Hf.
  destruct values as [|v values]; [contradiction|].
  remember (v :: values) as l eqn:El. clear El Hne v values.
  induction l as [|v l IH]; simpl in Hf; [discriminate|].
  unfold Greedy.not_None. simpl. destruct v as [x|]; simpl.
  - discriminate.
  - simpl in Hf. apply IH, Hf.
Qed.

Lemma value_eq_refl (v : option Q) : Greedy.value_eq v v = true.
Proof. destruct v; simpl; [apply Qeq_bool_refl|reflexivity]. Qed.

Lemma mem_filter (P : nat -> bool) (l : list nat) (i : nat) :
  Greedy.mem i (List.filter P l) = Greedy.mem i l && P i.
Proof.
  unfold Greedy.mem. induction l as [|x l IH]; simpl; [reflexivity|].
  destruct (P x) eqn:Px; simpl; rewrite IH.
  - destruct (Nat.eqb i x) eqn:E; simpl; [|reflexivity].
    apply Nat.eqb_eq in E. subst. now rewrite Px.
  - destruct (Nat.eqb i x) eqn:E; simpl; [|reflexivity].
    apply Nat.eqb_eq in E. subst. rewrite Px. now rewrite ?andb_false_r.
Qed.

Lemma mem_In (i : nat) (l : list nat) : In i l -> Greedy.mem i l = true.
Proof.
  intros Hin. unfold Greedy.mem. apply existsb_exists. exists i.
  split; [exact Hin|apply Nat.eqb_refl].
Qed.

(** Counting the selected indexes: [sum(int(i in max_indexes) for i in l)]
    is the number of selected indexes. *)
Lemma sum_indicator (P : nat -> bool) (l : list nat) :
  Py.sum (map (fun i => Py.int (Greedy.mem i (List.filter P l))) l)
  == Py.of_nat (length (List.filter P l)).
Proof.
  assert (Hext : forall l0,
    (forall i, In i l0 -> In i l) ->
    Py.sum (map (fun i => Py.int (Greedy.mem i (List.filter P l))) l0)
    == Py.of_nat (length (List.filter P l0))).
  { induction l0 as [|x l0 IH]; intros Hsub.
    - reflexivity.
    - cbn [map List.filter]. rewrite sum_cons, IH by (intros; apply Hsub; now right).
      rewrite mem_filter, (mem_In x l) by (apply Hsub; now left).
      simpl. destruct (P x); simpl.
      + rewrite of_nat_S. lra.
      + lra. }
  apply Hext. auto.
Qed.

(** On a non-empty list of values the greedy selection returns at least
    one index. *)
Lemma max_indexes_nonempty (values : list (option Q)) :
  values <> [] ->
  exists mv, Greedy.max_value values = Ret mv /\
             Greedy.max_indexes values mv <> [].
Proof.
  intros Hne. unfold Greedy.max_value.
  assert (Hwit : forall mv, In mv values -> Greedy.max_indexes values mv <> []).
  { intros mv Hin Hnil. apply In_nth_error in Hin as [i Hi].
    assert (Hlt : (i < length values)%nat).
    { apply nth_error_Some. congruence. }
    assert (Hmem : In i (Greedy.max_indexes values mv)).
    { unfold Greedy.max_indexes. apply filter_In. split.
      - unfold Py.range. apply in_seq. lia.
      - assert (Hl : values !! i = Some mv).
        { rewrite <- Hi. clear. revert i. induction values; intros [|i]; simpl; auto. }
        rewrite Hl. apply value_eq_refl. }
    rewrite Hnil in Hmem. destruct Hmem. }
  destruct (Greedy.only_None values) eqn:E.
  - exists None. split; [reflexivity|]. apply Hwit.
    unfold Greedy.only_None in E. destruct values as [|v values]; [discriminate|].
    simpl in E. apply andb_true_iff in E as [E _].
    destruct v; [discriminate|]. now left.
  - pose proof (only_None_false values Hne E) as Hnn.
    destruct (Greedy.not_None values) as [|x xs] eqn:El; [contradiction|].
    simpl. exists (Some (fold_left Py.max xs x)). split; [reflexivity|].
    apply Hwit, not_None_In. rewrite El. apply fold_max_In.
Qed.

(** [[int(i in max_indexes)/len(max_indexes) * c for i in range(n)]] sums
    to [c]. *)
Lemma sum_greedy_share (values : list (option Q)) (mv : option Q) (c : Q) :
  Greedy.max_indexes values mv <> [] ->
  Py.sum (map (fun i =>
                 Py.int (Greedy.mem i (Greedy.max_indexes values mv))
                 / Py.of_nat (length (Greedy.max_indexes values mv)) * c)
            (Py.range (length values)))
  == c.
Proof.
  intros Hne.
  set (mi := Greedy.max_indexes values mv) in *.
  assert (Hpos : 0 < Py.of_nat (length mi)).
  { apply of_nat_pos. destruct mi; [contradiction|discriminate]. }
  assert (Hscale : forall l, Py.sum (map (fun i => Py.int (Greedy.mem i mi) / Py.of_nat (length mi) * c) l)
                    == Py.sum (map (fun i => Py.int (Greedy.mem i mi)) l) / Py.of_nat (length mi) * c).
  { induction l as [|x l IH]; cbn [map].
    - rewrite !sum_nil. field. lra.
    - rewrite !sum_cons, IH. field. lra. }
  rewrite Hscale. unfold mi at 1, Greedy.max_indexes.
  rewrite sum_indicator. fold (Greedy.max_indexes values mv). fold mi.
  field. lra.
Qed.

End GreedyFacts.

Module SimpleLearnerFacts.
Import PyFacts GreedyFacts.



Lemma zip_with_repeat (a : Q) (l : list Q) :
  zip_with Qplus (repeat a (length l)) l = map (Qplus a) l.
Proof. induction l as [|x l IH]; simpl; [reflexivity|]. now rewrite IH. Qed.


Lemma range_length (n : nat) : length (Py.range n) = n.
Proof. apply length_seq. Qed.

Lemma int_nonneg (b : bool) : 0 <= Py.int b.
Proof. destruct b; simpl; lra. Qed.


End SimpleLearnerFacts.

Module UcbFacts.
Import PyFacts GreedyFacts SimpleLearnerFacts.

Section Ucb.
Context `{Externals}.
Import UcbTunedLearner.

Lemma sum_one_hot_from (k a n : nat) :
  Py.sum (map (fun i => Py.int (Nat.eqb i k)) (seq a n))
  == Py.int ((a <=? k)%nat && (k <? a + n)%nat).
Proof.
  revert a. induction n as [|n IH]; intros a.
  - cbn [seq map]. rewrite sum_nil.
    destruct (a <=? k)%nat eqn:E1, (k <? a + 0)%nat eqn:E2; simpl; try lra.
    apply Nat.leb_le in E1. apply Nat.ltb_lt in E2. lia.
  - cbn [seq map]. rewrite sum_cons, IH.
    destruct (Nat.eqb a k) eqn:E.
    + apply Nat.eqb_eq in E. subst.
      replace (S k <=? k)%nat with false by (symmetry; apply Nat.leb_gt; lia).
      replace (k <=? k)%nat with true by (symmetry; apply Nat.leb_le; lia).
      replace (k <? k + S n)%nat with true by (symmetry; apply Nat.ltb_lt; lia).
      simpl. lra.
    + apply Nat.eqb_neq in E.
      destruct (S a <=? k)%nat eqn:E1, (k <? S a + n)%nat eqn:E2;
        destruct (a <=? k)%nat eqn:E3, (k <? a + S n)%nat eqn:E4; simpl; try lra;
        repeat match goal with
          | Hx : (_ <=? _)%nat = true |- _ => apply Nat.leb_le in Hx
          | Hx : (_ <=? _)%nat = false |- _ => apply Nat.leb_gt in Hx
          | Hx : (_ <? _)%nat = true |- _ => apply Nat.ltb_lt in Hx
          | Hx : (_ <? _)%nat = false |- _ => apply Nat.ltb_ge in Hx
          end; lia.
Qed.

(** [one_hot k n] is a distribution that puts everything on index [k]. *)
Lemma one_hot_spec (k n : nat) :
  (k < n)%nat ->
  length (one_hot k n) = n /\
  Forall (fun x => 0 <= x) (one_hot k n) /\
  Py.sum (one_hot k n) == 1 /\
  (forall i, (i < n)%nat ->
             one_hot k n !! i = Some (if Nat.eqb i k then 1 else 0)).
Proof.
  intros Hk. unfold one_hot, Py.range. repeat split.
  - now rewrite length_map, length_seq.
  - apply List.Forall_forall. intros x Hx.
    apply in_map_iff in Hx as (i & <- & _). apply int_nonneg.
  - rewrite sum_one_hot_from.
    replace (0 <=? k)%nat with true by (symmetry; apply Nat.leb_le; lia).
    replace (k <? 0 + n)%nat with true by (symmetry; apply Nat.ltb_lt; lia).
    reflexivity.
  - intros i Hi. rewrite list_lookup_fmap, lookup_seq_lt by exact Hi.
    reflexivity.
Qed.

Lemma predict_warm_up (s : state) (key : Key) (context : Context)
  (actions : list Action) :
  (init_a s < length actions)%nat ->
  predict s key context actions
  = ({| init_a := init_a s + 1; t := t s; s_ := s_ s; m := m s; v := v s |},
     Ret (one_hot (init_a s) (length actions))).
Proof.
  intros Hlt. unfold predict.
  apply Nat.ltb_lt in Hlt. rewrite Hlt. cbn [init_a].
  now rewrite Nat.add_sub.
Qed.

(** [predict] answers with a distribution: in the warm-up by
    construction, afterwards as soon as the confidence bounds of the
    actions already tried can be computed. *)
Lemma ucb_predict (s : state) (key : Key) (context : Context)
  (actions : list Action) :
  actions <> [] ->
  Forall (fun a => m s !! a = None \/ Py.returns (Avg_R_UCB s a)) actions ->
  exists out, snd (predict s key context actions) = Ret out /\
              length out = length actions /\
              Forall (fun x => 0 <= x) out /\
              Py.sum out == 1.
Proof.
  intros Hne Hscore.
  destruct (Nat.ltb (init_a s) (length actions)) eqn:Hw.
  - apply Nat.ltb_lt in Hw. rewrite predict_warm_up by exact Hw. cbn [snd].
    destruct (one_hot_spec (init_a s) (length actions) Hw) as (H1 & H2 & H3 & _).
    eauto.
  - unfold predict. rewrite Hw. cbn [snd].
    match goal with |- context [Py.mapM ?f actions] => set (score := f) end.
    destruct (mapM_returns score actions) as [values Hvalues].
    { eapply Forall_impl; [exact Hscore|]. intros a [Hnone|[u Hu]]; subst score; cbn beta.
      - rewrite Hnone. now eexists.
      - destruct (m s !! a); [rewrite Hu; simpl|]; now eexists. }
    rewrite Hvalues. cbn [Py.bind].
    assert (Hlen : length values = length actions) by (eapply mapM_length, Hvalues).
    assert (Hvne : values <> []).
    { intros E. rewrite E in Hlen. destruct actions; [contradiction|discriminate]. }
    destruct (max_indexes_nonempty values Hvne) as (mv & Hmv & Hmi).
    rewrite Hmv. cbn [Py.bind].
    set (mi := Greedy.max_indexes values mv) in *.
    assert (Hm : 0 < Py.of_nat (length mi)).
    { apply of_nat_pos. destruct mi; [contradiction|discriminate]. }
    set (g := fun i : nat => Py.int (Greedy.mem i mi) / Py.of_nat (length mi)).
    rewrite (mapM_total _ g).
    2:{ apply List.Forall_forall. intros i _. now rewrite div_ret by lra. }
    eexists. split; [reflexivity|]. split; [now rewrite length_map, range_length|].
    split.
    + apply List.Forall_forall. intros x Hx. apply in_map_iff in Hx as (i & <- & _).
      subst g. cbn beta. apply Qle_shift_div_l; [lra|].
      pose proof (int_nonneg (Greedy.mem i mi)). lra.
    + pose proof (sum_greedy_share values mv 1 Hmi) as Hsum. fold mi in Hsum.
      rewrite Hlen in Hsum. rewrite <- Hsum. apply sum_Forall2.
      apply Forall2_fmap, Forall_Forall2_diag, List.Forall_forall.
      intros i _. subst g. cbn beta. field. lra.
Qed.

Lemma init_a_learn (s : state) (key : Key) (context : Context)
  (action : Action) (reward probability : Q) :
  init_a (fst (learn s key context action reward probability)) = init_a s.
Proof.
  unfold learn. destruct (m s !! action) as [m_a|]; [|reflexivity].
  destruct (Py.div 1 (Py.of_nat (s_get s action))); reflexivity.
Qed.

(** During the warm-up [init_a] counts the calls of [predict]. *)
Lemma init_a_run (n : nat) (calls : list call) (s : state) :
  forallb (predicts_on n) calls = true ->
  (init_a s + length (List.filter is_predict calls) <= n)%nat ->
  init_a (run s calls) = (init_a s + length (List.filter is_predict calls))%nat.
Proof.
  revert s. induction calls as [|c calls IH]; intros s Hall Hle.
  - simpl. lia.
  - cbn [forallb] in Hall. apply andb_true_iff in Hall as [Hc Hall].
    unfold run. cbn [fold_left]. fold (run (run_call s c) calls).
    destruct c as [key context actions|key context action reward probability].
    + cbn [List.filter is_predict length] in Hle |- *.
      cbn [predicts_on] in Hc. apply Nat.eqb_eq in Hc.
      cbn [run_call]. rewrite predict_warm_up by lia. cbn [fst].
      rewrite IH; cbn [init_a]; [lia|exact Hall|lia].
    + cbn [List.filter is_predict] in Hle |- *. cbn [run_call].
      rewrite IH; rewrite ?init_a_learn; [reflexivity|exact Hall|lia].
Qed.

End Ucb.
End UcbFacts.

(** ** CorralLearner: bookkeeping *)

Module CorralFacts.
Import PyFacts GreedyFacts SimpleLearnerFacts.

Section Corral.
Context `{Externals}.
Import CorralLearner.

(** *** What [predict] and [learn] leave alone *)

Lemma predicts_of_length (bs : list learner) (key : Key) (context : Context)
  (actions : list Action) :
  length (fst (predicts_of bs key context actions)) = length bs.
Proof.
  induction bs as [|b bs IH]; [reflexivity|]. cbn [predicts_of].
  destruct (learner_predict b key context actions) as [b' [predict| |]];
    try reflexivity.
  destruct (predicts_of bs key context actions) as [bs'' rs].
  cbn [fst length] in *. now rewrite IH.
Qed.

Lemma predicts_of_ret (bs : list learner) (key : Key) (context : Context)
  (actions : list Action) (bs' : list learner) (predicts : list (list Q)) :
  predicts_of bs key context actions = (bs', Ret predicts) ->
  length predicts = length bs.
Proof.
  revert bs' predicts. induction bs as [|b bs IH]; intros bs' predicts.
  - cbn. now intros [= <- <-].
  - cbn [predicts_of].
    destruct (learner_predict b key context actions) as [b' [predict| |]];
      try discriminate.
    destruct (predicts_of bs key context actions) as [bs'' [rs| |]];
      cbn; try discriminate.
    intros [= <- <-]. cbn [length]. f_equal. eapply IH. reflexivity.
Qed.

Lemma learn_base_length (bs : list learner) (key : Key) (context : Context)
  (acts : list Action) (losses predicts : list Q) :
  length (fst (learn_base bs key context acts losses predicts)) = length bs.
Proof.
  revert acts losses predicts.
  induction bs as [|b bs IH]; intros acts losses predicts; [reflexivity|].
  cbn [learn_base].
  destruct acts as [|a acts], losses as [|L losses], predicts as [|P predicts];
    try reflexivity.
  destruct (learner_learn b key context a (1 - L) P) as [b' [[]| |]];
    try reflexivity.
  specialize (IH acts losses predicts).
  destruct (learn_base bs key context acts losses predicts) as [bs'' r'].
  cbn [fst length] in *. now rewrite IH.
Qed.

Lemma predict_unchanged (s : state) (key : Key) (context : Context)
  (actions : list Action) :
  same_parameters s (fst (predict s key context actions)) /\
  same_weights s (fst (predict s key context actions)).
Proof.
  unfold predict, same_parameters, same_weights.
  pose proof (predicts_of_length (base_learners s) key context actions) as Hlen.
  destruct (predicts_of (base_learners s) key context actions) as [bs [predicts| |]];
    cbn [fst] in Hlen; cbn; auto 10.
  destruct (choices (random s) actions predicts) as [rnd acts].
  destruct (Py.mapM _ (zip acts predicts)); cbn; auto 10.
Qed.

Lemma smooth_total (s : state) (l : list Q) :
  length (base_learners s) <> 0%nat ->
  Py.mapM (smooth s) l = Ret (map (smoothed s) l).
Proof.
  intros HM. apply mapM_total, List.Forall_forall. intros p _.
  unfold smooth. pose proof (of_nat_pos _ HM).
  now rewrite div_ret by lra.
Qed.

(** The effect of [learn] on the mixture weights and the rates: either
    nothing is assigned (an exception came first), or the weights are
    the result of the log-barrier solve, the smoothed weights follow
    from them, and the rates are what the rate-control loop leaves. *)
Lemma learn_weights (fuel : nat) (s : state) (key : Key) (context : Context)
  (action : Action) (reward probability : Q) (s' : state) (r : result unit) :
  length (base_learners s) <> 0%nat ->
  learn fuel s key context action reward probability = (s', r) ->
  same_parameters s s' /\
  ((same_weights s s' /\ r <> Ret tt) \/
   exists s3 losses,
     ps s3 = ps s /\ etas s3 = etas s /\
     log_barrier_omd fuel s3 losses = Ret (ps s') /\
     p_bars s' = map (smoothed s) (ps s') /\
     rate_control (beta s) (p_bars s')
       (Py.range (length (base_learners s))) (rhos s) (etas s)
     = (rhos s', etas s', r)).
Proof.
  intros HM. unfold learn, same_parameters, same_weights.
  destruct (base_actions s !! key) as [acts|];
    [|intros [= <- <-]; split; [auto|left; easy]].
  cbn [base_predicts with_maps].
  destruct (base_predicts s !! key) as [preds|];
    [|intros [= <- <-]; cbn; split; [auto|left; easy]].
  destruct (Py.mapM _ acts) as [losses| |];
    try (intros [= <- <-]; cbn; split; [auto|left; easy]).
  cbn [base_learners with_maps].
  pose proof (learn_base_length (base_learners s) key context acts losses preds) as Hlen.
  destruct (learn_base (base_learners s) key context acts losses preds) as [bs r0].
  cbn [fst] in Hlen.
  destruct r0 as [[]| |];
    try (intros [= <- <-]; cbn; split; [auto|left; easy]).
  match goal with |- context [log_barrier_omd fuel ?x losses] => set (s3 := x) end.
  destruct (log_barrier_omd fuel s3 losses) as [ps'| |] eqn:Hsolve;
    try (intros [= <- <-]; cbn; split; [auto|left; easy]).
  cbn [ps with_weights].
  rewrite smooth_total by (cbn; congruence).
  match goal with |- context [rate_control ?b ?p ?i ?r ?e] =>
    destruct (rate_control b p i r e) as [[rhos' etas'] r'] eqn:Hrate end.
  intros [= <- <-]. cbn. split; [auto|]. right. exists s3, losses.
  cbn in Hrate. rewrite Hlen in Hrate.
  repeat split; try reflexivity.
  - exact Hsolve.
  - unfold smoothed. cbn. now rewrite Hlen.
  - rewrite <- Hrate. unfold smoothed. cbn. now rewrite Hlen.
Qed.

(** *** The per-key maps *)

Lemma learn_unknown_key (fuel : nat) (s : state) (key : Key)
  (context : Context) (action : Action) (reward probability : Q) :
  base_actions s !! key = None ->
  learn fuel s key context action reward probability = (s, Raise KeyError).
Proof. intros Hk. unfold learn. now rewrite Hk. Qed.

Lemma learn_consumes (fuel : nat) (s : state) (key : Key)
  (context : Context) (action : Action) (reward probability : Q)
  (acts : list Action) (preds : list Q) :
  base_actions s !! key = Some acts ->
  base_predicts s !! key = Some preds ->
  let s' := fst (learn fuel s key context action reward probability) in
  base_actions s' = delete key (base_actions s) /\
  base_predicts s' = delete key (base_predicts s).
Proof.
  intros Ha Hp. unfold learn. rewrite Ha. cbn [base_predicts with_maps].
  rewrite Hp.
  destruct (Py.mapM _ acts) as [losses| |]; try (cbn; auto).
  destruct (learn_base _ _ _ _ _ _) as [bs [[]| |]]; try (cbn; auto).
  destruct (log_barrier_omd _ _ _) as [ps'| |]; try (cbn; auto).
  destruct (Py.mapM _ _) as [p_bars'| |]; try (cbn; auto).
  destruct (rate_control _ _ _ _ _) as [[rhos' etas'] r']. cbn. auto.
Qed.

Lemma learn_forgets_key (fuel : nat) (s : state) (key : Key)
  (context : Context) (action : Action) (reward probability : Q) :
  base_actions (fst (learn fuel s key context action reward probability))
    !! key = None.
Proof.
  destruct (base_actions s !! key) as [acts|] eqn:Ha.
  - unfold learn. rewrite Ha. cbn [base_predicts with_maps].
    destruct (base_predicts s !! key) as [preds|] eqn:Hp.
    + destruct (learn_consumes fuel s key context action reward probability
                  acts preds Ha Hp) as [E _].
      unfold learn in E. rewrite Ha in E. cbn [base_predicts with_maps] in E.
      rewrite Hp in E. rewrite E. apply lookup_delete_eq.
    + cbn. apply lookup_delete_eq.
  - rewrite learn_unknown_key by exact Ha. exact Ha.
Qed.

Lemma predict_stores (s s1 : state) (key : Key) (context : Context)
  (actions : list Action) (out : list Q) :
  predict s key context actions = (s1, Ret out) ->
  exists acts preds,
    base_actions s1 = <[key := acts]> (base_actions s) /\
    base_predicts s1 = <[key := preds]> (base_predicts s).
Proof.
  unfold predict.
  destruct (predicts_of _ _ _ _) as [bs [predicts| |]]; try discriminate.
  destruct (choices _ _ _) as [rnd acts].
  destruct (Py.mapM _ _) as [preds| |]; try discriminate.
  intros [= <- _]. cbn. eauto.
Qed.

(** *** The rate-control loop *)

Lemma Forall2_Qle_refl (l : list Q) : Forall2 Qle l l.
Proof. induction l; constructor; [apply Qle_refl|assumption]. Qed.

Lemma Forall2_Qle_trans (l1 l2 l3 : list Q) :
  Forall2 Qle l1 l2 -> Forall2 Qle l2 l3 -> Forall2 Qle l1 l3.
Proof.
  intros H12. revert l3. induction H12 as [|x y l1 l2 Hxy _ IH]; intros l3 H23.
  - inversion H23. constructor.
  - inversion H23 as [|? z ? l3' Hyz Hrest]; subst. constructor.
    + eapply Qle_trans; eassumption.
    + now apply IH.
Qed.

Lemma Forall2_Qle_insert_r (l : list Q) (i : nat) (x y : Q) :
  l !! i = Some y -> y <= x -> Forall2 Qle l (<[i := x]> l).
Proof.
  revert i. induction l as [|z l IH]; intros [|i]; cbn; try discriminate.
  - intros [= ->] Hyx. constructor; [exact Hyx|apply Forall2_Qle_refl].
  - intros Hi Hyx. constructor; [apply Qle_refl|now apply IH].
Qed.

Lemma Forall2_Qle_insert_l (l : list Q) (i : nat) (x y : Q) :
  l !! i = Some y -> x <= y -> Forall2 Qle (<[i := x]> l) l.
Proof.
  revert i. induction l as [|z l IH]; intros [|i]; cbn; try discriminate.
  - intros [= ->] Hyx. constructor; [exact Hyx|apply Forall2_Qle_refl].
  - intros Hi Hyx. constructor; [apply Qle_refl|now apply IH].
Qed.

(** One round of the loop either changes nothing or raises the bound of
    index [i] to [2/p_bar] and (unless the rate list is too short)
    multiplies its rate by [beta]. *)
Lemma rate_control_at_cases (b : Q) (p_bars : list Q) (i : nat)
  (rhos etas rhos' etas' : list Q) (r : result unit) :
  rate_control_at b p_bars i rhos etas = (rhos', etas', r) ->
  (rhos' = rhos /\ etas' = etas /\
   (r = Ret tt ->
    exists pb rho, p_bars !! i = Some pb /\ rhos !! i = Some rho /\
                   ~ pb == 0 /\ 1 / pb <= rho)) \/
  (exists pb rho, p_bars !! i = Some pb /\ rhos !! i = Some rho /\
                  ~ pb == 0 /\ rho < 1 / pb /\
                  rhos' = <[i := 2 / pb]> rhos /\
                  ((etas' = etas /\ r <> Ret tt) \/
                   exists eta, etas !! i = Some eta /\
                               etas' = <[i := eta * b]> etas /\ r = Ret tt)).
Proof.
  unfold rate_control_at.
  destruct (p_bars !! i) as [pb|] eqn:Hpb;
    [|intros [= <- <- <-]; left; repeat split; discriminate].
  destruct (div_inv 1 pb _ eq_refl) as [[Hz ->]|[Hnz ->]];
    [intros [= <- <- <-]; left; repeat split; discriminate|].
  destruct (rhos !! i) as [rho|] eqn:Hrho;
    [|intros [= <- <- <-]; left; repeat split; discriminate].
  destruct (Py.Qlt_bool rho (1 / pb)) eqn:Hlt.
  - apply Qlt_bool_iff in Hlt. rewrite div_ret by exact Hnz.
    destruct (etas !! i) as [eta|] eqn:Heta; intros [= <- <- <-]; right;
      exists pb, rho; (do 5 (split; [solve [auto]|])).
    + right. eauto.
    + left. split; [reflexivity|discriminate].
  - apply Qlt_bool_false in Hlt. intros [= <- <- <-]. left.
    repeat split. intros _. exists pb, rho. auto.
Qed.

Lemma two_over (pb rho : Q) : 0 < pb -> rho < 1 / pb -> rho < 2 / pb.
Proof.
  intros Hpb Hlt.
  assert (0 < 1 / pb) by (apply Qlt_shift_div_l; lra).
  assert (2 / pb == 1 / pb + 1 / pb) by (field; lra).
  lra.
Qed.

(** Whatever the loop does and however it ends, no bound goes down and,
    for non-negative rates and [0 <= beta <= 1], no rate goes up. *)
Lemma rate_control_monotone (b : Q) (p_bars : list Q) (indexes : list nat)
  (rhos etas rhos' etas' : list Q) (r : result unit) :
  0 <= b <= 1 ->
  Forall (fun p => 0 < p) p_bars ->
  Forall (fun e => 0 <= e) etas ->
  rate_control b p_bars indexes rhos etas = (rhos', etas', r) ->
  Forall2 Qle rhos rhos' /\ Forall2 Qle etas' etas /\
  Forall (fun e => 0 <= e) etas'.
Proof.
  intros Hb Hp. revert rhos etas.
  induction indexes as [|i indexes IH]; intros rhos etas He; cbn [rate_control].
  - intros [= <- <- <-]. auto using Forall2_Qle_refl.
  - destruct (rate_control_at b p_bars i rhos etas) as [[rhos1 etas1] r1] eqn:Hat.
    assert (Hone : Forall2 Qle rhos rhos1 /\ Forall2 Qle etas1 etas /\
                   Forall (fun e => 0 <= e) etas1).
    { apply rate_control_at_cases in Hat
        as [(-> & -> & _)|(pb & rho & Hpb & Hrho & Hnz & Hlt & -> & Heta)].
      - auto using Forall2_Qle_refl.
      - assert (0 < pb).
        { eapply Forall_lookup_1; [exact Hp|exact Hpb]. }
        split.
        { eapply Forall2_Qle_insert_r; [exact Hrho|].
          apply Qlt_le_weak, two_over; assumption. }
        destruct Heta as [[-> _]|(eta & Heta & -> & _)];
          [auto using Forall2_Qle_refl|].
        assert (0 <= eta).
        { eapply Forall_lookup_1; [exact He|exact Heta]. }
        split.
        + eapply Forall2_Qle_insert_l; [exact Heta|]. nra.
        + apply Forall_insert; [exact He|]. nra. }
    destruct Hone as (H1 & H2 & H3).
    destruct r1 as [[]| |].
    + intros Hrest. apply IH in Hrest as (H4 & H5 & H6); [|exact H3].
      eauto using Forall2_Qle_trans.
    + intros [= <- <- <-]. auto.
    + intros [= <- <- <-]. auto.
Qed.

(** The rates keep any property that multiplying by [beta] keeps. *)
Lemma rate_control_etas (P : Q -> Prop) (b : Q) (p_bars : list Q)
  (indexes : list nat) (rhos etas rhos' etas' : list Q) (r : result unit) :
  (forall e, P e -> P (e * b)) ->
  Forall P etas ->
  rate_control b p_bars indexes rhos etas = (rhos', etas', r) ->
  Forall P etas'.
Proof.
  intros HP. revert rhos etas.
  induction indexes as [|i indexes IH]; intros rhos etas He; cbn [rate_control].
  - now intros [= <- <- <-].
  - destruct (rate_control_at b p_bars i rhos etas) as [[rhos1 etas1] r1] eqn:Hat.
    assert (Hone : Forall P etas1).
    { apply rate_control_at_cases in Hat
        as [(-> & -> & _)|(pb & rho & _ & _ & _ & _ & -> & Heta)]; [exact He|].
      destruct Heta as [[-> _]|(eta & Heta & -> & _)]; [exact He|].
      apply Forall_insert; [exact He|]. apply HP.
      eapply Forall_lookup_1; [exact He|exact Heta]. }
    destruct r1 as [[]| |].
    + intros Hrest. eapply IH; eassumption.
    + now intros [= <- <- <-].
    + now intros [= <- <- <-].
Qed.

Lemma rate_control_seq (b : Q) (p_bars : list Q) (n a : nat)
  (rhos etas rhos' etas' : list Q) :
  rate_control b p_bars (seq a n) rhos etas = (rhos', etas', Ret tt) ->
  (forall i, (i < a)%nat -> rhos' !! i = rhos !! i /\ etas' !! i = etas !! i) /\
  (forall i, (a <= i < a + n)%nat -> rate_rule b p_bars rhos etas rhos' etas' i).
Proof.
  revert a rhos etas. induction n as [|n IH]; intros a rhos etas; cbn [seq rate_control].
  - intros [= <- <-]. split; [auto|]. intros i Hi. lia.
  - destruct (rate_control_at b p_bars a rhos etas) as [[rhos1 etas1] r1] eqn:Hat.
    destruct r1 as [[]| |]; try discriminate.
    intros Hrest. apply IH in Hrest as [Hbelow Hrange].
    apply rate_control_at_cases in Hat
      as [(-> & -> & Hret)|(pb & rho & Hpb & Hrho & Hnz & Hlt & -> & Heta)].
    + split; [intros i Hi; apply Hbelow; lia|].
      intros i Hi. destruct (decide (i = a)) as [->|Hne]; [|apply Hrange; lia].
      destruct (Hret eq_refl) as (pb & rho & Hpb & Hrho & Hnz & Hle).
      destruct (Hbelow a ltac:(lia)) as [Er Ee].
      exists pb, rho. repeat split; auto; try (intros; lra); congruence.
    + destruct Heta as [[_ Hr]|(eta & Heta & -> & _)]; [congruence|].
      split.
      * intros i Hi. destruct (Hbelow i ltac:(lia)) as [Er Ee].
        rewrite Er, Ee. rewrite !list_lookup_insert_ne by lia. auto.
      * intros i Hi. destruct (decide (i = a)) as [->|Hne].
        -- destruct (Hbelow a ltac:(lia)) as [Er Ee].
           exists pb, rho. split; [exact Hpb|]. split; [exact Hrho|]. split.
           ++ intros _. split.
              ** rewrite Er. apply list_lookup_insert_eq.
                 eapply lookup_lt_Some, Hrho.
              ** exists eta. split; [exact Heta|]. rewrite Ee.
                 apply list_lookup_insert_eq. eapply lookup_lt_Some, Heta.
           ++ intros Hle. lra.
        -- destruct (Hrange i ltac:(lia)) as (pb' & rho' & H1 & H2 & H3 & H4).
           rewrite list_lookup_insert_ne in H2 by lia.
           exists pb', rho'. split; [exact H1|]. split; [exact H2|]. split.
           ++ intros Hlt'. destruct (H3 Hlt') as (E1 & eta' & E2 & E3).
              rewrite list_lookup_insert_ne in E2 by lia. eauto.
           ++ intros Hle. destruct (H4 Hle) as [E1 E2].
              rewrite list_lookup_insert_ne in E2 by lia. auto.
Qed.

(** *** Construction *)

Lemma init_ret (bs : list learner) (eta : Q) (T : pyfloat)
  (rnd : CobaRandom) (s0 : state) :
  init bs eta T rnd = Ret s0 ->
  length bs <> 0%nat /\
  base_learners s0 = bs /\
  Py.inv T = Ret (gamma s0) /\
  etas s0 = repeat eta (length bs) /\
  rhos s0 = repeat (Py.of_nat (2 * length bs)) (length bs) /\
  ps s0 = repeat (1 / Py.of_nat (length bs)) (length bs) /\
  p_bars s0 = repeat (1 / Py.of_nat (length bs)) (length bs) /\
  base_actions s0 = ∅ /\ base_predicts s0 = ∅.
Proof.
  unfold init. intros Hinit.
  apply bind_ret in Hinit as (g & Hg & Hinit).
  apply bind_ret in Hinit as (log_T & _ & Hinit).
  apply bind_ret in Hinit as (e & _ & Hinit).
  apply bind_ret in Hinit as (b & _ & Hinit).
  apply bind_ret in Hinit as (p & Hp & Hinit).
  apply bind_ret in Hinit as (p_bar & Hp_bar & Hinit).
  injection Hinit as <-. cbn.
  destruct (div_inv _ _ _ Hp) as [[_ ?]|[Hnz [= ->]]]; [discriminate|].
  destruct (div_inv _ _ _ Hp_bar) as [[_ ?]|[_ [= ->]]]; [discriminate|].
  repeat split; auto.
  intros E. apply Hnz. rewrite E. reflexivity.
Qed.

Lemma init_infinite (bs : list learner) (eta : Q) (rnd : CobaRandom)
  (s0 : state) :
  init bs eta Inf rnd = Ret s0 -> gamma s0 = 0 /\ beta s0 == 1.
Proof.
  unfold init. cbn [Py.inv math.log Py.bind].
  change (math.exp 0) with 1.
  intros Hinit.
  apply bind_ret in Hinit as (b & Hb & Hinit).
  apply bind_ret in Hinit as (p & _ & Hinit).
  apply bind_ret in Hinit as (p_bar & _ & Hinit).
  injection Hinit as <-. cbn [gamma beta].
  split; [reflexivity|].
  destruct (div_inv _ _ _ Hb) as [[? ?]|[_ [= ->]]]; [discriminate|].
  field.
Qed.

Lemma Forall_repeat {A} (P : A -> Prop) (x : A) (n : nat) :
  P x -> Forall P (repeat x n).
Proof. intros Hx. induction n; simpl; constructor; auto. Qed.

Lemma init_well_formed (bs : list learner) (eta : Q) (T : pyfloat)
  (rnd : CobaRandom) (s0 : state) :
  init bs eta T rnd = Ret s0 ->
  0 <= eta -> 0 <= gamma s0 <= 1 -> 0 <= beta s0 <= 1 ->
  well_formed s0.
Proof.
  intros Hinit Heta Hg Hb.
  apply init_ret in Hinit as (HM & Hbs & _ & Hetas & _ & _ & Hpb & _).
  unfold well_formed. rewrite Hbs, Hetas, Hpb.
  repeat split; try tauto.
  - apply Forall_repeat. pose proof (of_nat_pos _ HM).
    apply Qlt_shift_div_l; lra.
  - now apply Forall_repeat.
Qed.

(** *** The weights after a solve *)

Lemma floor_pos : 0 < floor.
Proof. reflexivity. Qed.

Lemma solve_floor (fuel : nat) (s : state) (losses ps' : list Q) :
  log_barrier_omd fuel s losses = Ret ps' ->
  Forall (fun p => floor <= p) ps'.
Proof.
  unfold log_barrier_omd. intros Hsolve.
  apply bind_ret in Hsolve as (lmbda & _ & Hw).
  apply mapM_ret in Hw.
  induction Hw as [|[[p eta] loss] y zs ys Hy _ IH]; constructor; [|exact IH].
  unfold new_weight in Hy.
  apply bind_ret in Hy as (a & _ & Hy).
  destruct lmbda as [lam|]; [|discriminate].
  apply bind_ret in Hy as (w & _ & [= <-]). apply max_ge_r.
Qed.

Lemma solve_frame (fuel : nat) (s s' : state) (losses : list Q) :
  ps s' = ps s -> etas s' = etas s ->
  log_barrier_omd fuel s' losses = log_barrier_omd fuel s losses.
Proof.
  intros Hp He. unfold log_barrier_omd, find_lmbda, zip3.
  now rewrite Hp, He.
Qed.

Lemma smoothed_pos (s : state) (p : Q) :
  well_formed s -> 0 < p -> 0 < smoothed s p.
Proof.
  intros (HM & [Hg0 Hg1] & _) Hp. unfold smoothed.
  pose proof (of_nat_pos _ HM) as Hm.
  set (m := Py.of_nat (length (base_learners s))) in *.
  assert (Hq : 0 <= gamma s * 1 / m) by (apply Qle_shift_div_l; lra).
  destruct (Qlt_le_dec (gamma s) 1) as [Hlt|Hge].
  - nra.
  - assert (0 < gamma s * 1 / m) by (apply Qlt_shift_div_l; lra). nra.
Qed.

(** *** One call *)

Lemma learn_step (fuel : nat) (s : state) (key : Key) (context : Context)
  (action : Action) (reward probability : Q) (s' : state) (r : result unit) :
  well_formed s ->
  learn fuel s key context action reward probability = (s', r) ->
  well_formed s' /\
  Forall2 Qle (rhos s) (rhos s') /\ Forall2 Qle (etas s') (etas s).
Proof.
  intros Hwf Hlearn. pose proof Hwf as (HM & Hg & Hb & Hpb & He).
  destruct (learn_weights fuel s key context action reward probability
              s' r HM Hlearn)
    as [(Eg & Eb & Elen) [[(_ & Epb & Er & Ee) _]|(s3 & losses & _ & _ & Hsolve & Epb & Hrate)]].
  - unfold well_formed. rewrite Eg, Eb, Elen, Epb, Er, Ee.
    auto using Forall2_Qle_refl.
  - assert (Hpos : Forall (fun p => 0 < p) (p_bars s')).
    { rewrite Epb. apply Forall_fmap.
      eapply Forall_impl; [apply (solve_floor _ _ _ _ Hsolve)|].
      intros p Hp. apply smoothed_pos; [exact Hwf|].
      unfold floor in Hp. lra. }
    destruct (rate_control_monotone _ _ _ _ _ _ _ _ Hb Hpos He Hrate)
      as (H1 & H2 & H3).
    unfold well_formed. rewrite Eg, Eb, Elen. auto 10.
Qed.

Lemma step_well_formed (s s' : state) :
  well_formed s -> step s s' ->
  well_formed s' /\
  Forall2 Qle (rhos s) (rhos s') /\ Forall2 Qle (etas s') (etas s).
Proof.
  intros Hwf Hstep.
  destruct Hstep as [s key context actions
                    |fuel s key context action reward probability _].
  - destruct (predict_unchanged s key context actions)
      as [(Eg & Eb & Elen) (_ & Epb & Er & Ee)].
    unfold well_formed. rewrite Eg, Eb, Elen, Epb, Er, Ee.
    destruct Hwf as (? & ? & ? & ? & ?). auto 10 using Forall2_Qle_refl.
  - eapply learn_step; [exact Hwf|apply surjective_pairing].
Qed.

Lemma reachable_well_formed (s0 s : state) :
  well_formed s0 -> reachable s0 s ->
  well_formed s /\
  Forall2 Qle (rhos s0) (rhos s) /\ Forall2 Qle (etas s) (etas s0).
Proof.
  intros Hwf Hreach. induction Hreach as [s|s1 s2 s3 Hstep _ IH].
  - auto using Forall2_Qle_refl.
  - destruct (step_well_formed _ _ Hwf Hstep) as (Hwf2 & H1 & H2).
    destruct (IH Hwf2) as (Hwf3 & H3 & H4).
    eauto using Forall2_Qle_trans.
Qed.

(** *** The bookkeeping and the rates *)

(** C5.  A key passed to [predict] and consumed by one [learn] leaves the
    two per-key maps empty again (when they were empty before the
    [predict]); a second [learn] for that key raises [KeyError], the
    KeyNotFound condition, and leaves the state as it was; and so does
    every [learn] for a key that has no stored entry. *)
Theorem key_round_trip (fuel fuel' : nat) (s s1 : state) (key : Key)
  (context : Context) (actions : list Action) (out : list Q)
  (action action' : Action) (reward probability reward' probability' : Q) :
  base_actions s = ∅ ->
  base_predicts s = ∅ ->
  predict s key context actions = (s1, Ret out) ->
  let s2 := fst (learn fuel s1 key context action reward probability) in
  (base_actions s2 = ∅ /\ base_predicts s2 = ∅) /\
  (learn fuel' s2 key context action' reward' probability'
   = (s2, Raise KeyError) /\
   Py.fails_with
     (snd (learn fuel' s2 key context action' reward' probability'))
     KeyNotFound) /\
  (forall (u : state) (k : Key),
     base_actions u !! k = None ->
     learn fuel' u k context action' reward' probability'
     = (u, Raise KeyError) /\
     Py.fails_with
       (snd (learn fuel' u k context action' reward' probability'))
       KeyNotFound).
Proof.
  intros Ha Hp Hpredict s2.
  assert (Hunknown : forall (u : state) (k : Key),
            base_actions u !! k = None ->
            learn fuel' u k context action' reward' probability'
            = (u, Raise KeyError) /\
            Py.fails_with
              (snd (learn fuel' u k context action' reward' probability'))
              KeyNotFound).
  { intros u k Hk. rewrite learn_unknown_key by exact Hk.
    split; [reflexivity|]. exists KeyError. split; reflexivity. }
  split; [|split; [|exact Hunknown]].
  - destruct (predict_stores _ _ _ _ _ _ Hpredict) as (acts & preds & Ea & Ep).
    destruct (learn_consumes fuel s1 key context action reward probability
                acts preds) as [E1 E2].
    + rewrite Ea. apply lookup_insert_eq.
    + rewrite Ep. apply lookup_insert_eq.
    + subst s2. rewrite E1, E2, Ea, Ep, Ha, Hp.
      rewrite !delete_insert_eq, !delete_empty. auto.
  - apply Hunknown. apply learn_forgets_key.
Qed.

(** C6, amended.  For a learner built with [eta >= 0] and [gamma], [beta] in
    [[0,1]], over any sequence of calls no [rho_i] ever decreases and no
    [eta_i] ever increases; and a [learn] that returns has, for every
    base learner [i], replaced [rho_i] by the strictly larger
    [2/p_bar_i] and multiplied [eta_i] by [beta] when [1/p_bar_i]
    exceeded [rho_i], and left both unchanged otherwise. *)
Theorem rates_monotone (bs : list learner) (eta : Q) (T : pyfloat)
  (rnd : CobaRandom) (s0 s : state) :
  init bs eta T rnd = Ret s0 ->
  0 <= eta -> 0 <= gamma s0 <= 1 -> 0 <= beta s0 <= 1 ->
  reachable s0 s ->
  (Forall2 Qle (rhos s0) (rhos s) /\ Forall2 Qle (etas s) (etas s0)) /\
  (forall s', step s s' ->
              Forall2 Qle (rhos s) (rhos s') /\
              Forall2 Qle (etas s') (etas s)) /\
  (forall fuel key context action reward probability s',
     learn fuel s key context action reward probability = (s', Ret tt) ->
     forall i, (i < length (base_learners s))%nat ->
       exists p_bar rho,
         p_bars s' !! i = Some p_bar /\ 0 < p_bar /\
         rhos s !! i = Some rho /\
         (rho < 1 / p_bar ->
          rhos s' !! i = Some (2 / p_bar) /\ rho < 2 / p_bar /\
          exists eta_i, etas s !! i = Some eta_i /\
                        etas s' !! i = Some (eta_i * beta s)) /\
         (1 / p_bar <= rho ->
          rhos s' !! i = Some rho /\ etas s' !! i = etas s !! i)).
Proof.
  intros Hinit Heta Hg Hb Hreach.
  pose proof (init_well_formed _ _ _ _ _ Hinit Heta Hg Hb) as Hwf0.
  destruct (reachable_well_formed _ _ Hwf0 Hreach) as (Hwf & H1 & H2).
  split; [auto|]. split.
  - intros s' Hstep. apply (step_well_formed _ _ Hwf Hstep).
  - intros fuel key context action reward probability s' Hlearn i Hi.
    destruct (learn_step _ _ _ _ _ _ _ _ _ Hwf Hlearn) as ((_ & _ & _ & Hpos & _) & _).
    destruct (learn_weights _ _ _ _ _ _ _ _ _ (proj1 Hwf) Hlearn)
      as [_ [[_ Hne]|(s3 & losses & _ & _ & _ & _ & Hrate)]]; [congruence|].
    apply rate_control_seq in Hrate as [_ Hrule].
    destruct (Hrule i ltac:(lia)) as (pb & rho & Hpb & Hrho & Hup & Hsame).
    assert (0 < pb) by (eapply Forall_lookup_1; [exact Hpos|exact Hpb]).
    exists pb, rho. repeat split; auto.
    + now apply Hup.
    + now apply two_over.
    + now apply Hup.
    + now apply Hsame.
    + now apply Hsame.
Qed.

(** C10.  With the default horizon [T = inf] the constructor sets
    [gamma = 0] and [beta = 1]; from then on, in every state the learner
    reaches, [p_bar_i] equals [p_i] and every [eta_i] equals the initial
    [eta], whether or not [rho_i] was updated. *)
Theorem infinite_horizon (bs : list learner) (eta : Q) (rnd : CobaRandom)
  (s0 s : state) :
  init bs eta Inf rnd = Ret s0 ->
  reachable s0 s ->
  (gamma s0 == 0 /\ beta s0 == 1) /\
  (gamma s == 0 /\ beta s == 1) /\
  Forall2 Qeq (p_bars s) (ps s) /\
  Forall (Qeq eta) (etas s).
Proof.
  intros Hinit Hreach.
  destruct (init_infinite _ _ _ _ Hinit) as [Hg0 Hb0].
  split; [split; [now rewrite Hg0|exact Hb0]|].
  apply init_ret in Hinit as (HM & Hbs & _ & Hetas & _ & Hps & Hpb & _).
  cut (length (base_learners s) <> 0%nat /\
       gamma s == 0 /\ beta s == 1 /\
       Forall2 Qeq (p_bars s) (ps s) /\ Forall (Qeq eta) (etas s));
    [tauto|].
  unfold reachable in Hreach. revert s Hreach.
  apply (rtc_ind_r
           (fun s => length (base_learners s) <> 0%nat /\
                     gamma s == 0 /\ beta s == 1 /\
                     Forall2 Qeq (p_bars s) (ps s) /\
                     Forall (Qeq eta) (etas s)) s0);
    [|intros s2 s3 Hreach Hstep IH].
  - rewrite Hbs, Hg0, Hps, Hpb, Hetas.
    split; [exact HM|]. split; [reflexivity|]. split; [exact Hb0|]. split.
    + apply Forall_Forall2_diag, Forall_repeat. reflexivity.
    + apply Forall_repeat. reflexivity.
  - destruct IH as (HM2 & Hg & Hb & Hpp & He).
    destruct Hstep as [s2 key context actions
                      |fuel s2 key context action reward probability _].
    + destruct (predict_unchanged s2 key context actions)
        as [(Eg & Eb & Elen) (Ep & Epb & _ & Ee)].
      rewrite Eg, Eb, Elen, Ep, Epb, Ee. auto.
    + destruct (learn fuel s2 key context action reward probability)
        as [s' r] eqn:Hlearn. cbn [fst].
      destruct (learn_weights _ _ _ _ _ _ _ _ _ HM2 Hlearn)
        as [(Eg & Eb & Elen) [[(Ep & Epb & _ & Ee) _]|(s3 & losses & _ & _ & _ & Epb & Hrate)]].
      * rewrite Eg, Eb, Elen, Ep, Epb, Ee. auto.
      * rewrite Eg, Eb, Elen. repeat split; auto.
        -- rewrite Epb. apply Forall2_fmap_l, Forall_Forall2_diag.
           apply List.Forall_forall. intros p _. unfold compose, smoothed.
           pose proof (of_nat_pos _ HM2). rewrite Hg. field. lra.
        -- eapply (rate_control_etas (Qeq eta)); [|exact He|exact Hrate].
           intros e Hee. rewrite Hb, <- Hee. ring.
Qed.

(** *** The solve when all losses are equal *)

Lemma fold_min_all (xs : list Q) (x c : Q) :
  Forall (Qeq c) xs -> c == x -> c == fold_left Py.min xs x.
Proof.
  intros Hall. revert x. induction Hall as [|y xs Hy _ IH]; intros x Hx; simpl.
  - exact Hx.
  - apply IH. unfold Py.min. now destruct (Py.Qlt_bool y x).
Qed.

Lemma fold_max_all (xs : list Q) (x c : Q) :
  Forall (Qeq c) xs -> c == x -> c == fold_left Py.max xs x.
Proof.
  intros Hall. revert x. induction Hall as [|y xs Hy _ IH]; intros x Hx; simpl.
  - exact Hx.
  - apply IH. unfold Py.max. now destruct (Py.Qlt_bool x y).
Qed.

Lemma Forall_zip3 (Pp Pe Pl : Q -> Prop) (l1 l2 l3 : list Q) :
  Forall Pp l1 -> Forall Pe l2 -> Forall Pl l3 ->
  Forall (fun pel => Pp (fst (fst pel)) /\ Pe (snd (fst pel)) /\ Pl (snd pel))
    (zip (zip l1 l2) l3).
Proof.
  intros H1. revert l2 l3.
  induction H1 as [|p l1 Hp _ IH]; intros l2 l3 H2 H3; [constructor|].
  destruct H2 as [|e l2 He H2]; [constructor|].
  destruct H3 as [|l l3 Hl H3]; [constructor|].
  cbn. constructor; [auto|]. now apply IH.
Qed.

Lemma zip3_weights (l1 l2 l3 : list Q) :
  length l2 = length l1 -> length l3 = length l1 ->
  map (fun pel : Q * Q * Q => fst (fst pel)) (zip (zip l1 l2) l3) = l1.
Proof.
  revert l2 l3. induction l1 as [|p l1 IH]; intros [|e l2] [|l l3];
    cbn; try discriminate; try reflexivity.
  intros [= E2] [= E3]. f_equal. now apply IH.
Qed.

Lemma max_proper (w p b : Q) : w == p -> Py.max w b == Py.max p b.
Proof.
  intros Hwp. unfold Py.max.
  destruct (Py.Qlt_bool w b) eqn:E1, (Py.Qlt_bool p b) eqn:E2;
    try reflexivity; try exact Hwp.
  - apply Qlt_bool_iff in E1. apply Qlt_bool_false in E2. lra.
  - apply Qlt_bool_iff in E2. apply Qlt_bool_false in E1. lra.
Qed.

(** With all losses equal [lmbda] is that loss, and each new weight is
    [max(p, floor)]. *)
Lemma solve_equal_losses (fuel : nat) (s : state) (losses : list Q) (c : Q) :
  losses <> [] ->
  Forall (Qeq c) losses ->
  Forall (fun p => ~ p == 0) (ps s) ->
  Forall (fun e => ~ e == 0) (etas s) ->
  exists lam ps',
    find_lmbda fuel s losses = Ret (Some lam) /\ lam == c /\
    log_barrier_omd fuel s losses = Ret ps' /\
    Forall2 (fun y pel => y == Py.max (fst (fst pel)) floor)
      ps' (zip3 s losses).
Proof.
  intros Hne Hc Hp He.
  pose proof (Forall_zip3 _ _ _ _ _ _ Hp He Hc) as Hz.
  fold (zip3 s losses) in Hz.
  assert (Hdz : Py.returns (Py.mapM denom_zero (zip3 s losses))).
  { apply mapM_returns. eapply Forall_impl; [exact Hz|].
    intros [[p eta] loss] (Hp0 & He0 & _). cbn in *.
    unfold denom_zero. rewrite div_ret by exact Hp0. cbn.
    rewrite div_ret by lra. now eexists. }
  destruct Hdz as [dz Hdz].
  destruct losses as [|l0 losses]; [contradiction|].
  apply Forall_cons in Hc as [Hl0 Hc].
  pose proof (fold_min_all _ _ _ Hc Hl0) as Hmin.
  pose proof (fold_max_all _ _ _ Hc Hl0) as Hmax.
  set (mn := fold_left Py.min losses l0) in *.
  assert (Hfind : find_lmbda fuel s (l0 :: losses) = Ret (Some mn)).
  { unfold find_lmbda. rewrite Hdz. cbn [Py.bind Py.min_list Py.max_list].
    fold mn. replace (Qeq_bool mn (fold_left Py.max losses l0)) with true;
      [reflexivity|].
    symmetry. apply Qeq_bool_iff. now rewrite <- Hmin, <- Hmax. }
  exists mn. unfold log_barrier_omd. rewrite Hfind. cbn [Py.bind].
  assert (Hw : Forall (fun pel : Q * Q * Q =>
              exists y, new_weight (Some mn) pel = Ret y /\
                        y == Py.max (fst (fst pel)) floor)
            (zip3 s (l0 :: losses))).
  { eapply Forall_impl; [exact Hz|].
    intros [[p eta] loss] (Hp0 & _ & Hl). cbn in *.
    unfold new_weight. rewrite div_ret by exact Hp0. cbn.
    assert (Hd : 1 / p + eta * (loss - mn) == 1 / p).
    { rewrite <- Hl, <- Hmin. field. exact Hp0. }
    assert (Hnz : ~ 1 / p + eta * (loss - mn) == 0).
    { rewrite Hd. intros E. apply Hp0.
      assert (Hpp : p * (1 / p) == 1) by (field; exact Hp0).
      rewrite E in Hpp. lra. }
    rewrite div_ret by exact Hnz. cbn. eexists. split; [reflexivity|].
    apply max_proper. rewrite Hd. field. exact Hp0. }
  clear Hz Hfind Hdz.
  induction Hw as [|pel zs (y & Hy & Hyp) _ (ps' & IHa & IHb)].
  - exists []. repeat split; auto. now symmetry.
  - destruct IHb as (IHb & IHc & IHd).
    exists (y :: ps'). split; [reflexivity|]. split; [now symmetry|].
    split.
    + cbn [Py.mapM]. rewrite Hy, IHc. reflexivity.
    + constructor; assumption.
Qed.

(** *** The solve when no bracket gives a root *)

Lemma solve_without_lmbda (fuel : nat) (s : state) (losses : list Q) :
  find_lmbda fuel s losses = Ret None ->
  ps s <> [] -> etas s <> [] ->
  log_barrier_omd fuel s losses = Raise TypeError.
Proof.
  intros Hfind Hp He. unfold log_barrier_omd. rewrite Hfind. cbn [Py.bind].
  unfold find_lmbda in Hfind.
  apply bind_ret in Hfind as (dz & Hdz & Hfind).
  apply bind_ret in Hfind as (mn & Hmn & _).
  unfold zip3 in *.
  destruct (ps s) as [|p l1]; [contradiction|].
  destruct (etas s) as [|eta l2]; [contradiction|].
  destruct losses as [|loss l3]; [discriminate|].
  cbn [zip zip_with Py.mapM] in *.
  apply bind_ret in Hdz as (z & Hz & _).
  unfold denom_zero in Hz. apply bind_ret in Hz as (a & Ha & _).
  destruct (div_inv _ _ _ Ha) as [[_ ?]|[Hp0 _]]; [discriminate|].
  unfold new_weight. rewrite div_ret by exact Hp0. reflexivity.
Qed.

(** *** What the loop returns *)

Lemma newton_loop_ret (fuel : nat) (zs : list (Q * Q * Q)) (x0 x : Q) :
  newton_loop fuel zs x0 = Ret x -> converged zs x = Ret true.
Proof.
  revert x0. induction fuel as [|fuel IH]; intros x0; [discriminate|].
  cbn [newton_loop].
  destruct (newton_step zs x0) as [x1| |]; try discriminate. cbn [Py.bind].
  destruct (converged zs x1) as [[]| |] eqn:Hc; try discriminate; cbn [Py.bind].
  - now intros [= <-].
  - apply IH.
Qed.

Lemma newton_loop_more_fuel (fuel fuel' : nat) (zs : list (Q * Q * Q))
  (x0 : Q) :
  newton_loop fuel zs x0 <> Diverge -> (fuel <= fuel')%nat ->
  newton_loop fuel' zs x0 = newton_loop fuel zs x0.
Proof.
  revert fuel' x0. induction fuel as [|fuel IH]; intros fuel' x0 Hnd Hle.
  - now contradict Hnd.
  - destruct fuel' as [|fuel']; [lia|]. cbn [newton_loop] in *.
    destruct (newton_step zs x0) as [x1| |]; try reflexivity. cbn [Py.bind] in *.
    destruct (converged zs x1) as [[]| |]; try reflexivity. cbn [Py.bind] in *.
    apply IH; [exact Hnd|lia].
Qed.

(** *** The solve *)

Lemma Forall2_weights (ps' : list Q) (zs : list (Q * Q * Q)) :
  Forall2 (fun y pel => y == Py.max (fst (fst pel)) floor) ps' zs ->
  Forall (fun pel : Q * Q * Q => floor <= fst (fst pel)) zs ->
  Forall2 Qeq ps' (map (fun pel : Q * Q * Q => fst (fst pel)) zs).
Proof.
  induction 1 as [|y pel ps' zs Hy _ IH]; intros Hfl; [constructor|].
  apply Forall_cons in Hfl as [Hp Hfl]. cbn [map]. constructor; [|auto].
  rewrite Hy. now rewrite max_l by exact Hp.
Qed.

(** C7, amended.  When all entries of the loss vector are equal, every
    weight is at least the floor [0.00001] and no rate is zero, the
    solve sets [lmbda] to the common loss and returns the weights
    unchanged.  Every weight a solve returns is at least the floor, so
    the states after a [learn] meet the condition on the weights. *)
Theorem equal_losses_keep_weights (fuel : nat) (s : state)
  (losses : list Q) (c : Q) :
  losses <> [] ->
  Forall (Qeq c) losses ->
  length (etas s) = length (ps s) ->
  length losses = length (ps s) ->
  Forall (fun p => floor <= p) (ps s) ->
  Forall (fun e => ~ e == 0) (etas s) ->
  (exists lam ps',
     find_lmbda fuel s losses = Ret (Some lam) /\ lam == c /\
     log_barrier_omd fuel s losses = Ret ps' /\
     Forall2 Qeq ps' (ps s)) /\
  (forall fuel' u losses' ps',
     log_barrier_omd fuel' u losses' = Ret ps' ->
     Forall (fun p => floor <= p) ps').
Proof.
  intros Hne Hc Hle Hll Hfl He. split; [|apply solve_floor].
  assert (Hp : Forall (fun p => ~ p == 0) (ps s)).
  { eapply Forall_impl; [exact Hfl|]. intros p Hp. unfold floor in Hp. lra. }
  destruct (solve_equal_losses fuel s losses c Hne Hc Hp He)
    as (lam & ps' & Hfind & Hlam & Hsolve & Hw).
  exists lam, ps'. repeat split; auto.
  rewrite <- (zip3_weights (ps s) (etas s) losses Hle Hll).
  apply Forall2_weights; [exact Hw|].
  pose proof (Forall_zip3 (fun p => floor <= p) (fun _ => True) (fun _ => True)
                (ps s) (etas s) losses Hfl) as Hz.
  eapply Forall_impl; [apply Hz|]; [| |intros pel Hpel; apply Hpel];
    apply List.Forall_forall; auto.
Qed.

Lemma learn_solve_fails (fuel : nat) (s : state) (key : Key)
  (context : Context) (action : Action) (reward probability : Q)
  (acts : list Action) (preds losses : list Q) :
  base_actions s !! key = Some acts ->
  base_predicts s !! key = Some preds ->
  Py.mapM (base_loss (1 - reward) probability action) acts = Ret losses ->
  snd (learn_base (base_learners s) key context acts losses preds) = Ret tt ->
  (forall ps', log_barrier_omd fuel s losses <> Ret ps') ->
  snd (learn fuel s key context action reward probability)
  = match log_barrier_omd fuel s losses with
    | Raise e => Raise e
    | _ => Diverge
    end /\
  same_weights s (fst (learn fuel s key context action reward probability)).
Proof.
  intros Ha Hp Hl Hb Hs. unfold learn, same_weights.
  rewrite Ha. cbn [base_predicts with_maps]. rewrite Hp, Hl.
  cbn [base_learners with_maps].
  destruct (learn_base (base_learners s) key context acts losses preds)
    as [bs r0]. cbn [snd] in Hb. subst r0.
  match goal with |- context [log_barrier_omd fuel ?x losses] =>
    rewrite (solve_frame fuel s x losses eq_refl eq_refl) end.
  destruct (log_barrier_omd fuel s losses) as [ps'| |]; cbn; auto.
  exfalso. now apply (Hs ps').
Qed.

(** C1, amended.  When no bracket gives a root ([lmbda] is still [None]
    after the search) the solve raises [TypeError], the exception of the
    subtraction [loss-lmbda]; [learn] ends with that [TypeError] after
    consuming the key, and leaves the weights [p], [p_bar] and the rates
    [rho], [eta] as they were. *)
Theorem no_root_raises (fuel : nat) (s : state) (key : Key)
  (context : Context) (action : Action) (reward probability : Q)
  (acts : list Action) (preds losses : list Q) :
  base_actions s !! key = Some acts ->
  base_predicts s !! key = Some preds ->
  Py.mapM (base_loss (1 - reward) probability action) acts = Ret losses ->
  snd (learn_base (base_learners s) key context acts losses preds) = Ret tt ->
  find_lmbda fuel s losses = Ret None ->
  ps s <> [] -> etas s <> [] ->
  log_barrier_omd fuel s losses = Raise TypeError /\
  snd (learn fuel s key context action reward probability) = Raise TypeError /\
  same_weights s (fst (learn fuel s key context action reward probability)) /\
  base_actions (fst (learn fuel s key context action reward probability))
    !! key = None.
Proof.
  intros Ha Hp Hl Hb Hfind Hps Hetas.
  pose proof (solve_without_lmbda fuel s losses Hfind Hps Hetas) as Hsolve.
  split; [exact Hsolve|].
  destruct (learn_solve_fails fuel s key context action reward probability
              acts preds losses Ha Hp Hl Hb) as [Hr Hw].
  { rewrite Hsolve. discriminate. }
  rewrite Hsolve in Hr. auto using learn_forgets_key.
Qed.

(** *** The mixture [predict] returns *)

Lemma sum_nonneg (l : list Q) : Forall (fun x => 0 <= x) l -> 0 <= Py.sum l.
Proof.
  induction 1 as [|x l Hx _ IH]; [rewrite sum_nil; lra|].
  rewrite sum_cons. lra.
Qed.







Lemma choices_length (rnd : CobaRandom) (actions : list Action)
  (predicts : list (list Q)) :
  length (snd (choices rnd actions predicts)) = length predicts.
Proof.
  revert rnd. induction predicts as [|predict rest IH]; intros rnd; [reflexivity|].
  cbn [choices]. destruct (CobaRandom_choice rnd actions predict) as [rnd' a].
  specialize (IH rnd'). destruct (choices rnd' actions rest) as [rnd'' l].
  cbn in *. now rewrite IH.
Qed.

Lemma index_In (actions : list Action) (action : Action) (i : nat) :
  index actions action = Ret i -> In action actions.
Proof.
  revert i. induction actions as [|a rest IH]; intros i; [discriminate|].
  cbn [index]. destruct (Z.eqb_spec a action) as [->|_]; [now left|].
  intros Hi. apply bind_ret in Hi as (j & Hj & _). right. eapply IH, Hj.
Qed.


(** *** The solve on equal numbers

    [f], [df], the Newton step and the convergence test do not
    distinguish two representations of the same rational. *)

Lemma div_same (a a' b b' : Q) :
  a == a' -> b == b' -> same_result (Py.div a b) (Py.div a' b').
Proof.
  intros Ha Hb. unfold Py.div.
  destruct (Qeq_bool b 0) eqn:E, (Qeq_bool b' 0) eqn:E'; cbn.
  - reflexivity.
  - apply Qeq_bool_iff in E. apply Qeq_bool_false in E'. rewrite <- Hb in E'.
    contradiction.
  - apply Qeq_bool_iff in E'. apply Qeq_bool_false in E. rewrite Hb in E.
    contradiction.
  - now rewrite Ha, Hb.
Qed.

Lemma sum_same (g g' : Q * Q * Q -> result Q) (zs : list (Q * Q * Q)) :
  (forall pel, same_result (g pel) (g' pel)) ->
  same_result (ts <- Py.mapM g zs ;; Ret (Py.sum ts))
              (ts <- Py.mapM g' zs ;; Ret (Py.sum ts)).
Proof.
  intros Hg.
  assert (Hm : match Py.mapM g zs, Py.mapM g' zs with
               | Ret l, Ret l' => Forall2 Qeq l l'
               | Raise e, Raise e' => e = e'
               | Diverge, Diverge => True
               | _, _ => False
               end).
  { induction zs as [|pel zs IH]; cbn [Py.mapM]; [constructor|].
    specialize (Hg pel).
    destruct (g pel) as [y| |], (g' pel) as [y'| |]; cbn in Hg |- *;
      try contradiction; auto.
    destruct (Py.mapM g zs) as [l| |], (Py.mapM g' zs) as [l'| |];
      cbn in IH |- *; try contradiction; auto. }
  destruct (Py.mapM g zs) as [l| |], (Py.mapM g' zs) as [l'| |];
    cbn in Hm |- *; try contradiction; auto.
  now apply sum_Forall2.
Qed.

Lemma f_same (zs : list (Q * Q * Q)) (x y : Q) :
  x == y -> same_result (f zs x) (f zs y).
Proof.
  intros Hxy. unfold f. apply sum_same. intros [[p eta] loss]. unfold denom.
  destruct (Py.div 1 p) as [a| |]; cbn; auto.
  apply div_same; [reflexivity|]. now rewrite Hxy.
Qed.

Lemma df_same (zs : list (Q * Q * Q)) (x y : Q) :
  x == y -> same_result (df zs x) (df zs y).
Proof.
  intros Hxy. unfold df. apply sum_same. intros [[p eta] loss]. unfold denom.
  destruct (Py.div 1 p) as [a| |]; cbn [Py.bind same_result]; auto.
  apply div_same; [reflexivity|]. now rewrite Hxy.
Qed.

Lemma newton_step_same (zs : list (Q * Q * Q)) (x y : Q) :
  x == y -> same_result (newton_step zs x) (newton_step zs y).
Proof.
  intros Hxy. unfold newton_step.
  pose proof (f_same zs x y Hxy) as Hf. pose proof (df_same zs x y Hxy) as Hdf.
  destruct (df zs x) as [w| |], (df zs y) as [w'| |]; cbn in Hdf |- *;
    try contradiction; auto.
  destruct (f zs x) as [v| |], (f zs y) as [v'| |]; cbn in Hf |- *;
    try contradiction; auto.
  pose proof (div_same (v - 1) (v' - 1) w w') as Hd.
  destruct (Py.div (v - 1) w) as [st| |], (Py.div (v' - 1) w') as [st'| |];
    cbn in Hd |- *; try (apply Hd; now rewrite ?Hf, ?Hdf).
  rewrite Hxy. rewrite Hd; [reflexivity| |]; now rewrite ?Hf, ?Hdf.
Qed.

Lemma round_same (x y : Q) (ndigits : nat) :
  x == y -> Py.round x ndigits = Py.round y ndigits.
Proof.
  intros Hxy. unfold Py.round.
  set (scale := inject_Z (10 ^ Z.of_nat ndigits)).
  assert (Hfl : Qfloor (x * scale) = Qfloor (y * scale)) by now rewrite Hxy.
  rewrite Hfl.
  assert (Hb : forall a b c d : Q, a == c -> b == d ->
            Py.Qlt_bool a b = Py.Qlt_bool c d).
  { intros a b c d Hac Hbd.
    destruct (Py.Qlt_bool a b) eqn:E1, (Py.Qlt_bool c d) eqn:E2; auto.
    - apply Qlt_bool_iff in E1. apply Qlt_bool_false in E2. lra.
    - apply Qlt_bool_iff in E2. apply Qlt_bool_false in E1. lra. }
  rewrite (Hb (x * scale - _) (1 # 2) (y * scale - inject_Z (Qfloor (y * scale))) (1 # 2))
    by (rewrite ?Hxy; reflexivity).
  rewrite (Hb (1 # 2) (x * scale - _) (1 # 2) (y * scale - inject_Z (Qfloor (y * scale))))
    by (rewrite ?Hxy; reflexivity).
  reflexivity.
Qed.

Lemma converged_same (zs : list (Q * Q * Q)) (x y : Q) :
  x == y -> converged zs x = converged zs y.
Proof.
  intros Hxy. unfold converged. pose proof (f_same zs x y Hxy) as Hf.
  destruct (f zs x) as [v| |], (f zs y) as [v'| |]; cbn in Hf |- *;
    try contradiction; try congruence.
  now rewrite (round_same v v' precision Hf).
Qed.

Lemma newton_loop_same (fuel : nat) (zs : list (Q * Q * Q)) (x y : Q) :
  x == y -> same_result (newton_loop fuel zs x) (newton_loop fuel zs y).
Proof.
  revert x y. induction fuel as [|fuel IH]; intros x y Hxy; [exact I|].
  cbn [newton_loop]. pose proof (newton_step_same zs x y Hxy) as Hs.
  destruct (newton_step zs x) as [x'| |], (newton_step zs y) as [y'| |];
    cbn in Hs |- *; try contradiction; auto.
  rewrite (converged_same zs x' y' Hs).
  destruct (converged zs y') as [[]| |]; cbn; auto.
Qed.

(** *** Weights below the floor *)

Lemma init_infinite_returns (bs : list learner) (eta : Q) (rnd : CobaRandom) :
  length bs <> 0%nat -> Py.returns (init bs eta Inf rnd).
Proof.
  intros HM. unfold init. cbn [Py.inv math.log Py.bind].
  change (math.exp 0) with 1.
  pose proof (of_nat_pos _ HM).
  rewrite (div_ret 1 1) by lra. cbn [Py.bind].
  rewrite !div_ret by lra. cbn [Py.bind]. now eexists.
Qed.

Lemma repeat_cons {A} (x : A) (n : nat) :
  n <> 0%nat -> repeat x n = x :: repeat x (pred n).
Proof. destruct n; [contradiction|reflexivity]. Qed.

(** A fresh learner with so many base learners that [1/M] is below the
    floor: the solve with equal losses raises every weight to the
    floor. *)
Lemma small_weights_change (fuel n : nat) (bs : list learner) (eta c : Q)
  (rnd : CobaRandom) (s0 : state) :
  init bs eta Inf rnd = Ret s0 ->
  length bs = n ->
  1 / Py.of_nat n < floor ->
  ~ eta == 0 ->
  exists ps', log_barrier_omd fuel s0 (repeat c n) = Ret ps' /\
              ~ Forall2 Qeq ps' (ps s0).
Proof.
  intros Hinit Hlen Hsmall Heta.
  apply init_ret in Hinit as (HM & _ & _ & Hetas & _ & Hps & _).
  rewrite Hlen in *.
  pose proof (of_nat_pos _ HM) as Hn.
  assert (Hp : ~ 1 / Py.of_nat n == 0).
  { intros E. assert (0 < 1 / Py.of_nat n) by (apply Qlt_shift_div_l; lra). lra. }
  destruct (solve_equal_losses fuel s0 (repeat c n) c)
    as (lam & ps' & _ & _ & Hsolve & Hw).
  - rewrite repeat_cons by exact HM. discriminate.
  - apply Forall_repeat. reflexivity.
  - rewrite Hps. now apply Forall_repeat.
  - rewrite Hetas. now apply Forall_repeat.
  - exists ps'. split; [exact Hsolve|]. intros Hsame.
    unfold zip3 in Hw. rewrite Hps, Hetas in Hw. rewrite Hps in Hsame.
    rewrite !(repeat_cons _ n HM) in Hw. rewrite (repeat_cons _ n HM) in Hsame.
    cbn [zip zip_with] in Hw.
    inversion Hw as [|y pel ps'' zs Hy _ E1 E2]; subst.
    inversion Hsame as [|y' p' ? ? Hy' _]; subst.
    cbn [fst] in Hy. unfold Py.max in Hy.
    apply Qlt_bool_iff in Hsmall. rewrite Hsmall in Hy.
    apply Qlt_bool_iff in Hsmall. rewrite Hy in Hy'. lra.
Qed.

End Corral.

(** *** Concrete runs *)

Section Runs.
Import CorralLearner.
#[local] Existing Instance Demo.externals.

(** C5 at a concrete learner: two [RandomLearner]s, one [predict] and
    one [learn] for key 7. *)
Lemma key_round_trip_witness :
  init [Random; Random] (1 # 2) Inf [1; 2]%Z
  = Ret (Demo.corral [Random; Random] (1 # 2) 0 (1 / 1) [1; 2]%Z) /\
  base_actions
    (fst (learn 0
            (fst (predict (Demo.corral [Random; Random] (1 # 2) 0 (1 / 1) [1; 2]%Z)
                    7%Z None [1; 2]%Z))
            7%Z None 1%Z 1 (1 # 2))) = ∅.
Proof.
  split; [reflexivity|].
  edestruct (key_round_trip 0 0
               (Demo.corral [Random; Random] (1 # 2) 0 (1 / 1) [1; 2]%Z)
               (fst (predict (Demo.corral [Random; Random] (1 # 2) 0 (1 / 1) [1; 2]%Z)
                       7%Z None [1; 2]%Z))
               7%Z None [1; 2]%Z
               (match snd (predict (Demo.corral [Random; Random] (1 # 2) 0 (1 / 1) [1; 2]%Z)
                             7%Z None [1; 2]%Z) with
                | Ret out => out
                | _ => []
                end)
               1%Z 1%Z 1 (1 # 2) 1 (1 # 2))
    as ([E _] & _).
  - reflexivity.
  - reflexivity.
  - reflexivity.
  - exact E.
Defined.

(** C6 at a learner with horizon [T = 100] and [eta = 20].  After a
    [predict] in which the two base learners drew the actions 1 and 2,
    [learn] for action 1 with reward 0 and probability 1 (the losses are
    [[1, 0]]) returns and has brought the first weight down to 0.0475;
    [1/p_bar_0] is then above [rho_0 = 4], so [rho_0] has become
    [2/p_bar_0] and [eta_0] has been multiplied by [beta]. *)
Lemma rates_monotone_witness :
  snd (learn 2
         (fst (predict
                 (Demo.corral [Random; Random] 20 (1 / 100)
                    (1 / math.exp (1 / (100 - 1))) [1; 2]%Z)
                 7%Z None [1; 2]%Z))
         7%Z None 1%Z 0 1) = Ret tt /\
  exists p_bar,
    p_bars (fst (learn 2
                   (fst (predict
                           (Demo.corral [Random; Random] 20 (1 / 100)
                              (1 / math.exp (1 / (100 - 1))) [1; 2]%Z)
                           7%Z None [1; 2]%Z))
                   7%Z None 1%Z 0 1)) !! 0%nat = Some p_bar /\
    4 < 1 / p_bar /\
    rhos (fst (learn 2
                 (fst (predict
                         (Demo.corral [Random; Random] 20 (1 / 100)
                            (1 / math.exp (1 / (100 - 1))) [1; 2]%Z)
                         7%Z None [1; 2]%Z))
                 7%Z None 1%Z 0 1)) !! 0%nat = Some (2 / p_bar) /\
    etas (fst (learn 2
                 (fst (predict
                         (Demo.corral [Random; Random] 20 (1 / 100)
                            (1 / math.exp (1 / (100 - 1))) [1; 2]%Z)
                         7%Z None [1; 2]%Z))
                 7%Z None 1%Z 0 1)) !! 0%nat
    = Some (20 * (1 / math.exp (1 / (100 - 1)))).
Proof.
  set (s0 := Demo.corral [Random; Random] 20 (1 / 100)
               (1 / math.exp (1 / (100 - 1))) [1; 2]%Z).
  set (s := fst (predict s0 7%Z None [1; 2]%Z)).
  assert (Hret : snd (learn 2 s 7%Z None 1%Z 0 1) = Ret tt)
    by (vm_compute; reflexivity).
  split; [exact Hret|].
  assert (Hlearn : learn 2 s 7%Z None 1%Z 0 1
                   = (fst (learn 2 s 7%Z None 1%Z 0 1), Ret tt)).
  { rewrite <- Hret. apply surjective_pairing. }
  assert (Hinit : init [Random; Random] 20 (Fin 100) [1; 2]%Z = Ret s0)
    by reflexivity.
  assert (Heta : 0 <= 20) by (apply Qle_bool_iff; reflexivity).
  assert (Hg : 0 <= gamma s0 <= 1)
    by (split; apply Qle_bool_iff; reflexivity).
  assert (Hb : 0 <= beta s0 <= 1)
    by (split; apply Qle_bool_iff; reflexivity).
  assert (Hreach : reachable s0 s)
    by (eapply rtc_l; [apply step_predict|apply rtc_refl]).
  assert (Hi : (0 < length (base_learners s))%nat)
    by (apply Nat.ltb_lt; reflexivity).
  destruct (proj2 (proj2 (@rates_monotone Demo.externals [Random; Random]
                            20 (Fin 100) [1; 2]%Z s0 s
                            Hinit Heta Hg Hb Hreach))
              2%nat 7%Z None 1%Z 0 1 _ Hlearn 0%nat Hi)
    as (p_bar & rho & Hpb & _ & Hrho & Hup & _).
  exists p_bar. split; [exact Hpb|].
  assert (Hrho4 : rho = 4) by (vm_compute in Hrho; congruence).
  subst rho.
  assert (Hlt : 4 < 1 / p_bar).
  { vm_compute in Hpb. injection Hpb as <-. vm_compute. reflexivity. }
  split; [exact Hlt|].
  destruct (Hup Hlt) as (Hr & _ & eta_0 & He & He').
  split; [exact Hr|].
  assert (Heta0 : eta_0 = 20) by (vm_compute in He; congruence).
  subst eta_0. exact He'.
Defined.

(** C6: the learner [CorralLearner([RandomLearner(), RandomLearner()],
    eta=-20, T=100)].  After a [predict] in which the base learners drew
    the actions 1 and 2, [learn] for action 1 with reward 0 and
    probability 1 (the losses are [[1, 0]]) returns: the search converges
    in two passes in the bracket from the pole at 0.9 to 1, and the
    weight of the second base learner falls to 0.0475.  Its [1/p_bar] is
    above [rho = 4], so its rate is multiplied by [beta]: from -20 it
    goes up to [-20 * beta] (here -19.8, with the model's stand-in for
    [math.exp] and [math.log]; -16.09 with Python's [beta = 0.8047]).
    The rate of a base learner has increased. *)
Lemma negative_rate_grows :
  init [Random; Random] (-20) (Fin 100) [1; 2]%Z
  = Ret (Demo.corral [Random; Random] (-20) (1 / 100)
           (1 / math.exp (1 / (100 - 1))) [1; 2]%Z) /\
  snd (learn 2
         (fst (predict
                 (Demo.corral [Random; Random] (-20) (1 / 100)
                    (1 / math.exp (1 / (100 - 1))) [1; 2]%Z)
                 7%Z None [1; 2]%Z))
         7%Z None 1%Z 0 1) = Ret tt /\
  etas (fst (predict
               (Demo.corral [Random; Random] (-20) (1 / 100)
                  (1 / math.exp (1 / (100 - 1))) [1; 2]%Z)
               7%Z None [1; 2]%Z)) = [-20; -20] /\
  etas (fst (learn 2
               (fst (predict
                       (Demo.corral [Random; Random] (-20) (1 / 100)
                          (1 / math.exp (1 / (100 - 1))) [1; 2]%Z)
                       7%Z None [1; 2]%Z))
               7%Z None 1%Z 0 1))
  = [-20; -20 * (1 / math.exp (1 / (100 - 1)))] /\
  -20 < -20 * (1 / math.exp (1 / (100 - 1))) /\
  ~ Forall2 Qle
      (etas (fst (learn 2
                    (fst (predict
                            (Demo.corral [Random; Random] (-20) (1 / 100)
                               (1 / math.exp (1 / (100 - 1))) [1; 2]%Z)
                            7%Z None [1; 2]%Z))
                    7%Z None 1%Z 0 1)))
      (etas (fst (predict
                    (Demo.corral [Random; Random] (-20) (1 / 100)
                       (1 / math.exp (1 / (100 - 1))) [1; 2]%Z)
                    7%Z None [1; 2]%Z))).
Proof.
  assert (Hlt : -20 < -20 * (1 / math.exp (1 / (100 - 1))))
    by (vm_compute; reflexivity).
  assert (E : etas (fst (predict
               (Demo.corral [Random; Random] (-20) (1 / 100)
                  (1 / math.exp (1 / (100 - 1))) [1; 2]%Z)
               7%Z None [1; 2]%Z)) = [-20; -20]) by reflexivity.
  assert (E' : etas (fst (learn 2
               (fst (predict
                       (Demo.corral [Random; Random] (-20) (1 / 100)
                          (1 / math.exp (1 / (100 - 1))) [1; 2]%Z)
                       7%Z None [1; 2]%Z))
               7%Z None 1%Z 0 1))
               = [-20; -20 * (1 / math.exp (1 / (100 - 1)))])
    by (vm_compute; reflexivity).
  split; [reflexivity|]. split; [vm_compute; reflexivity|].
  split; [exact E|]. split; [exact E'|]. split; [exact Hlt|].
  rewrite E, E'. intros Hall.
  apply Forall2_cons in Hall as [_ Hall].
  apply Forall2_cons in Hall as [Hle _]. lra.
Qed.

(** C10 at a learner with the default horizon. *)
Lemma infinite_horizon_witness :
  Forall (Qeq (1 # 2))
    (etas (fst (predict
                  (Demo.corral [Random; Random] (1 # 2) 0 (1 / 1) [1; 2]%Z)
                  7%Z None [1; 2]%Z))).
Proof.
  eapply (fun H1 H2 =>
            proj2 (proj2 (proj2 (@infinite_horizon Demo.externals
                                   [Random; Random] (1 # 2)
                                   [1; 2]%Z _ _ H1 H2)))).
  - reflexivity.
  - eapply rtc_l; [apply step_predict|apply rtc_refl].
Defined.

(** C1: the learner [CorralLearner([RandomLearner(), RandomLearner()],
    eta=100)], after a [predict] in which the two base learners drew
    actions 1 and 2, learns from action 1 with reward 0.99995 and
    probability 1.  The losses are [[0.00005, 0]]; the only bracket is
    narrower than the offsets of the sign test and is rejected; [lmbda]
    stays [None].  The call ends with [TypeError], which is not an
    OptimizationDivergence error. *)
Lemma no_root_is_a_type_error :
  find_lmbda 0 (Demo.corral [Random; Random] 100 0 (1 / 1) [1; 2]%Z)
    [(1 - 0.99995) / 1 * 1; (1 - 0.99995) / 1 * 0] = Ret None /\
  snd (learn 0
         (fst (predict (Demo.corral [Random; Random] 100 0 (1 / 1) [1; 2]%Z)
                 7%Z None [1; 2]%Z))
         7%Z None 1%Z 0.99995 1) = Raise TypeError /\
  ~ Py.fails_with
      (snd (learn 0
              (fst (predict (Demo.corral [Random; Random] 100 0 (1 / 1) [1; 2]%Z)
                      7%Z None [1; 2]%Z))
              7%Z None 1%Z 0.99995 1))
      OptimizationDivergence.
Proof.
  assert (E : snd (learn 0
         (fst (predict (Demo.corral [Random; Random] 100 0 (1 / 1) [1; 2]%Z)
                 7%Z None [1; 2]%Z))
         7%Z None 1%Z 0.99995 1) = Raise TypeError)
    by (vm_compute; reflexivity).
  split; [vm_compute; reflexivity|]. split; [exact E|].
  rewrite E. intros (e & [= <-] & Hc). discriminate.
Qed.

Lemma no_root_raises_witness :
  snd (learn 0
         (fst (predict (Demo.corral [Random; Random] 100 0 (1 / 1) [1; 2]%Z)
                 7%Z None [1; 2]%Z))
         7%Z None 1%Z 0.99995 1) = Raise TypeError.
Proof.
  eapply (fun H1 H2 H3 H4 H5 H6 H7 =>
            proj1 (proj2 (@no_root_raises Demo.externals 0
              (fst (predict (Demo.corral [Random; Random] 100 0 (1 / 1) [1; 2]%Z)
                      7%Z None [1; 2]%Z))
              7%Z None 1%Z 0.99995 1 [1; 2]%Z [1 / Py.of_nat 2; 1 / Py.of_nat 2]
              [(1 - 0.99995) / 1 * 1; (1 - 0.99995) / 1 * 0]
              H1 H2 H3 H4 H5 H6 H7))).
  - reflexivity.
  - reflexivity.
  - reflexivity.
  - reflexivity.
  - vm_compute. reflexivity.
  - discriminate.
  - discriminate.
Defined.

(** C7 at a fresh learner with two base learners and losses [[1, 1]]. *)
Lemma equal_losses_keep_weights_witness :
  exists ps',
    log_barrier_omd 0 (Demo.corral [Random; Random] (1 # 2) 0 (1 / 1) [])
      [1; 1] = Ret ps' /\
    Forall2 Qeq ps'
      (ps (Demo.corral [Random; Random] (1 # 2) 0 (1 / 1) [])).
Proof.
  destruct (proj1 (@equal_losses_keep_weights Demo.externals 0
                     (Demo.corral [Random; Random] (1 # 2) 0 (1 / 1) [])
                     [1; 1] 1
                     ltac:(discriminate)
                     ltac:(repeat constructor)
                     eq_refl eq_refl
                     ltac:(repeat (constructor; [vm_compute; discriminate|]);
                           constructor)
                     ltac:(repeat (constructor; [vm_compute; discriminate|]);
                           constructor)))
    as (lam & ps' & _ & _ & Hsolve & Hsame).
  exists ps'. split; assumption.
Defined.

(** C7: a fresh learner with 100001 base learners has the weights
    [1/100001], below the floor [0.00001]; the solve with all losses
    equal returns the floor for each of them. *)
Lemma equal_losses_raise_small_weights :
  exists s0 ps',
    init (repeat Random 100001) 1 Inf [] = Ret s0 /\
    log_barrier_omd 0 s0 (repeat 0 100001) = Ret ps' /\
    ~ Forall2 Qeq ps' (ps s0).
Proof.
  destruct (@init_infinite_returns Demo.externals (repeat Random 100001) 1 [])
    as [s0 Hs0].
  { rewrite repeat_length. discriminate. }
  destruct (@small_weights_change Demo.externals 0 100001
              (repeat Random 100001) 1 0 [] s0 Hs0)
    as (ps' & Hsolve & Hne).
  - apply repeat_length.
  - apply Qlt_bool_iff. vm_compute. reflexivity.
  - discriminate.
  - exists s0, ps'. auto.
Qed.

(** C3: [CorralLearner([UcbTunedLearner()], eta=1)] predicts for the
    actions 1 and 2 (its base learner picks action 1) and then learns
    from action 1 with reward 0 and probability 1/2.  The loss of the
    base learner is [1/(1/2) = 2], and the reward handed down to it,
    which it records as the mean of action 1, is [1 - 2 = -1]. *)
Theorem base_reward_below_zero :
  (0 <= 0 <= 1 /\ 0 < 1 # 2 <= 1) /\
  Demo.base_mean
    (fst (learn 0
            (fst (predict (Demo.corral [Ucb UcbTunedLearner.init] 1 0 (1 / 1) [1%Z])
                    7%Z None [1; 2]%Z))
            7%Z None 1%Z 0 (1 # 2)))
    0 1%Z
  = Some (1 - (1 - 0) / (1 # 2) * 1) /\
  1 - (1 - 0) / (1 # 2) * 1 == -1 /\
  ~ 0 <= 1 - (1 - 0) / (1 # 2) * 1.
Proof.
  split; [split; split; apply Qle_bool_iff || apply Qlt_bool_iff; reflexivity|].
  split; [vm_compute; reflexivity|].
  split; [reflexivity|].
  intros Hle. apply Qle_bool_iff in Hle. discriminate.
Qed.

End Runs.

End CorralFacts.

(** ** The root finder in binary64: what ends the loop *)

Module SolveFloatFacts.
Import PrimFloat CorralLearner64.
#[local] Set Warnings "-inexact-float".

Lemma newton_loop_returns (fuel : nat) (zs : list (float * float * float))
  (x0 x : float) :
  newton_loop fuel zs x0 = Ret x -> converged zs x = Ret true.
Proof.
  revert x0. induction fuel as [|fuel IH]; intros x0; [discriminate|].
  cbn [newton_loop].
  destruct (newton_step zs x0) as [x1| |]; try discriminate. cbn [Py.bind].
  destruct (converged zs x1) as [[]| |] eqn:Hc; try discriminate; cbn [Py.bind].
  - now intros [= <-].
  - apply IH.
Qed.

Lemma newton_loop_fuel (fuel fuel' : nat) (zs : list (float * float * float))
  (x0 : float) :
  newton_loop fuel zs x0 <> Diverge -> (fuel <= fuel')%nat ->
  newton_loop fuel' zs x0 = newton_loop fuel zs x0.
Proof.
  revert fuel' x0. induction fuel as [|fuel IH]; intros fuel' x0 Hnd Hle.
  - now contradict Hnd.
  - destruct fuel' as [|fuel']; [lia|]. cbn [newton_loop] in *.
    destruct (newton_step zs x0) as [x1| |]; try reflexivity. cbn [Py.bind] in *.
    destruct (converged zs x1) as [[]| |]; try reflexivity. cbn [Py.bind] in *.
    apply IH; [exact Hnd|lia].
Qed.

(** The loop keeps nothing but [x] from one pass to the next: after [n]
    passes that did not return it is where a fresh loop started at the
    iterate reached would be. *)
Lemma newton_loop_iterate (n fuel : nat) (zs : list (float * float * float))
  (x y : float) :
  iterate n zs x = Ret (Some y) ->
  newton_loop (n + fuel) zs x = newton_loop fuel zs y.
Proof.
  revert x. induction n as [|n IH]; intros x; cbn [iterate Nat.add newton_loop].
  - now intros [= <-].
  - destruct (newton_step zs x) as [x1| |]; try discriminate. cbn [Py.bind].
    destruct (converged zs x1) as [[]| |]; try discriminate; cbn [Py.bind].
    apply IH.
Qed.

Lemma newton_loop_short (n fuel : nat) (zs : list (float * float * float))
  (x y : float) :
  iterate n zs x = Ret (Some y) -> (fuel <= n)%nat ->
  newton_loop fuel zs x = Diverge.
Proof.
  revert x fuel. induction n as [|n IH]; intros x fuel; cbn [iterate].
  - intros _ Hle. now replace fuel with 0%nat by lia.
  - destruct fuel as [|fuel]; [reflexivity|]. cbn [newton_loop].
    destruct (newton_step zs x) as [x1| |]; try discriminate. cbn [Py.bind].
    destruct (converged zs x1) as [[]| |]; try discriminate; cbn [Py.bind].
    intros Hit Hle. apply (IH x1); [exact Hit|lia].
Qed.

Lemma cycle_never_ends (n : nat) (zs : list (float * float * float))
  (y : float) :
  (0 < n)%nat -> iterate n zs y = Ret (Some y) ->
  forall fuel, newton_loop fuel zs y = Diverge.
Proof.
  intros Hn Hcycle fuel.
  induction fuel as [fuel IH] using (well_founded_induction lt_wf).
  destruct (le_lt_dec fuel n) as [Hle|Hlt].
  - now apply (newton_loop_short n fuel zs y y).
  - replace fuel with (n + (fuel - n))%nat by lia.
    rewrite (newton_loop_iterate n (fuel - n) zs y y Hcycle).
    apply IH. lia.
Qed.

Lemma recurrence_never_ends (m n : nat) (zs : list (float * float * float))
  (x y : float) :
  (0 < n)%nat -> iterate m zs x = Ret (Some y) ->
  iterate n zs y = Ret (Some y) ->
  forall fuel, newton_loop fuel zs x = Diverge.
Proof.
  intros Hn Hreach Hcycle fuel.
  destruct (le_lt_dec fuel m) as [Hle|Hlt].
  - now apply (newton_loop_short m fuel zs x y).
  - replace fuel with (m + (fuel - m))%nat by lia.
    rewrite (newton_loop_iterate m (fuel - m) zs x y Hreach).
    now apply (cycle_never_ends n).
Qed.

(** The solve does not return when the search through its brackets does
    not. *)
Lemma solve_never_ends (fuel : nat) (ps etas losses denom_zeros : list float)
  (min_loss max_loss : float) :
  Py.mapM denom_zero (zip3 ps etas losses) = Ret denom_zeros ->
  PyFloat.min_list losses = Ret min_loss ->
  PyFloat.max_list losses = Ret max_loss ->
  eqb min_loss max_loss = false ->
  boundary_root (zip3 ps etas losses) denom_zeros min_loss = Ret false ->
  boundary_root (zip3 ps etas losses) denom_zeros max_loss = Ret false ->
  search_brackets fuel (zip3 ps etas losses)
    (zip (removelast (brackets_of denom_zeros min_loss max_loss))
       (tl (brackets_of denom_zeros min_loss max_loss))) = Diverge ->
  log_barrier_omd fuel ps etas losses = Diverge.
Proof.
  intros Hdz Hmin Hmax Hne Hbmin Hbmax Hnz.
  unfold log_barrier_omd, find_lmbda.
  rewrite Hdz. cbn [Py.bind]. rewrite Hmin. cbn [Py.bind].
  rewrite Hmax. cbn [Py.bind]. rewrite Hne, Hbmin. cbn [Py.bind].
  rewrite Hbmax. cbn [Py.bind]. now rewrite Hnz.
Qed.

(** [learn] does not return when the solve does not, and has changed
    nothing by then. *)
Lemma learn_never_ends (fuel : nat) (s : state) (base_actions : list Action)
  (action : Action) (reward probability : float) (losses : list float) :
  Py.mapM (base_loss reward probability action) base_actions = Ret losses ->
  log_barrier_omd fuel (ps s) (etas s) losses = Diverge ->
  learn fuel s base_actions action reward probability = (s, Diverge).
Proof. intros Hl Hs. unfold learn. now rewrite Hl, Hs. Qed.

(** A bracket that fails the sign test is given up before the loop. *)
Lemma newtons_zero_rejects (zs : list (float * float * float))
  (l r fl fr : float) :
  f zs (l + 0.0001) = Ret fl ->
  f zs (r - 0.00001) = Ret fr ->
  leb 0 ((fl - 1) * (fr - 1)) = true ->
  forall fuel, newtons_zero fuel zs l r = Ret None.
Proof.
  intros Hfl Hfr Hsign fuel. unfold newtons_zero.
  rewrite Hfl, Hfr. cbn [Py.bind]. now rewrite Hsign.
Qed.

(** A bracket that passes the sign test and whose iteration comes back
    to an iterate it has been at. *)
Lemma newtons_zero_never_ends (zs : list (float * float * float))
  (l r fl fr y : float) (m n : nat) :
  f zs (l + 0.0001) = Ret fl ->
  f zs (r - 0.00001) = Ret fr ->
  leb 0 ((fl - 1) * (fr - 1)) = false ->
  (0 < n)%nat ->
  iterate m zs ((l + r) / 2) = Ret (Some y) ->
  iterate n zs y = Ret (Some y) ->
  forall fuel, newtons_zero fuel zs l r = Diverge.
Proof.
  intros Hfl Hfr Hsign Hn Hreach Hcycle fuel.
  unfold newtons_zero. rewrite Hfl, Hfr. cbn [Py.bind]. rewrite Hsign.
  now rewrite (recurrence_never_ends m n zs _ y Hn Hreach Hcycle fuel).
Qed.

Lemma newtons_zero_fuel (fuel fuel' : nat)
  (zs : list (float * float * float)) (l r : float) :
  newtons_zero fuel zs l r <> Diverge -> (fuel <= fuel')%nat ->
  newtons_zero fuel' zs l r = newtons_zero fuel zs l r.
Proof.
  unfold newtons_zero. intros Hnd Hle.
  destruct (f zs (l + 0.0001)) as [fl| |]; try reflexivity. cbn [Py.bind] in *.
  destruct (f zs (r - 0.00001)) as [fr| |]; try reflexivity. cbn [Py.bind] in *.
  destruct (leb 0 ((fl - 1) * (fr - 1))); [reflexivity|].
  rewrite (newton_loop_fuel fuel fuel' zs ((l + r) / 2)); [reflexivity| |exact Hle].
  intros E. apply Hnd. now rewrite E.
Qed.

(** C2, amended.  The loop has no iteration cap.  It ends only at an
    iterate that passes the convergence test [round(f(x),4) == 1], which
    it returns, or with an exception of the arithmetic; a run that ends
    does so with the same result for any larger number of iterations
    allowed; and a run that comes back to an iterate it has been at
    never ends, since nothing but [x] is carried from one pass to the
    next. *)
Theorem newton_loop_uncapped (fuel : nat) (zs : list (float * float * float))
  (x0 : float) :
  (forall x, newton_loop fuel zs x0 = Ret x -> converged zs x = Ret true) /\
  (forall fuel', newton_loop fuel zs x0 <> Diverge -> (fuel <= fuel')%nat ->
                 newton_loop fuel' zs x0 = newton_loop fuel zs x0) /\
  (forall m n y, (0 < n)%nat ->
                 iterate m zs x0 = Ret (Some y) ->
                 iterate n zs y = Ret (Some y) ->
                 forall fuel', newton_loop fuel' zs x0 = Diverge).
Proof.
  split; [intros x; apply newton_loop_returns|].
  split; [intros fuel'; apply newton_loop_fuel|].
  intros m n y. apply recurrence_never_ends.
Qed.

Section Runs.

(** C2: [CorralLearner([RandomLearner()]*3, eta=384)], after a [predict]
    in which the three base learners drew the actions 1, 2 and 2, learns
    from action 1 with reward 2^36 + 1 and probability 1.  The losses are
    [[-2^36, -0.0, -0.0]]; the brackets are [-2^36], the pole
    [-2^36 + 2^-7] and [-0.0]; the first bracket passes the sign test.
    Floats next to [-2^36] are [2^-17] apart, so the first denominator
    [3 + 384*(-2^36 - x)] moves in steps of [3/1024] and is never 1.
    From the midpoint [-2^36 + 512 * 2^-17] the iteration goes through
    [-2^36 + k * 2^-17] for [k] = 768, 704, 684 and is, after four
    passes, at [k] = 683, where that denominator is [1023/1024] and [f]
    is 1.00097...: the test fails, the correction [(f(x)-1)/df(x)] is a
    third of the distance to the next float, and [x] stays where it is.
    No number of iterations ends the search, nor the solve that runs
    it, nor the call of [learn]. *)
Lemma newton_search_never_ends :
  init 3 384 = Ret (Demo64.fresh 3 384) /\
  Py.mapM (base_loss 68719476737 1 1%Z) [1; 2; 2]%Z
  = Ret [-68719476736; -0; -0]%float /\
  Py.mapM denom_zero
    (zip3 (ps (Demo64.fresh 3 384)) (etas (Demo64.fresh 3 384))
       [-68719476736; -0; -0]%float)
  = Ret [-68719476735.9921875; 0.0078125; 0.0078125]%float /\
  brackets_of [-68719476735.9921875; 0.0078125; 0.0078125]%float
    (-68719476736) (-0)
  = [-68719476736; -68719476735.9921875; -0]%float /\
  iterate 4 (zip3 (ps (Demo64.fresh 3 384)) (etas (Demo64.fresh 3 384))
               [-68719476736; -0; -0]%float)
    ((-68719476736 + -68719476735.9921875) / 2)%float
  = Ret (Some (-68719476735.99478912353515625)%float) /\
  newton_step (zip3 (ps (Demo64.fresh 3 384)) (etas (Demo64.fresh 3 384))
                 [-68719476736; -0; -0]%float)
    (-68719476735.99478912353515625)
  = Ret (-68719476735.99478912353515625)%float /\
  converged (zip3 (ps (Demo64.fresh 3 384)) (etas (Demo64.fresh 3 384))
               [-68719476736; -0; -0]%float)
    (-68719476735.99478912353515625)
  = Ret false /\
  ~ (exists fuel,
       newtons_zero fuel
         (zip3 (ps (Demo64.fresh 3 384)) (etas (Demo64.fresh 3 384))
            [-68719476736; -0; -0]%float)
         (-68719476736) (-68719476735.9921875) <> Diverge) /\
  ~ (exists fuel,
       log_barrier_omd fuel (ps (Demo64.fresh 3 384))
         (etas (Demo64.fresh 3 384)) [-68719476736; -0; -0]%float
       <> Diverge) /\
  ~ (exists fuel,
       snd (learn fuel (Demo64.fresh 3 384) [1; 2; 2]%Z 1%Z 68719476737 1)
       <> Diverge).
Proof.
  set (zs := zip3 (ps (Demo64.fresh 3 384)) (etas (Demo64.fresh 3 384))
               [-68719476736; -0; -0]%float).
  assert (Hlosses : Py.mapM (base_loss 68719476737 1 1%Z) [1; 2; 2]%Z
                    = Ret [-68719476736; -0; -0]%float)
    by (vm_compute; reflexivity).
  assert (Hreach : iterate 4 zs
                     ((-68719476736 + -68719476735.9921875) / 2)%float
                   = Ret (Some (-68719476735.99478912353515625)%float))
    by (vm_compute; reflexivity).
  assert (Hstep : newton_step zs (-68719476735.99478912353515625)
                  = Ret (-68719476735.99478912353515625)%float)
    by (vm_compute; reflexivity).
  assert (Hconv : converged zs (-68719476735.99478912353515625) = Ret false)
    by (vm_compute; reflexivity).
  assert (Hnz : forall fuel,
            newtons_zero fuel zs (-68719476736) (-68719476735.9921875)
            = Diverge).
  { eapply (newtons_zero_never_ends zs _ _ _ _ _ 4 1);
      [vm_compute; reflexivity|vm_compute; reflexivity|vm_compute; reflexivity
      |lia|exact Hreach|].
    cbn [iterate]. rewrite Hstep. cbn [Py.bind]. rewrite Hconv. reflexivity. }
  assert (Hsolve : forall fuel,
            log_barrier_omd fuel (ps (Demo64.fresh 3 384))
              (etas (Demo64.fresh 3 384)) [-68719476736; -0; -0]%float
            = Diverge).
  { intros fuel.
    eapply (solve_never_ends fuel _ _ _ _ (-68719476736) (-0));
      [vm_compute; reflexivity|reflexivity|reflexivity|reflexivity
      |vm_compute; reflexivity|vm_compute; reflexivity|].
    assert (Hbr : zip (removelast
                         (brackets_of
                            [-68719476735.9921875; 0.0078125; 0.0078125]%float
                            (-68719476736) (-0)))
                    (tl (brackets_of
                           [-68719476735.9921875; 0.0078125; 0.0078125]%float
                           (-68719476736) (-0)))
                  = [(-68719476736, -68719476735.9921875);
                     (-68719476735.9921875, -0)]%float)
      by (vm_compute; reflexivity).
    rewrite Hbr. cbn [search_brackets]. fold zs. now rewrite Hnz. }
  split; [vm_compute; reflexivity|]. split; [exact Hlosses|].
  split; [vm_compute; reflexivity|].
  split; [vm_compute; reflexivity|].
  split; [exact Hreach|]. split; [exact Hstep|]. split; [exact Hconv|].
  split; [|split].
  - intros [fuel Hfuel]. apply Hfuel, Hnz.
  - intros [fuel Hfuel]. apply Hfuel, Hsolve.
  - intros [fuel Hfuel]. apply Hfuel.
    now rewrite (learn_never_ends fuel _ _ _ _ _ _ Hlosses (Hsolve fuel)).
Qed.

(** Rewards in [[0,1]] lead there too.  [CorralLearner([RandomLearner()]*3,
    eta=1)] learns three times with reward 0: for an action offered with
    probability 0.2 that only the second base learner drew (losses
    [[0, 5, 0]]), for one offered with probability 0.1 that only the
    third drew ([[0, 0, 10]]), and for one offered with probability 0.1
    that only the first drew ([[10, 0, 0]]).  The first and the third
    base learner have then met the same losses, and their weights differ
    in the last bits only: 0.6449506233051604 and 0.6449506233051606
    (the second is at the floor 0.00001).  A fourth [learn] with reward
    0 for an action offered with probability 0.02 that only the second
    base learner drew (losses [[0, 50, 0]]) has two poles two floats
    apart.  The bracket from 0 to the lower pole fails the sign test;
    the bracket between the two poles passes it, since the test looks at
    points outside of it; at its midpoint [f] is 0, [df] is 4e31, and
    the correction is far below the distance to the next float: the
    search stays at the midpoint, and [learn] never returns. *)
Lemma ordinary_calls_reach_a_stuck_search :
  init 3 1 = Ret (Demo64.fresh 3 1) /\
  (snd (learn 100 (Demo64.fresh 3 1) [1; 2; 1]%Z 2%Z 0 0.2) = Ret tt /\
   snd (learn 100 Demo64.after_one_call [1; 1; 2]%Z 2%Z 0 0.1) = Ret tt /\
   snd (learn 100 Demo64.after_two_calls [2; 1; 1]%Z 2%Z 0 0.1) = Ret tt) /\
  (ps Demo64.after_three_calls
   = [0.6449506233051604; 0.00001; 0.6449506233051606]%float /\
   etas Demo64.after_three_calls = [1; 1; 1]%float) /\
  Py.mapM (base_loss 0 0.02 2%Z) [1; 2; 1]%Z = Ret [0; 50; 0]%float /\
  brackets_of [1.550506292831113; 100049.99999999999; 1.5505062928311126]%float
    0 50
  = [0; 1.5505062928311126; 1.550506292831113; 50]%float /\
  newtons_zero 0
    (zip3 (ps Demo64.after_three_calls) (etas Demo64.after_three_calls)
       [0; 50; 0]%float) 0 1.5505062928311126
  = Ret None /\
  newton_step
    (zip3 (ps Demo64.after_three_calls) (etas Demo64.after_three_calls)
       [0; 50; 0]%float)
    ((1.5505062928311126 + 1.550506292831113) / 2)
  = Ret ((1.5505062928311126 + 1.550506292831113) / 2)%float /\
  converged
    (zip3 (ps Demo64.after_three_calls) (etas Demo64.after_three_calls)
       [0; 50; 0]%float)
    ((1.5505062928311126 + 1.550506292831113) / 2)
  = Ret false /\
  ~ (exists fuel,
       snd (learn fuel Demo64.after_three_calls [1; 2; 1]%Z 2%Z 0 0.02)
       <> Diverge).
Proof.
  set (zs := zip3 (ps Demo64.after_three_calls)
               (etas Demo64.after_three_calls) [0; 50; 0]%float).
  assert (Hlosses : Py.mapM (base_loss 0 0.02 2%Z) [1; 2; 1]%Z
                    = Ret [0; 50; 0]%float) by (vm_compute; reflexivity).
  assert (Hstep : newton_step zs ((1.5505062928311126 + 1.550506292831113) / 2)
                  = Ret ((1.5505062928311126 + 1.550506292831113) / 2)%float)
    by (vm_compute; reflexivity).
  assert (Hconv : converged zs ((1.5505062928311126 + 1.550506292831113) / 2)
                  = Ret false) by (vm_compute; reflexivity).
  assert (Hfirst : forall fuel,
            newtons_zero fuel zs 0 1.5505062928311126 = Ret None).
  { eapply newtons_zero_rejects; vm_compute; reflexivity. }
  assert (Hnz : forall fuel,
            newtons_zero fuel zs 1.5505062928311126 1.550506292831113
            = Diverge).
  { eapply (newtons_zero_never_ends zs _ _ _ _ _ 0 1);
      [vm_compute; reflexivity|vm_compute; reflexivity|vm_compute; reflexivity
      |lia|reflexivity|].
    cbn [iterate]. rewrite Hstep. cbn [Py.bind]. rewrite Hconv. reflexivity. }
  assert (Hsolve : forall fuel,
            log_barrier_omd fuel (ps Demo64.after_three_calls)
              (etas Demo64.after_three_calls) [0; 50; 0]%float = Diverge).
  { intros fuel.
    eapply (solve_never_ends fuel _ _ _ _ 0 50);
      [vm_compute; reflexivity|reflexivity|reflexivity|reflexivity
      |vm_compute; reflexivity|vm_compute; reflexivity|].
    assert (Hbr : zip (removelast
                         (brackets_of
                            [1.550506292831113; 100049.99999999999;
                             1.5505062928311126]%float 0 50))
                    (tl (brackets_of
                           [1.550506292831113; 100049.99999999999;
                            1.5505062928311126]%float 0 50))
                  = [(0, 1.5505062928311126);
                     (1.5505062928311126, 1.550506292831113);
                     (1.550506292831113, 50)]%float)
      by (vm_compute; reflexivity).
    rewrite Hbr. cbn [search_brackets]. fold zs.
    rewrite Hfirst. cbn [Py.bind]. now rewrite Hnz. }
  split; [vm_compute; reflexivity|].
  split; [repeat split; vm_compute; reflexivity|].
  split; [split; vm_compute; reflexivity|].
  split; [exact Hlosses|]. split; [vm_compute; reflexivity|].
  split; [apply Hfirst|]. split; [exact Hstep|]. split; [exact Hconv|].
  intros [fuel Hfuel]. apply Hfuel.
  now rewrite (learn_never_ends fuel _ _ _ _ _ _ Hlosses (Hsolve fuel)).
Qed.

(** Ten base learners, [eta = 100], losses nine 1s and one 0 (the first
    [learn] of a fresh learner, with reward 0 and probability 1, when
    nine base learners drew the realized action).  The first bracket,
    from 0 to the pole at 0.1, passes the sign test; from the midpoint
    the iterates leave both poles behind and grow from pass to pass, to
    1.5e186 after ten passes; on the eleventh the square in [df] is out
    of range.  The search ends with [OverflowError], whatever the number
    of iterations allowed beyond ten. *)
Lemma escaping_search_overflows :
  iterate 10 (zip3 (repeat (1 / 10)%float 10) (repeat 100%float 10)
                [1; 1; 1; 1; 1; 1; 1; 1; 1; 0]%float) ((0 + 0.1) / 2)
  = Ret (Some 1.5131943693693961e+186%float) /\
  (forall fuel, (11 <= fuel)%nat ->
     newtons_zero fuel
       (zip3 (repeat (1 / 10)%float 10) (repeat 100%float 10)
          [1; 1; 1; 1; 1; 1; 1; 1; 1; 0]%float) 0 0.1
     = Raise OverflowError) /\
  log_barrier_omd 11 (repeat (1 / 10)%float 10) (repeat 100%float 10)
    [1; 1; 1; 1; 1; 1; 1; 1; 1; 0]%float
  = Raise OverflowError.
Proof.
  split; [vm_compute; reflexivity|]. split; [|vm_compute; reflexivity].
  intros fuel Hle.
  assert (E : newtons_zero 11
                (zip3 (repeat (1 / 10)%float 10) (repeat 100%float 10)
                   [1; 1; 1; 1; 1; 1; 1; 1; 1; 0]%float) 0 0.1
              = Raise OverflowError) by (vm_compute; reflexivity).
  rewrite <- E. apply newtons_zero_fuel; [|exact Hle].
  rewrite E. discriminate.
Qed.

(** C2 at two searches: one that returns (two base learners, [eta = 20],
    losses [[1, 0]], the bracket from 0 to the pole at 0.1), and the one
    that is stuck. *)
Lemma newton_loop_uncapped_witness :
  (exists x,
     newton_loop 2 (zip3 (repeat (1 / 2)%float 2) (repeat 20%float 2)
                      [1; 0]%float) ((0 + 0.1) / 2)
     = Ret x /\
     converged (zip3 (repeat (1 / 2)%float 2) (repeat 20%float 2)
                  [1; 0]%float) x = Ret true) /\
  newton_loop 1000
    (zip3 (repeat (1 / 3)%float 3) (repeat 384%float 3)
       [-68719476736; -0; -0]%float)
    (-68719476735.99478912353515625)
  = Diverge.
Proof.
  split.
  - eexists. split; [vm_compute; reflexivity|].
    eapply (proj1 (newton_loop_uncapped 2 _ ((0 + 0.1) / 2))).
    vm_compute. reflexivity.
  - apply (proj2 (proj2 (newton_loop_uncapped 0 _ _)) 0%nat 1%nat
             (-68719476735.99478912353515625)%float).
    + lia.
    + reflexivity.
    + vm_compute. reflexivity.
Defined.

End Runs.
End SolveFloatFacts.

(** ** The contract of the learners *)

Module ContractFacts.
Import PyFacts GreedyFacts SimpleLearnerFacts UcbFacts CorralFacts.

Section Contract.
Context `{Externals}.

(** C9.  From a freshly constructed [UcbTunedLearner], whatever calls of
    [learn] come in between, the [k]-th call of [predict] on the same
    number [n >= k] of actions returns the one-hot vector of index
    [k-1]: 1 at that index, 0 elsewhere, summing to 1.  The branch
    taken does not evaluate any confidence bound. *)
Theorem warm_up_selects_in_order (actions : list Action)
  (calls : list UcbTunedLearner.call) (key : Key) (context : Context) :
  forallb (UcbTunedLearner.predicts_on (length actions)) calls = true ->
  (length (List.filter UcbTunedLearner.is_predict calls) < length actions)%nat ->
  snd (UcbTunedLearner.predict
         (UcbTunedLearner.run UcbTunedLearner.init calls) key context actions)
  = Ret (UcbTunedLearner.one_hot
           (length (List.filter UcbTunedLearner.is_predict calls))
           (length actions)) /\
  (forall i, (i < length actions)%nat ->
     UcbTunedLearner.one_hot
       (length (List.filter UcbTunedLearner.is_predict calls))
       (length actions) !! i
     = Some (if Nat.eqb i (length (List.filter UcbTunedLearner.is_predict calls))
             then 1 else 0)) /\
  Py.sum (UcbTunedLearner.one_hot
            (length (List.filter UcbTunedLearner.is_predict calls))
            (length actions)) == 1.
Proof.
  intros Hall Hk.
  pose proof (init_a_run (length actions) calls UcbTunedLearner.init Hall) as Hrun.
  cbn [UcbTunedLearner.init_a UcbTunedLearner.init] in Hrun.
  rewrite Nat.add_0_l in Hrun. specialize (Hrun ltac:(lia)).
  rewrite predict_warm_up by (rewrite Hrun; exact Hk).
  cbn [snd]. rewrite Hrun.
  destruct (one_hot_spec _ _ Hk) as (_ & _ & Hsum & Hat). auto.
Qed.


(** C8, amended.  No method checks its arguments.  An empty action list
    makes [predict] fail all the same, with the exception of the first
    operation that cannot cope with it: [ZeroDivisionError] in
    [RandomLearner], [ValueError] in [EpsilonLearner] and
    [UcbTunedLearner], and the exception of its first base learner in
    [CorralLearner].  A reward is never rejected and never clamped:
    [UcbTunedLearner.learn] records the first reward of an action as it
    is, whatever its value. *)
Theorem arguments_are_not_checked :
  (forall key context,
     RandomLearner.predict key context [] = Raise ZeroDivisionError) /\
  (forall s key context,
     EpsilonLearner.predict s key context [] = Raise ValueError) /\
  (forall s key context,
     UcbTunedLearner.predict s key context [] = (s, Raise ValueError)) /\
  (forall s b bs key context,
     Py.raises (snd (CorralLearner.predict
                       (CorralLearner.with_learners s (b :: bs))
                       key context []))) /\
  (forall s key context action reward probability,
     UcbTunedLearner.m s !! action = None ->
     snd (UcbTunedLearner.learn s key context action reward probability)
     = Ret tt /\
     UcbTunedLearner.m
       (fst (UcbTunedLearner.learn s key context action reward probability))
       !! action = Some reward).
Proof.
  split; [|split; [|split; [|split]]].
  - reflexivity.
  - reflexivity.
  - reflexivity.
  - intros s b bs key context. unfold CorralLearner.predict.
    cbn [CorralLearner.base_learners CorralLearner.with_learners
         CorralLearner.predicts_of].
    destruct b as [|e|u]; cbn.
    + now eexists.
    + now eexists.
    + now eexists.
  - intros s key context action reward probability Hm.
    unfold UcbTunedLearner.learn. rewrite Hm. cbn.
    split; [reflexivity|]. apply lookup_insert_eq.
Qed.

End Contract.

(** *** Concrete runs *)

Section Runs.
#[local] Existing Instance Demo.externals.

(** C9 with three actions: after two rounds the third [predict] selects
    the third action. *)
Lemma warm_up_selects_in_order_witness :
  snd (UcbTunedLearner.predict
         (UcbTunedLearner.run UcbTunedLearner.init
            [UcbTunedLearner.Predict 1%Z None [10; 20; 30]%Z;
             UcbTunedLearner.Learn 1%Z None 10%Z 1 1;
             UcbTunedLearner.Predict 2%Z None [10; 20; 30]%Z;
             UcbTunedLearner.Learn 2%Z None 20%Z 0 1])
         3%Z None [10; 20; 30]%Z)
  = Ret [0; 0; 1].
Proof.
  apply (fun H1 H2 =>
           proj1 (@warm_up_selects_in_order Demo.externals [10; 20; 30]%Z
                    [UcbTunedLearner.Predict 1%Z None [10; 20; 30]%Z;
                     UcbTunedLearner.Learn 1%Z None 10%Z 1 1;
                     UcbTunedLearner.Predict 2%Z None [10; 20; 30]%Z;
                     UcbTunedLearner.Learn 2%Z None 20%Z 0 1]
                    3%Z None H1 H2)).
  - reflexivity.
  - simpl. lia.
Defined.


Lemma arguments_are_not_checked_witness :
  UcbTunedLearner.m
    (fst (UcbTunedLearner.learn UcbTunedLearner.init 1%Z None 10%Z 2 1))
    !! 10%Z = Some 2.
Proof.
  apply (proj2 (proj2 (proj2 (proj2 (@arguments_are_not_checked Demo.externals))))).
  reflexivity.
Defined.

(** C8: a reward of 2, outside [[0,1]], is accepted by
    [UcbTunedLearner.learn] and by [CorralLearner.learn]; both return
    normally. *)
Lemma reward_out_of_range_is_accepted :
  ~ (0 <= 2 <= 1) /\
  snd (UcbTunedLearner.learn UcbTunedLearner.init 1%Z None 10%Z 2 1) = Ret tt /\
  snd (CorralLearner.learn 3
         (fst (CorralLearner.predict
                 (Demo.corral [CorralLearner.Random; CorralLearner.Random]
                    (1 # 2) 0 (1 / 1) [1; 2]%Z)
                 7%Z None [1; 2]%Z))
         7%Z None 1%Z 2 1) = Ret tt /\
  ~ Py.fails_with
      (snd (UcbTunedLearner.learn UcbTunedLearner.init 1%Z None 10%Z 2 1))
      InvalidArgument.
Proof.
  split; [intros [_ Hle]; apply Qle_bool_iff in Hle; discriminate|].
  split; [reflexivity|]. split; [vm_compute; reflexivity|].
  intros (e & [=] & _).
Qed.
End Runs.
End ContractFacts.

(** ** EpsilonLearner: what [predict] returns and what [learn] records *)

Module EpsilonFacts.
Import PyFacts GreedyFacts SimpleLearnerFacts.
Import EpsilonLearner.

Lemma fold_max_ge (xs : list Q) (x y : Q) :
  In y (x :: xs) -> y <= fold_left Py.max xs x.
Proof.
  revert x y. induction xs as [|z xs IH]; intros x y Hin; cbn [fold_left].
  - destruct Hin as [->|[]]. lra.
  - assert (Hx : x <= Py.max x z /\ z <= Py.max x z).
    { unfold Py.max. destruct (Py.Qlt_bool x z) eqn:E.
      - apply Qlt_bool_iff in E. lra.
      - apply Qlt_bool_false in E. lra. }
    destruct Hin as [->|[->|Hin]].
    + apply Qle_trans with (Py.max y z); [apply Hx|]. apply IH. now left.
    + apply Qle_trans with (Py.max x y); [apply Hx|]. apply IH. now left.
    + apply IH. now right.
Qed.

Lemma filter_range_length {A} (P : A -> bool) (l : list A) :
  length (List.filter (fun i => match l !! i with
                                | Some x => P x
                                | None => false
                                end) (Py.range (length l)))
  = length (List.filter P l).
Proof.
  induction l as [|x l IH] using rev_ind; [reflexivity|].
  rewrite length_app, Nat.add_1_r. unfold Py.range in *.
  rewrite seq_S, !List.filter_app, !length_app. cbn [seq List.filter plus].
  rewrite list_lookup_middle by reflexivity.
  f_equal; [|now destruct (P x)].
  rewrite <- IH. f_equal. apply filter_ext_in. intros i Hi.
  apply in_seq in Hi. rewrite lookup_app_l by lia. reflexivity.
Qed.

Lemma not_None_Some {A} (g : A -> Q) (l : list A) :
  Greedy.not_None (map (fun a => Some (g a)) l) = map g l.
Proof.
  unfold Greedy.not_None. induction l as [|a l IH]; [reflexivity|].
  cbn [map]. simpl. now f_equal.
Qed.

Lemma only_None_Some {A} (g : A -> Q) (l : list A) :
  Greedy.only_None (map (fun a => Some (g a)) l) = false.
Proof. destruct l; reflexivity. Qed.

(** [predict] entry by entry: [epsilon/n] for every action, and an equal
    share of [1-epsilon] for each of the [k] actions whose estimate is the
    largest. *)
Lemma predict_entries (s : state) (key : Key) (context : Context)
  (actions : list Action) :
  actions <> [] ->
  exists out best,
    predict s key context actions = Ret out /\
    length out = length actions /\
    In best (map (fun a => Q_get s (key_ s context a)) actions) /\
    Forall (fun a => Q_get s (key_ s context a) <= best) actions /\
    forall i a, actions !! i = Some a ->
      exists x, out !! i = Some x /\
        x == 1 / Py.of_nat (length actions) * epsilon s
             + Py.int (Qeq_bool (Q_get s (key_ s context a)) best)
               / Py.of_nat
                   (length (List.filter
                              (fun a => Qeq_bool (Q_get s (key_ s context a)) best)
                              actions))
               * (1 - epsilon s).
Proof.
  intros Hne. unfold predict. rewrite map_map. unfold Greedy.max_value.
  set (g := fun a => Q_get s (key_ s context a)).
  change (map (fun x => Some (Q_get s (key_ s context x))) actions)
    with (map (fun a => Some (g a)) actions).
  rewrite only_None_Some, not_None_Some.
  set (values := map (fun a => Some (g a)) actions).
  assert (Hlen : length values = length actions) by (subst values; apply length_map).
  assert (Hall : forall q qs, map g actions = q :: qs ->
                   Forall (fun a => g a <= fold_left Py.max qs q) actions).
  { intros q qs Eq. apply List.Forall_forall. intros a Ha.
    apply fold_max_ge. rewrite <- Eq. apply in_map_iff. eauto. }
  destruct (map g actions) as [|q qs] eqn:Eq.
  { destruct actions; [contradiction|discriminate]. }
  specialize (Hall q qs eq_refl).
  cbn [Py.max_list Py.bind].
  set (best := fold_left Py.max qs q) in *.
  set (mi := Greedy.max_indexes values (Some best)).
  assert (Hbest : In best (q :: qs)) by apply fold_max_In.
  assert (Hmi : length mi
                = length (List.filter (fun a => Qeq_bool (g a) best) actions)).
  { subst mi. unfold Greedy.max_indexes.
    rewrite <- (filter_range_length (fun a => Qeq_bool (g a) best) actions).
    rewrite Hlen. f_equal. apply filter_ext. intros i. subst values.
    rewrite list_lookup_fmap. destruct (actions !! i); reflexivity. }
  assert (Hk : 0 < Py.of_nat (length mi)).
  { apply of_nat_pos. rewrite Hmi.
    pose proof Hbest as Hb. rewrite <- Eq in Hb.
    apply in_map_iff in Hb as (a & Ha & Hin).
    assert (Hf : In a (List.filter (fun a => Qeq_bool (g a) best) actions)).
    { apply filter_In. split; [exact Hin|]. apply Qeq_bool_iff. now rewrite Ha. }
    destruct (List.filter _ actions); [destruct Hf|discriminate]. }
  assert (Hn : 0 < Py.of_nat (length actions)).
  { apply of_nat_pos. destruct actions; [contradiction|discriminate]. }
  rewrite div_ret by lra. cbn [Py.bind].
  set (h := fun i : nat => Py.int (Greedy.mem i mi) / Py.of_nat (length mi)
                           * (1 - epsilon s)).
  rewrite (mapM_total _ h).
  2:{ apply List.Forall_forall. intros i _. rewrite div_ret by lra. reflexivity. }
  cbn [Py.bind].
  assert (Hhl : length (map h (Py.range (length actions))) = length actions).
  { now rewrite length_map, range_length. }
  set (a0 := 1 / Py.of_nat (length actions) * epsilon s).
  replace (zip_with Qplus (repeat a0 (length actions))
             (map h (Py.range (length actions))))
    with (map (Qplus a0) (map h (Py.range (length actions))))
    by (rewrite <- zip_with_repeat; now rewrite Hhl).
  eexists _, best. split; [reflexivity|]. split; [now rewrite length_map|].
  split; [exact Hbest|]. split; [exact Hall|].
  intros i a Hi.
  assert (Hlt : (i < length actions)%nat) by (eapply lookup_lt_Some; eauto).
  exists (a0 + h i). split.
  - rewrite !list_lookup_fmap. unfold Py.range.
    rewrite lookup_seq_lt by exact Hlt. reflexivity.
  - assert (Hmem : Greedy.mem i mi = Qeq_bool (g a) best).
    { subst mi. unfold Greedy.max_indexes. rewrite mem_filter.
      rewrite mem_In by (apply in_seq; lia).
      subst values. rewrite list_lookup_fmap, Hi. reflexivity. }
    subst a0 h. cbn beta. rewrite Hmem, Hmi. reflexivity.
Qed.

Lemma sum_snoc (l : list Q) (x : Q) : Py.sum (l ++ [x]) = Py.sum l + x.
Proof. unfold Py.sum. now rewrite fold_left_app. Qed.

Lemma learn_returns (s : state) (key : Key) (context : Context)
  (action : Action) (reward probability : Q) :
  learn s key context action reward probability
  = ({| epsilon := epsilon s; include_context := include_context s;
        N := <[key_ s context action := (N_get s (key_ s context action) + 1)%nat]> (N s);
        Q_ := <[key_ s context action :=
                  (1 - 1 / Py.of_nat (N_get s (key_ s context action) + 1))
                  * Q_get s (key_ s context action)
                  + 1 / Py.of_nat (N_get s (key_ s context action) + 1) * reward]>
                (Q_ s) |},
     Ret tt).
Proof.
  unfold learn. rewrite div_ret; [reflexivity|].
  assert (0 < Py.of_nat (N_get s (key_ s context action) + 1))
    by (apply of_nat_pos; lia).
  lra.
Qed.

Lemma run_parameters (s : state) (calls : list EpsilonHistory.learn_call) :
  epsilon (EpsilonHistory.run s calls) = epsilon s /\
  include_context (EpsilonHistory.run s calls) = include_context s.
Proof.
  revert s. induction calls as [|c calls IH]; intros s; [auto|].
  cbn [EpsilonHistory.run fold_left]. fold (EpsilonHistory.run).
  change (fold_left EpsilonHistory.run_call calls ?s')
    with (EpsilonHistory.run s' calls).
  destruct (IH (EpsilonHistory.run_call s c)) as [-> ->].
  unfold EpsilonHistory.run_call. rewrite learn_returns. auto.
Qed.

Lemma run_snoc (s : state) (calls : list EpsilonHistory.learn_call)
  (c : EpsilonHistory.learn_call) :
  EpsilonHistory.run s (calls ++ [c])
  = EpsilonHistory.run_call (EpsilonHistory.run s calls) c.
Proof. unfold EpsilonHistory.run. now rewrite fold_left_app. Qed.

Lemma rewards_for_snoc (s : state) (k : option Context * Action)
  (calls : list EpsilonHistory.learn_call) (c : EpsilonHistory.learn_call) :
  EpsilonHistory.rewards_for s k (calls ++ [c])
  = EpsilonHistory.rewards_for s k calls
    ++ (if bool_decide (key_ s (EpsilonHistory.context c)
                          (EpsilonHistory.action c) = k)
        then [EpsilonHistory.reward c] else []).
Proof.
  unfold EpsilonHistory.rewards_for.
  rewrite List.filter_app, map_app. cbn [List.filter].
  now case_bool_decide.
Qed.

Lemma of_nat_nonneg (n : nat) : 0 <= Py.of_nat n.
Proof.
  unfold Py.of_nat. change 0 with (inject_Z 0). rewrite <- Zle_Qle. lia.
Qed.

(** What one [learn] does to the entry of a table key [k]. *)
Lemma learn_entry (s : state) (key : Key) (context : Context)
  (action : Action) (reward probability : Q) (k : option Context * Action) :
  N_get (fst (learn s key context action reward probability)) k
  = (if bool_decide (key_ s context action = k)
     then (N_get s k + 1)%nat else N_get s k) /\
  Q_get (fst (learn s key context action reward probability)) k
  = (if bool_decide (key_ s context action = k)
     then (1 - 1 / Py.of_nat (N_get s k + 1)) * Q_get s k
          + 1 / Py.of_nat (N_get s k + 1) * reward
     else Q_get s k).
Proof.
  rewrite learn_returns. cbn [fst]. unfold N_get, Q_get. cbn [N Q_].
  case_bool_decide as Hd.
  - rewrite Hd, !lookup_insert_eq. auto.
  - rewrite !lookup_insert_ne by exact Hd. auto.
Qed.

(** The table after a history of [learn] calls: the counter of a key is
    the number of rewards learned for it, its estimate times the counter
    is their sum. *)
Lemma run_tally (s0 : state) (calls : list EpsilonHistory.learn_call)
  (k : option Context * Action) :
  N s0 = ∅ -> Q_ s0 = ∅ ->
  N_get (EpsilonHistory.run s0 calls) k
  = length (EpsilonHistory.rewards_for s0 k calls) /\
  Q_get (EpsilonHistory.run s0 calls) k
  * Py.of_nat (length (EpsilonHistory.rewards_for s0 k calls))
  == Py.sum (EpsilonHistory.rewards_for s0 k calls) /\
  (EpsilonHistory.rewards_for s0 k calls = [] ->
   Q_get (EpsilonHistory.run s0 calls) k = 0).
Proof.
  intros HN HQ. induction calls as [|c calls IH] using rev_ind.
  - unfold N_get, Q_get. cbn. rewrite HN, HQ, !lookup_empty. cbn.
    split; [reflexivity|]. split; [vm_compute|]; reflexivity.
  - destruct IH as (IHn & IHq & IH0).
    rewrite run_snoc, rewards_for_snoc.
    set (s := EpsilonHistory.run s0 calls) in *.
    set (rs := EpsilonHistory.rewards_for s0 k calls) in *.
    unfold EpsilonHistory.run_call.
    destruct (learn_entry s (EpsilonHistory.key c) (EpsilonHistory.context c)
                (EpsilonHistory.action c) (EpsilonHistory.reward c)
                (EpsilonHistory.probability c) k) as [-> ->].
    assert (Hk : key_ s (EpsilonHistory.context c) (EpsilonHistory.action c)
                 = key_ s0 (EpsilonHistory.context c) (EpsilonHistory.action c)).
    { unfold key_. subst s. now rewrite (proj2 (run_parameters s0 calls)). }
    rewrite Hk. case_bool_decide as Hd.
    + rewrite length_app. cbn [length]. rewrite IHn.
      split; [reflexivity|]. split; [|intros E; now destruct rs].
      rewrite sum_snoc.
      replace (length rs + 1)%nat with (S (length rs)) by lia.
      pose proof (of_nat_S (length rs)) as HS.
      pose proof (of_nat_nonneg (length rs)) as Hn0.
      set (n' := Py.of_nat (S (length rs))) in *.
      set (q := Q_get s k) in *. clearbody q n'.
      assert (Hstep : ((1 - 1 / n') * q + 1 / n' * EpsilonHistory.reward c) * n'
                      == (n' - 1) * q + EpsilonHistory.reward c)
        by (field; lra).
      rewrite Hstep, <- IHq, HS. ring.
    + rewrite app_nil_r. auto.
Qed.

(** X1.  The estimate an [EpsilonLearner] keeps for a table key is the
    arithmetic mean of the rewards learned for that key (0 before the
    first), its counter is their number, and [learn] never raises. *)
Theorem learn_records_mean (epsilon0 : Q) (include_context0 : bool)
  (calls : list EpsilonHistory.learn_call) (k : option Context * Action) :
  N_get (EpsilonHistory.run (init epsilon0 include_context0) calls) k
  = length (EpsilonHistory.rewards_for (init epsilon0 include_context0) k calls) /\
  Q_get (EpsilonHistory.run (init epsilon0 include_context0) calls) k
  == match EpsilonHistory.rewards_for (init epsilon0 include_context0) k calls with
     | [] => 0
     | rs => Py.sum rs / Py.of_nat (length rs)
     end /\
  (forall key context action reward probability,
     snd (learn (EpsilonHistory.run (init epsilon0 include_context0) calls)
            key context action reward probability) = Ret tt).
Proof.
  destruct (run_tally (init epsilon0 include_context0) calls k eq_refl eq_refl)
    as (Hn & Hq & H0).
  split; [exact Hn|]. split; [|intros; now rewrite learn_returns].
  destruct (EpsilonHistory.rewards_for _ k calls) as [|r rs] eqn:E.
  - now rewrite H0.
  - assert (0 < Py.of_nat (length (r :: rs))) by (apply of_nat_pos; discriminate).
    cbv zeta.
    apply Qmult_inj_r with (z := Py.of_nat (length (r :: rs))); [lra|].
    etransitivity; [exact Hq|]. field. lra.
Qed.

(** X2.  On a non-empty action list [predict] gives every action
    [epsilon/n] and divides [1-epsilon] equally among the actions whose
    estimate is the largest; no other action gets more than [epsilon/n]. *)
Theorem greedy_share (s : state) (key : Key) (context : Context)
  (actions : list Action) :
  actions <> [] ->
  exists out best,
    predict s key context actions = Ret out /\
    length out = length actions /\
    In best (map (fun a => Q_get s (key_ s context a)) actions) /\
    Forall (fun a => Q_get s (key_ s context a) <= best) actions /\
    forall i a, actions !! i = Some a ->
      exists x, out !! i = Some x /\
        x == 1 / Py.of_nat (length actions) * epsilon s
             + (if Qeq_bool (Q_get s (key_ s context a)) best
                then 1 / Py.of_nat
                           (length (List.filter
                                      (fun a => Qeq_bool (Q_get s (key_ s context a)) best)
                                      actions))
                else 0)
               * (1 - epsilon s).
Proof.
  intros Hne.
  destruct (predict_entries s key context actions Hne)
    as (out & best & Hout & Hlen & Hin & Hall & Hentries).
  exists out, best. repeat (split; [assumption|]).
  intros i a Hi. destruct (Hentries i a Hi) as (x & Hx & Hval).
  exists x. split; [exact Hx|]. rewrite Hval.
  destruct (Qeq_bool (Q_get s (key_ s context a)) best); cbn [Py.int].
  - reflexivity.
  - unfold Qdiv. ring.
Qed.

End EpsilonFacts.

(** ** UcbTunedLearner: counters, means and confidence bounds *)

Module UcbHistoryFacts.
Import PyFacts GreedyFacts SimpleLearnerFacts UcbFacts EpsilonFacts.

Section Ucb.
Context `{Externals}.
Import UcbTunedLearner.

Lemma ucb_run_snoc (s : state) (calls : list call) (c : call) :
  run s (calls ++ [c]) = run_call (run s calls) c.
Proof. unfold run. now rewrite fold_left_app. Qed.

Lemma rewards_of_snoc (a : Action) (calls : list call) (c : call) :
  UcbHistory.rewards_of a (calls ++ [c])
  = UcbHistory.rewards_of a calls
    ++ match UcbHistory.reward_of a c with Some r => [r] | None => [] end.
Proof.
  unfold UcbHistory.rewards_of. rewrite omap_app. cbn.
  now destruct (UcbHistory.reward_of a c).
Qed.

Lemma learns_snoc (calls : list call) (c : call) :
  UcbHistory.learns (calls ++ [c])
  = (UcbHistory.learns calls + if is_predict c then 0 else 1)%nat.
Proof.
  unfold UcbHistory.learns. rewrite List.filter_app, length_app. cbn.
  now destruct (is_predict c).
Qed.

Lemma predict_keeps (s : state) (key : Key) (context : Context)
  (actions : list Action) :
  t (fst (predict s key context actions)) = t s /\
  s_ (fst (predict s key context actions)) = s_ s /\
  m (fst (predict s key context actions)) = m s /\
  v (fst (predict s key context actions)) = v s.
Proof.
  unfold predict. destruct (init_a s <? length actions)%nat; cbn; auto.
Qed.

(** The tables of a learner after a history of calls, for one action:
    counter, mean and variance accumulator. *)
Lemma ucb_run_tally (calls : list call) :
  forall a : Action,
  t (run init calls) = UcbHistory.learns calls /\
  s_get (run init calls) a = length (UcbHistory.rewards_of a calls) /\
  v_get (run init calls) a
  = fold_left OnlineVariance_update (UcbHistory.rewards_of a calls)
      OnlineVariance_new /\
  match UcbHistory.rewards_of a calls with
  | [] => m (run init calls) !! a = None
  | [r] => m (run init calls) !! a = Some r
  | _ :: rest =>
      exists x, m (run init calls) !! a = Some x /\
                x * Py.of_nat (length rest) == Py.sum rest
  end.
Proof.
  induction calls as [|c calls IH] using rev_ind; intros a.
  - cbn. unfold s_get, v_get. cbn. rewrite !lookup_empty. auto.
  - rewrite ucb_run_snoc, rewards_of_snoc, learns_snoc.
    set (s := run init calls) in *.
    destruct c as [key context actions|key context action reward probability];
      cbn [run_call UcbHistory.reward_of is_predict].
    + destruct (IH a) as (IHt & IHs & IHv & IHm).
      destruct (predict_keeps s key context actions) as (Et & Es & Em & Ev).
      unfold s_get, v_get. rewrite Et, Es, Em, Ev, app_nil_r, Nat.add_0_r.
      auto.
    + assert (Hnew : exists x,
                fst (learn s key context action reward probability)
                = {| init_a := init_a s; t := (t s + 1)%nat;
                     s_ := <[action := (s_get s action + 1)%nat]> (s_ s);
                     m := <[action := x]> (m s);
                     v := <[action := OnlineVariance_update
                                        (v_get s action) reward]> (v s) |} /\
                match UcbHistory.rewards_of action calls ++ [reward] with
                | [] => False
                | [r] => x = r
                | _ :: rest => x * Py.of_nat (length rest) == Py.sum rest
                end).
      { destruct (IH action) as (_ & IHs & _ & IHm). unfold learn.
        destruct (UcbHistory.rewards_of action calls) as [|r [|r2 rest]] eqn:Ers.
        - rewrite IHm. eexists. split; reflexivity.
        - rewrite IHm, IHs. cbn [length].
          rewrite div_ret by (vm_compute; discriminate). cbn [Py.bind].
          eexists. split; [reflexivity|]. cbn [app length].
          rewrite sum_cons, sum_nil. change (Py.of_nat 1) with 1. field.
        - destruct IHm as (x & Hx & Hmean). rewrite Hx, IHs.
          assert (Hpos : 0 < Py.of_nat (length (r :: r2 :: rest)))
            by (apply of_nat_pos; discriminate).
          rewrite div_ret by lra. cbn [Py.bind].
          eexists. split; [reflexivity|]. cbn [app].
          change (r2 :: rest ++ [reward]) with ((r2 :: rest) ++ [reward]).
          rewrite length_app, sum_snoc. cbn [length] in *.
          rewrite Nat.add_1_r.
          pose proof (of_nat_S (S (length rest))) as HS.
          set (n := Py.of_nat (S (S (length rest)))) in *.
          set (k := Py.of_nat (S (length rest))) in *.
          clearbody n k.
          assert (Hstep : ((1 - 1 / n) * x + 1 / n * reward) * n
                          == (n - 1) * x + reward) by (field; lra).
          rewrite Hstep, <- Hmean, HS. ring. }
      destruct Hnew as (x & -> & Hshape). cbn [t fst].
      destruct (IH a) as (IHt & IHs & IHv & IHm).
      unfold s_get, v_get in *. cbn [s_ m v].
      destruct (Z.eqb_spec action a) as [->|Hne].
      * rewrite !lookup_insert_eq. cbn [default].
        rewrite IHt, IHs, IHv, length_app, fold_left_app.
        split; [reflexivity|]. split; [reflexivity|]. split; [reflexivity|].
        destruct (UcbHistory.rewards_of a calls ++ [reward])
          as [|r [|r2 rest]]; [destruct Hshape| |].
        -- now subst x.
        -- exists x. auto.
      * rewrite !lookup_insert_ne by exact Hne.
        rewrite app_nil_r, IHt. repeat split; auto.
Qed.

Lemma ucb_learn_returns (calls : list call) (key : Key) (context : Context)
  (action : Action) (reward probability : Q) :
  snd (learn (run init calls) key context action reward probability) = Ret tt.
Proof.
  destruct (ucb_run_tally calls action) as (_ & Hs & _ & Hm). unfold learn.
  destruct (UcbHistory.rewards_of action calls) as [|r [|r2 rest]] eqn:E.
  - now rewrite Hm.
  - rewrite Hm, Hs. cbn [length].
    now rewrite div_ret by (vm_compute; discriminate).
  - destruct Hm as (x & -> & _). rewrite Hs.
    assert (0 < Py.of_nat (length (r :: r2 :: rest)))
      by (apply of_nat_pos; discriminate).
    now rewrite div_ret by lra.
Qed.

(** X3.  [UcbTunedLearner] counts every [learn] in [t] and the [learn]s of
    each action in [s].  The mean [m] of an action is its first reward as
    long as there is only one; from the second on it is the arithmetic mean
    of all rewards but the first: the update weighs the new reward with
    [1/s] where [s] is the count before the call.  [learn] never raises. *)
Theorem mean_skips_first_reward (calls : list call) (a : Action) :
  t (run init calls) = UcbHistory.learns calls /\
  s_get (run init calls) a = length (UcbHistory.rewards_of a calls) /\
  match UcbHistory.rewards_of a calls with
  | [] => m (run init calls) !! a = None
  | [r] => m (run init calls) !! a = Some r
  | _ :: rest =>
      exists x, m (run init calls) !! a = Some x /\
                x == Py.sum rest / Py.of_nat (length rest)
  end /\
  (forall key context reward probability,
     snd (learn (run init calls) key context a reward probability) = Ret tt).
Proof.
  destruct (ucb_run_tally calls a) as (Ht & Hs & _ & Hm).
  split; [exact Ht|]. split; [exact Hs|].
  split; [|intros; apply ucb_learn_returns].
  destruct (UcbHistory.rewards_of a calls) as [|r [|r2 rest]]; [exact Hm..|].
  destruct Hm as (x & Hx & Hmean). exists x. split; [exact Hx|].
  assert (0 < Py.of_nat (length (r2 :: rest)))
    by (apply of_nat_pos; discriminate).
  apply Qmult_inj_r with (z := Py.of_nat (length (r2 :: rest))); [lra|].
  etransitivity; [exact Hmean|]. field. lra.
Qed.

(** X4.  After the warm-up an action that has never been learned is not
    selected as long as the list holds an action that has been: its
    probability is 0.  When no action of the list has been learned the
    answer is the uniform distribution. *)
Theorem unlearned_actions_after_warm_up (s : state) (key : Key)
  (context : Context) (actions : list Action) (out : list Q) :
  (length actions <= init_a s)%nat ->
  snd (predict s key context actions) = Ret out ->
  ((exists b, In b actions /\ m s !! b <> None) ->
   forall i a, actions !! i = Some a -> m s !! a = None ->
               exists x, out !! i = Some x /\ x == 0) /\
  (Forall (fun a => m s !! a = None) actions ->
   forall i, (i < length actions)%nat ->
             exists x, out !! i = Some x /\
                       x == 1 / Py.of_nat (length actions)).
Proof.
  intros Hwarm Hout. unfold predict in Hout.
  assert (Hw : (init_a s <? length actions)%nat = false)
    by (apply Nat.ltb_ge; exact Hwarm).
  rewrite Hw in Hout. cbn [snd] in Hout.
  apply bind_ret in Hout as (values & Hvalues & Hout).
  apply bind_ret in Hout as (mv & Hmv & Hout).
  pose proof (proj1 (mapM_ret _ _ _) Hvalues) as Hv2.
  pose proof (proj1 (mapM_ret _ _ _) Hout) as Ho2.
  assert (Hlen : length values = length actions)
    by (eapply mapM_length; exact Hvalues).
  assert (Hentry : forall i, (i < length actions)%nat ->
            exists x, out !! i = Some x /\
              Py.div (Py.int (Greedy.mem i (Greedy.max_indexes values mv)))
                (Py.of_nat (length (Greedy.max_indexes values mv))) = Ret x).
  { intros i Hi.
    destruct (Forall2_lookup_l _ _ _ i i Ho2) as (x & Hx & Hdiv).
    - unfold Py.range. now apply lookup_seq_lt.
    - exists x. auto. }
  split.
  - intros (b & Hb & Hmb) i a Hi Hma.
    assert (Hlt : (i < length actions)%nat) by (eapply lookup_lt_Some; eauto).
    destruct (Hentry i Hlt) as (x & Hx & Hdiv). exists x. split; [exact Hx|].
    destruct (Forall2_lookup_l _ _ _ i a Hv2 Hi) as (vi & Hvi & Hval).
    rewrite Hma in Hval. injection Hval as <-.
    (* some value is not None, so max_value is a number *)
    assert (Hsome : exists best, mv = Some best).
    { unfold Greedy.max_value in Hmv.
      destruct (Greedy.only_None values) eqn:Eo.
      - exfalso. apply In_nth_error in Hb as [j Hj].
        assert (Hj' : actions !! j = Some b).
        { rewrite <- Hj. clear. revert j.
          induction actions; intros [|j]; simpl; auto. }
        destruct (Forall2_lookup_l _ _ _ j b Hv2 Hj') as (vj & Hvj & Hvalj).
        destruct (m s !! b) as [mb|] eqn:Emb; [|congruence].
        apply bind_ret in Hvalj as (u & _ & Hu). injection Hu as <-.
        unfold Greedy.only_None in Eo. destruct values as [|v0 vs]; [discriminate|].
        rewrite forallb_forall in Eo.
        specialize (Eo (Some (mb + u))).
        assert (Hin : In (Some (mb + u)) (v0 :: vs)).
        { clear - Hvj. revert j Hvj. generalize (v0 :: vs).
          induction l; intros [|j] Hj; simpl in *; try discriminate.
          - injection Hj as ->. now left.
          - right. eauto. }
        specialize (Eo Hin). discriminate.
      - apply bind_ret in Hmv as (best & _ & Hbest). injection Hbest as <-.
        eauto. }
    destruct Hsome as (best & ->).
    assert (Hmem : Greedy.mem i (Greedy.max_indexes values (Some best)) = false).
    { unfold Greedy.max_indexes. rewrite mem_filter, Hvi. cbn.
      apply andb_false_r. }
    rewrite Hmem in Hdiv. cbn [Py.int] in Hdiv.
    apply div_inv in Hdiv as [[_ Hdiv]|[_ Hdiv]]; [discriminate|].
    injection Hdiv as Hd. subst x. unfold Qdiv. ring.
  - intros Hnone i Hi.
    destruct (Hentry i Hi) as (x & Hx & Hdiv). exists x. split; [exact Hx|].
    assert (Hvals : values = map (fun _ => None) actions).
    { clear - Hv2 Hnone. induction Hv2 as [|a v l l' Hav _ IH]; [reflexivity|].
      apply Forall_cons in Hnone as [Ha Hl]. rewrite Ha in Hav.
      injection Hav as <-. cbn. f_equal. now apply IH. }
    assert (Hne : actions <> []) by (destruct actions; [cbn in Hi; lia|discriminate]).
    assert (Hmv' : mv = None).
    { unfold Greedy.max_value in Hmv.
      assert (Ho : Greedy.only_None values = true).
      { rewrite Hvals. destruct actions as [|a0 l]; [contradiction|].
        cbn. clear. induction l; cbn; auto. }
      rewrite Ho in Hmv. now injection Hmv as <-. }
    subst mv.
    assert (Hall : Greedy.max_indexes values None = Py.range (length actions)).
    { unfold Greedy.max_indexes. rewrite Hlen.
      apply forallb_filter_id, forallb_forall. intros j Hj.
      apply in_seq in Hj. rewrite Hvals, list_lookup_fmap.
      destruct (actions !! j) eqn:Ej; [reflexivity|].
      apply lookup_ge_None in Ej. lia. }
    rewrite Hall, range_length in Hdiv.
    rewrite mem_In in Hdiv by (apply in_seq; lia). cbn [Py.int] in Hdiv.
    apply div_inv in Hdiv as [[_ Hdiv]|[_ Hdiv]]; [discriminate|].
    injection Hdiv as Hd. subst x. reflexivity.
Qed.

(** *** The confidence bounds can be computed

    What the code needs of the functions it imports: a logarithm that is
    not negative above 1, a square root that is not negative, and a
    variance estimate that is not negative. *)

Section Bounds.
Hypothesis log_nonneg : forall q, 1 < q -> 0 <= log_approx q.
Hypothesis sqrt_nonneg : forall q, 0 < q -> 0 <= sqrt_approx q.
Hypothesis variance_nonneg :
  forall rs, 0 <= OnlineVariance_variance
                    (fold_left OnlineVariance_update rs OnlineVariance_new).

Lemma ln_returns (n : nat) :
  n <> 0%nat -> exists l, math.ln (Py.of_nat n) = Ret l /\ 0 <= l.
Proof.
  intros Hn. pose proof (of_nat_pos n Hn) as Hpos.
  unfold math.ln, math.log.
  destruct (Qle_bool (Py.of_nat n) 0) eqn:E.
  { apply Qle_bool_iff in E. lra. }
  cbn [Py.bind]. eexists. split; [reflexivity|].
  destruct (Qeq_bool (Py.of_nat n) 1) eqn:E1; [lra|].
  apply Qeq_bool_false in E1. apply log_nonneg.
  assert (1 <= Py.of_nat n).
  { unfold Py.of_nat. change 1 with (inject_Z 1). rewrite <- Zle_Qle. lia. }
  lra.
Qed.

Lemma sqrt_returns (q : Q) :
  0 <= q -> exists r, math.sqrt q = Ret r /\ 0 <= r.
Proof.
  intros Hq. unfold math.sqrt.
  destruct (Py.Qlt_bool q 0) eqn:E.
  { apply Qlt_bool_iff in E. lra. }
  eexists. split; [reflexivity|].
  destruct (Qeq_bool q 0) eqn:E0; [lra|].
  apply Qeq_bool_false in E0. apply sqrt_nonneg. lra.
Qed.

Lemma rewards_le_learns (a : Action) (calls : list call) :
  (length (UcbHistory.rewards_of a calls) <= UcbHistory.learns calls)%nat.
Proof.
  induction calls as [|c calls IH] using rev_ind; [reflexivity|].
  rewrite rewards_of_snoc, learns_snoc, length_app.
  destruct c as [key context actions|key context action reward probability];
    cbn [UcbHistory.reward_of is_predict length]; [lia|].
  destruct (Z.eqb action a); cbn [length]; lia.
Qed.

Lemma min_nonneg (a b : Q) : 0 <= a -> 0 <= b -> 0 <= Py.min a b.
Proof. intros Ha Hb. unfold Py.min. now destruct (Py.Qlt_bool b a). Qed.

Lemma Avg_R_UCB_returns (calls : list call) (a : Action) :
  UcbHistory.rewards_of a calls <> [] ->
  Py.returns (Avg_R_UCB (run init calls) a).
Proof.
  intros Hne.
  destruct (ucb_run_tally calls a) as (Ht & Hs & Hv & _).
  pose proof (rewards_le_learns a calls) as Hle.
  assert (Hs1 : length (UcbHistory.rewards_of a calls) <> 0%nat)
    by (destruct (UcbHistory.rewards_of a calls); [contradiction|discriminate]).
  unfold Avg_R_UCB, Var_R_UCB. rewrite Ht, Hs, Hv.
  destruct (ln_returns (UcbHistory.learns calls)) as (l & -> & Hl); [lia|].
  cbn [Py.bind].
  pose proof (of_nat_pos _ Hs1) as Hpos.
  rewrite !div_ret by lra. cbn [Py.bind].
  destruct (sqrt_returns
              (2 * l / Py.of_nat (length (UcbHistory.rewards_of a calls))))
    as (r & -> & Hr).
  { apply Qle_shift_div_l; lra. }
  cbn [Py.bind].
  destruct (sqrt_returns
              (l / Py.of_nat (length (UcbHistory.rewards_of a calls))
               * Py.min (1 # 4)
                   (OnlineVariance_variance
                      (fold_left OnlineVariance_update
                         (UcbHistory.rewards_of a calls) OnlineVariance_new)
                    + r))) as (u & Hu & _).
  { apply Qmult_le_0_compat.
    - apply Qle_shift_div_l; lra.
    - apply min_nonneg; [lra|].
      pose proof (variance_nonneg (UcbHistory.rewards_of a calls)). lra. }
  exists u. exact Hu.
Qed.

(** X5.  A [UcbTunedLearner] that is used only through [predict] and
    [learn] answers every [predict] on a non-empty action list: no
    confidence bound divides by zero or leaves the domain of [log] or
    [sqrt], and the answer has one non-negative entry per action, summing
    to 1. *)
Theorem predict_never_raises (calls : list call) (key : Key)
  (context : Context) (actions : list Action) :
  actions <> [] ->
  exists out,
    snd (predict (run init calls) key context actions) = Ret out /\
    length out = length actions /\
    Forall (fun x => 0 <= x) out /\
    Py.sum out == 1.
Proof.
  intros Hne. apply ucb_predict; [exact Hne|].
  apply List.Forall_forall. intros a _.
  destruct (ucb_run_tally calls a) as (_ & _ & _ & Hm).
  destruct (UcbHistory.rewards_of a calls) as [|r rs] eqn:E.
  - now left.
  - right. apply Avg_R_UCB_returns. rewrite E. discriminate.
Qed.

End Bounds.

End Ucb.
End UcbHistoryFacts.

(** ** CorralLearner: shape of the state, stored keys, edge cases *)

Module CorralShapeFacts.
Import PyFacts GreedyFacts SimpleLearnerFacts CorralFacts EpsilonFacts.

Section Corral.
Context `{Externals}.
Import CorralLearner CorralShape.

(** *** One call of [learn], case by case *)

Lemma learn_cases (fuel : nat) (s : state) (key : Key) (context : Context)
  (action : Action) (reward probability : Q) (s' : state) (r : result unit) :
  length (base_learners s) <> 0%nat ->
  dom (base_actions s) = dom (base_predicts s) ->
  learn fuel s key context action reward probability = (s', r) ->
  (s' = s /\ r = Raise KeyError /\ base_actions s !! key = None) \/
  exists acts preds,
    base_actions s !! key = Some acts /\
    base_predicts s !! key = Some preds /\
    base_actions s' = delete key (base_actions s) /\
    base_predicts s' = delete key (base_predicts s) /\
    ((same_weights s s' /\ r <> Ret tt) \/
     exists s3 losses,
       length losses = length acts /\
       ps s3 = ps s /\ etas s3 = etas s /\
       log_barrier_omd fuel s3 losses = Ret (ps s') /\
       p_bars s' = map (smoothed s) (ps s') /\
       rate_control (beta s) (p_bars s')
         (Py.range (length (base_learners s))) (rhos s) (etas s)
       = (rhos s', etas s', r)).
Proof.
  intros HM Hdom. unfold learn, same_weights.
  destruct (base_actions s !! key) as [acts|] eqn:Ea;
    [|intros [= <- <-]; left; auto].
  cbn [base_predicts with_maps].
  assert (Hp : is_Some (base_predicts s !! key)).
  { apply elem_of_dom. rewrite <- Hdom. apply elem_of_dom. eauto. }
  destruct Hp as [preds Ep]. rewrite Ep.
  intros Hlearn. right. exists acts, preds.
  split; [reflexivity|]. split; [reflexivity|].
  revert Hlearn.
  destruct (Py.mapM _ acts) as [losses| |] eqn:Hlosses;
    try (intros [= <- <-]; cbn; split; [auto|split; [auto|left; easy]]).
  cbn [base_learners with_maps].
  pose proof (learn_base_length (base_learners s) key context acts losses preds) as Hlen.
  destruct (learn_base (base_learners s) key context acts losses preds) as [bs r0].
  cbn [fst] in Hlen.
  destruct r0 as [[]| |];
    try (intros [= <- <-]; cbn; split; [auto|split; [auto|left; easy]]).
  match goal with |- context [log_barrier_omd fuel ?x losses] => set (s3 := x) end.
  destruct (log_barrier_omd fuel s3 losses) as [ps'| |] eqn:Hsolve;
    try (intros [= <- <-]; cbn; split; [auto|split; [auto|left; easy]]).
  cbn [ps with_weights].
  rewrite smooth_total by (cbn; congruence).
  match goal with |- context [rate_control ?b ?p ?i ?r ?e] =>
    destruct (rate_control b p i r e) as [[rhos' etas'] r'] eqn:Hrate end.
  intros [= <- <-]. cbn. split; [auto|]. split; [auto|]. right.
  exists s3, losses.
  cbn in Hrate. rewrite Hlen in Hrate.
  split; [eapply mapM_length; exact Hlosses|].
  repeat split; try reflexivity.
  - exact Hsolve.
  - unfold smoothed. cbn. now rewrite Hlen.
  - rewrite <- Hrate. unfold smoothed. cbn. now rewrite Hlen.
Qed.

(** *** One call of [predict] *)

Lemma predict_cases (s : state) (key : Key) (context : Context)
  (actions : list Action) :
  (base_actions (fst (predict s key context actions)) = base_actions s /\
   base_predicts (fst (predict s key context actions)) = base_predicts s /\
   forall out, snd (predict s key context actions) <> Ret out) \/
  exists acts preds,
    length acts = length (base_learners s) /\
    length preds = length (base_learners s) /\
    Forall (fun b => In b actions) acts /\
    base_actions (fst (predict s key context actions))
    = <[key := acts]> (base_actions s) /\
    base_predicts (fst (predict s key context actions))
    = <[key := preds]> (base_predicts s) /\
    snd (predict s key context actions)
    = Ret (map (mixture (p_bars s) acts) actions).
Proof.
  unfold predict.
  destruct (predicts_of (base_learners s) key context actions)
    as [bs [predicts| |]] eqn:Hp; cbn; try (left; easy).
  pose proof (predicts_of_ret _ _ _ _ _ _ Hp) as Hlen.
  pose proof (choices_length (random s) actions predicts) as Hcl.
  destruct (choices (random s) actions predicts) as [rnd acts]. cbn [snd] in Hcl.
  destruct (Py.mapM _ (zip acts predicts)) as [preds| |] eqn:Hm;
    cbn; try (left; easy).
  right. exists acts, preds.
  assert (Hpl : length preds = length (zip acts predicts))
    by (eapply mapM_length; exact Hm).
  rewrite length_zip, Hcl, Nat.min_id in Hpl.
  split; [congruence|]. split; [congruence|]. split; [|auto].
  apply mapM_ret in Hm.
  assert (Hin : Forall (fun ap : Action * list Q => In (fst ap) actions)
                  (zip acts predicts)).
  { clear - Hm. induction Hm as [|[a p] x l l' Hx _ IH]; constructor; auto.
    apply bind_ret in Hx as (i & Hi & _). cbn. eapply index_In; eauto. }
  clear - Hin Hcl. revert predicts Hcl Hin.
  induction acts as [|a acts IH]; intros [|p predicts] Hcl Hin;
    try discriminate; constructor.
  - now inversion Hin.
  - apply (IH predicts); [cbn in Hcl; lia|now inversion Hin].
Qed.

(** *** The rate-control loop on lists of the right length *)

Lemma rate_control_returns (b : Q) (p_bars : list Q) (indexes : list nat)
  (rhos etas : list Q) :
  Forall (fun i => (i < length p_bars)%nat /\ (i < length rhos)%nat /\
                   (i < length etas)%nat) indexes ->
  Forall (fun p => 0 < p) p_bars ->
  exists rhos' etas',
    rate_control b p_bars indexes rhos etas = (rhos', etas', Ret tt) /\
    length rhos' = length rhos /\ length etas' = length etas.
Proof.
  intros Hidx Hpos. revert rhos etas Hidx.
  induction indexes as [|i rest IH]; intros rhos etas Hidx.
  - cbn. eauto.
  - apply Forall_cons in Hidx as [(Hp & Hr & He) Hrest].
    cbn [rate_control]. unfold rate_control_at.
    destruct (lookup_lt_is_Some_2 _ _ Hp) as [pb Epb].
    destruct (lookup_lt_is_Some_2 _ _ Hr) as [rho Erho].
    destruct (lookup_lt_is_Some_2 _ _ He) as [eta Eeta].
    rewrite Epb, Erho.
    assert (Hpb : 0 < pb) by (eapply Forall_lookup_1; eauto).
    rewrite !div_ret by lra.
    destruct (Py.Qlt_bool rho (1 / pb)).
    + rewrite Eeta.
      destruct (IH (<[i := 2 / pb]> rhos) (<[i := eta * b]> etas))
        as (rhos' & etas' & -> & Hl1 & Hl2).
      { eapply Forall_impl; [exact Hrest|]. intros j.
        now rewrite !length_insert. }
      rewrite !length_insert in *. eauto.
    + destruct (IH rhos etas Hrest) as (rhos' & etas' & -> & Hl1 & Hl2). eauto.
Qed.

(** *** The invariant *)

Lemma shaped_predict (s : state) (key : Key) (context : Context)
  (actions : list Action) :
  shaped s -> shaped (fst (predict s key context actions)).
Proof.
  intros (H1 & H2 & H3 & H4 & H5 & H6 & H7).
  destruct (predict_unchanged s key context actions)
    as [(_ & _ & Elen) (Ep & Epb & Er & Ee)].
  unfold shaped. rewrite Elen, Ep, Epb, Er, Ee.
  repeat (split; [assumption|]).
  destruct (predict_cases s key context actions)
    as [(-> & -> & _)|(acts & preds & La & Lp & _ & -> & -> & _)]; [auto|].
  split; [|split].
  - apply map_Forall_insert_2; assumption.
  - apply map_Forall_insert_2; assumption.
  - rewrite !dom_insert_L. now rewrite H7.
Qed.

Lemma rho_bounds_predict (s : state) (key : Key) (context : Context)
  (actions : list Action) :
  rho_bounds s -> rho_bounds (fst (predict s key context actions)).
Proof.
  destruct (predict_unchanged s key context actions)
    as [_ (_ & Epb & Er & _)].
  unfold rho_bounds. now rewrite Epb, Er.
Qed.

Lemma solve_length (fuel : nat) (s : state) (losses ps' : list Q) :
  log_barrier_omd fuel s losses = Ret ps' ->
  length ps' = length (zip3 s losses).
Proof.
  unfold log_barrier_omd. intros Hs.
  apply bind_ret in Hs as (lmbda & _ & Hs). eapply mapM_length; exact Hs.
Qed.

Lemma learn_invariant (fuel : nat) (s : state) (key : Key)
  (context : Context) (action : Action) (reward probability : Q) :
  well_formed s -> shaped s -> rho_bounds s ->
  shaped (fst (learn fuel s key context action reward probability)) /\
  rho_bounds (fst (learn fuel s key context action reward probability)).
Proof.
  intros Hwf Hsh Hrho.
  destruct (learn fuel s key context action reward probability) as [s' r] eqn:Hl.
  cbn [fst].
  pose proof Hwf as (HM & Hg & Hb & Hpb & He).
  pose proof Hsh as (H1 & H2 & H3 & H4 & H5 & H6 & H7).
  destruct (learn_weights _ _ _ _ _ _ _ _ _ HM Hl) as [(_ & _ & Elen) _].
  destruct (learn_cases _ _ _ _ _ _ _ _ _ HM H7 Hl)
    as [(-> & _ & _)|(acts & preds & Ea & Ep & Eba & Ebp & Hw)]; [auto|].
  assert (Hmaps :
    map_Forall (fun _ l => length l = length (base_learners s)) (base_actions s') /\
    map_Forall (fun _ l => length l = length (base_learners s)) (base_predicts s') /\
    dom (base_actions s') = dom (base_predicts s')).
  { rewrite Eba, Ebp. split; [|split].
    - now apply map_Forall_delete.
    - now apply map_Forall_delete.
    - rewrite !dom_delete_L. now rewrite H7. }
  destruct Hw as [[(Eps & Epbs & Er & Ee) _]
                 |(s3 & losses & Ll & Ps3 & Es3 & Hsolve & Epbs & Hrate)].
  - unfold shaped, rho_bounds. rewrite Elen, Eps, Epbs, Er, Ee. tauto.
  - assert (Hla : length acts = length (base_learners s))
      by (apply (H5 key acts Ea)).
    assert (Lps : length (ps s') = length (base_learners s)).
    { rewrite (solve_length _ _ _ _ Hsolve). unfold zip3.
      rewrite !length_zip, Ps3, Es3, H1, H4, Ll, Hla. lia. }
    assert (Lpb : length (p_bars s') = length (base_learners s))
      by (rewrite Epbs, length_map; exact Lps).
    assert (Hpos : Forall (fun p => 0 < p) (p_bars s')).
    { rewrite Epbs. apply Forall_fmap.
      eapply Forall_impl; [apply (solve_floor _ _ _ _ Hsolve)|].
      intros p Hp. apply smoothed_pos; [exact Hwf|].
      unfold floor in Hp. lra. }
    destruct (rate_control_returns (beta s) (p_bars s')
                (Py.range (length (base_learners s))) (rhos s) (etas s))
      as (rhos' & etas' & Hret & Lr & Le).
    { apply List.Forall_forall. intros i Hi. apply in_seq in Hi. lia. }
    { exact Hpos. }
    rewrite Hret in Hrate. injection Hrate as Er Ee _.
    split.
    + unfold shaped. rewrite Elen, Lps, Lpb, <- Er, <- Ee, Lr, Le. tauto.
    + unfold rho_bounds. rewrite <- Er.
      apply Forall2_same_length_lookup_2; [congruence|].
      intros i rho' pb Hr' Hpb'.
      assert (Hi : (i < length (base_learners s))%nat).
      { rewrite <- Lpb. eapply lookup_lt_Some; eauto. }
      destruct (rate_control_seq _ _ _ _ _ _ _ _ Hret) as [_ Hrule].
      destruct (Hrule i ltac:(lia)) as (pb0 & rho & Epb0 & Erho & Hup & Hsame).
      rewrite Hpb' in Epb0. injection Epb0 as <-.
      assert (Hp0 : 0 < pb) by (eapply Forall_lookup_1; eauto).
      destruct (Qlt_le_dec rho (1 / pb)) as [Hlt|Hge].
      * destruct (Hup Hlt) as [E _]. rewrite Hr' in E. injection E as ->.
        apply Qle_shift_div_l; [exact Hp0|].
        assert (1 / pb * pb == 1) by (field; lra). lra.
      * destruct (Hsame Hge) as [E _]. rewrite Hr' in E. now injection E as ->.
Qed.

Lemma init_invariant (bs : list learner) (eta : Q) (T : pyfloat)
  (rnd : CobaRandom) (s0 : state) :
  init bs eta T rnd = Ret s0 -> shaped s0 /\ rho_bounds s0.
Proof.
  intros Hinit.
  apply init_ret in Hinit as (HM & Hbs & _ & He & Hr & Hp & Hpb & Ha & Hbp).
  pose proof (of_nat_pos _ HM) as Hpos.
  unfold shaped, rho_bounds. rewrite Hbs, He, Hr, Hp, Hpb, Ha, Hbp.
  rewrite !repeat_length. repeat split; try apply map_Forall_empty.
  apply Forall2_same_length_lookup_2; [now rewrite !repeat_length|].
  intros i rho pb Hrho Hpb'.
  assert (Erho : rho = Py.of_nat (2 * length bs)).
  { eapply (Forall_lookup_1 (fun y => y = _));
      [apply Forall_repeat; reflexivity|exact Hrho]. }
  assert (Epb : pb = 1 / Py.of_nat (length bs)).
  { eapply (Forall_lookup_1 (fun y => y = _));
      [apply Forall_repeat; reflexivity|exact Hpb']. }
  subst rho pb.
  assert (E : 1 / (1 / Py.of_nat (length bs)) == Py.of_nat (length bs))
    by (field; lra).
  rewrite E. unfold Py.of_nat. rewrite <- Zle_Qle. lia.
Qed.

(** X6.  In every state a [CorralLearner] built with [eta >= 0] and
    [gamma], [beta] in [[0,1]] goes through, the lists [ps], [p_bars],
    [rhos] and [etas] have one entry per base learner, the lists stored for
    the pending keys too, the same keys are pending in both dictionaries,
    and every [rho_i] is at least [1/p_bar_i]. *)
Theorem rho_bounds_inverse_weight (bs : list learner) (eta : Q) (T : pyfloat)
  (rnd : CobaRandom) (s0 s : state) :
  init bs eta T rnd = Ret s0 ->
  0 <= eta -> 0 <= gamma s0 <= 1 -> 0 <= beta s0 <= 1 ->
  reachable s0 s ->
  shaped s /\ rho_bounds s.
Proof.
  intros Hinit Heta Hg Hb Hreach.
  pose proof (init_well_formed _ _ _ _ _ Hinit Heta Hg Hb) as Hwf0.
  destruct (init_invariant _ _ _ _ _ Hinit) as [Hs0 Hr0].
  cut (well_formed s /\ shaped s /\ rho_bounds s); [tauto|].
  unfold reachable in Hreach. revert s Hreach.
  apply (rtc_ind_r (fun s => well_formed s /\ shaped s /\ rho_bounds s) s0);
    [auto|intros s2 s3 _ Hstep (Hwf & Hsh & Hrho)].
  split; [apply (step_well_formed _ _ Hwf Hstep)|].
  destruct Hstep as [s2 key context actions
                    |fuel s2 key context action reward probability _].
  - split; [now apply shaped_predict|now apply rho_bounds_predict].
  - now apply learn_invariant.
Qed.

(** *** What [predict] answers and stores *)

Lemma sum_zero (l : list Q) : Forall (fun x => x == 0) l -> Py.sum l == 0.
Proof.
  induction 1 as [|x l Hx _ IH]; [apply sum_nil|].
  rewrite sum_cons, Hx, IH. reflexivity.
Qed.

Lemma mixture_zero (p_bars : list Q) (acts : list Action) (a : Action) :
  ~ In a acts -> mixture p_bars acts a == 0.
Proof.
  intros Hnot. unfold mixture. apply sum_zero, Forall_fmap.
  apply List.Forall_forall. intros [p_b b_a] Hin. cbn.
  assert (Hb : In b_a acts).
  { clear - Hin. revert acts Hin.
    induction p_bars as [|p ps IH]; intros [|b acts] Hin; cbn in *;
      try contradiction.
    destruct Hin as [[= _ ->]|Hin]; [now left|right; eauto]. }
  destruct (Z.eqb_spec a b_a) as [->|_]; [contradiction|].
  cbn. ring.
Qed.

(** X7.  A [predict] that returns has stored, under its key, one sampled
    action per base learner, each of them one of the actions offered; an
    action that no base learner sampled has probability 0 in the answer. *)
Theorem unsampled_actions_get_zero (s s1 : state) (key : Key)
  (context : Context) (actions : list Action) (out : list Q) :
  predict s key context actions = (s1, Ret out) ->
  exists acts,
    base_actions s1 !! key = Some acts /\
    length acts = length (base_learners s) /\
    Forall (fun b => In b actions) acts /\
    forall i a, actions !! i = Some a -> ~ In a acts ->
                exists x, out !! i = Some x /\ x == 0.
Proof.
  intros Hp.
  destruct (predict_cases s key context actions)
    as [(_ & _ & Hno)|(acts & preds & La & _ & Hin & Ea & _ & Hout)].
  { rewrite Hp in Hno. now destruct (Hno out). }
  rewrite Hp in Ea, Hout. cbn [fst snd] in Ea, Hout.
  injection Hout as ->.
  exists acts. rewrite Ea, lookup_insert_eq.
  repeat (split; [auto|]).
  intros i a Hi Hnot. exists (mixture (p_bars s) acts a).
  split; [now rewrite list_lookup_fmap, Hi|]. now apply mixture_zero.
Qed.

(** *** Pending keys *)

Lemma learn_other_keys (fuel : nat) (s : state) (key key' : Key)
  (context : Context) (action : Action) (reward probability : Q) :
  key' <> key ->
  base_actions (fst (learn fuel s key context action reward probability))
    !! key' = base_actions s !! key' /\
  base_predicts (fst (learn fuel s key context action reward probability))
    !! key' = base_predicts s !! key'.
Proof.
  intros Hne. unfold learn.
  destruct (base_actions s !! key) as [acts|]; [|auto].
  cbn [base_predicts with_maps].
  destruct (base_predicts s !! key) as [preds|];
    [|cbn; now rewrite lookup_delete_ne].
  assert (Hdel : delete key (base_actions s) !! key' = base_actions s !! key' /\
                 delete key (base_predicts s) !! key' = base_predicts s !! key').
  { now rewrite !lookup_delete_ne. }
  destruct (Py.mapM _ acts) as [losses| |]; try (cbn; exact Hdel).
  cbn [base_learners with_maps].
  destruct (learn_base _ _ _ _ _ _) as [bs [[]| |]]; try (cbn; exact Hdel).
  destruct (log_barrier_omd _ _ _) as [ps'| |]; try (cbn; exact Hdel).
  cbn [ps with_weights].
  destruct (Py.mapM _ ps') as [p_bars'| |]; try (cbn; exact Hdel).
  destruct (rate_control _ _ _ _ _) as [[rhos' etas'] r']. cbn. exact Hdel.
Qed.

(** X8.  The entries stored for one key are not touched by a [predict] or
    a [learn] for another key: any number of predictions can be pending,
    and they can be learned from in any order. *)
Theorem pending_keys_are_independent (s : state) (key key' : Key) :
  key' <> key ->
  (forall context actions,
     base_actions (fst (predict s key context actions)) !! key'
     = base_actions s !! key' /\
     base_predicts (fst (predict s key context actions)) !! key'
     = base_predicts s !! key') /\
  (forall fuel context action reward probability,
     base_actions (fst (learn fuel s key context action reward probability))
       !! key' = base_actions s !! key' /\
     base_predicts (fst (learn fuel s key context action reward probability))
       !! key' = base_predicts s !! key').
Proof.
  intros Hne. split.
  - intros context actions.
    destruct (predict_cases s key context actions)
      as [(-> & -> & _)|(acts & preds & _ & _ & _ & -> & -> & _)]; [auto|].
    now rewrite !lookup_insert_ne.
  - intros. now apply learn_other_keys.
Qed.

(** *** Arguments the constructor and [learn] cannot handle *)

(** X9.  The constructor fails on a horizon [T] of 0 ([1/T]), on a
    negative one ([math.log(T)]) and on [T = 1] ([1/math.log(T)] is
    [1/0]); with the default horizon it fails exactly when there is no
    base learner ([1/M]). *)
Theorem init_rejects (bs : list learner) (eta : Q) (rnd : CobaRandom) :
  (forall T, T == 0 -> init bs eta (Fin T) rnd = Raise ZeroDivisionError) /\
  (forall T, T < 0 -> init bs eta (Fin T) rnd = Raise ValueError) /\
  (forall T, T == 1 -> init bs eta (Fin T) rnd = Raise ZeroDivisionError) /\
  (bs = [] -> init bs eta Inf rnd = Raise ZeroDivisionError) /\
  (bs <> [] -> Py.returns (init bs eta Inf rnd)).
Proof.
  split; [|split; [|split; [|split]]].
  - intros T HT. unfold init. cbn [Py.inv]. now rewrite div_zero.
  - intros T HT. unfold init. cbn [Py.inv].
    rewrite div_ret by lra. cbn [Py.bind]. unfold math.log.
    assert (E : Qle_bool T 0 = true) by (apply Qle_bool_iff; lra).
    now rewrite E.
  - intros T HT. unfold init. cbn [Py.inv].
    rewrite div_ret by lra. cbn [Py.bind]. unfold math.log.
    destruct (Qle_bool T 0) eqn:E.
    { apply Qle_bool_iff in E. lra. }
    assert (E1 : Qeq_bool T 1 = true) by (apply Qeq_bool_iff; exact HT).
    rewrite E1. cbn [Py.bind Py.inv]. now rewrite div_zero.
  - intros ->. reflexivity.
  - intros Hne. apply init_infinite_returns. now destruct bs.
Qed.

(** X10.  [learn] with [probability = 0] for a pending key raises
    [ZeroDivisionError] from [loss/probability], after the key has been
    popped from both dictionaries and before any base learner or weight is
    touched: the prediction is lost, a second [learn] for the key raises
    [KeyError]. *)
Theorem learn_zero_probability (fuel : nat) (s : state) (key : Key)
  (context : Context) (action : Action) (reward probability : Q)
  (acts : list Action) (preds : list Q) :
  base_actions s !! key = Some acts ->
  base_predicts s !! key = Some preds ->
  acts <> [] ->
  probability == 0 ->
  learn fuel s key context action reward probability
  = (with_maps s (delete key (base_actions s)) (delete key (base_predicts s)),
     Raise ZeroDivisionError) /\
  forall fuel' context' action' reward' probability',
    snd (learn fuel'
           (fst (learn fuel s key context action reward probability))
           key context' action' reward' probability')
    = Raise KeyError.
Proof.
  intros Ea Ep Hne Hzero.
  assert (Hl : learn fuel s key context action reward probability
               = (with_maps s (delete key (base_actions s))
                    (delete key (base_predicts s)),
                  Raise ZeroDivisionError)).
  { unfold learn. rewrite Ea. cbn [base_predicts with_maps]. rewrite Ep.
    destruct acts as [|a acts]; [contradiction|].
    cbn [Py.mapM]. unfold base_loss at 1. rewrite div_zero by exact Hzero.
    reflexivity. }
  split; [exact Hl|]. intros. rewrite Hl. cbn [fst].
  rewrite learn_unknown_key; [reflexivity|]. cbn. apply lookup_delete_eq.
Qed.

(** *** [params] *)

Lemma learner_predict_family (b : learner) (key : Key) (context : Context)
  (actions : list Action) :
  Description.family (fst (learner_predict b key context actions))
  = Description.family b.
Proof.
  destruct b as [|e|u]; cbn; [reflexivity..|].
  now destruct (UcbTunedLearner.predict u key context actions).
Qed.

Lemma learner_learn_family (b : learner) (key : Key) (context : Context)
  (action : Action) (reward probability : Q) :
  Description.family (fst (learner_learn b key context action reward probability))
  = Description.family b.
Proof.
  destruct b as [|e|u]; cbn; [reflexivity| |].
  - rewrite learn_returns. reflexivity.
  - now destruct (UcbTunedLearner.learn u key context action reward probability).
Qed.

Lemma predicts_of_family (bs : list learner) (key : Key) (context : Context)
  (actions : list Action) :
  map Description.family (fst (predicts_of bs key context actions))
  = map Description.family bs.
Proof.
  induction bs as [|b bs IH]; [reflexivity|]. cbn [predicts_of].
  pose proof (learner_predict_family b key context actions) as Hb.
  destruct (learner_predict b key context actions) as [b' [p| |]];
    cbn [fst] in Hb; cbn; try (now rewrite Hb).
  destruct (predicts_of bs key context actions) as [bs' rs].
  cbn [fst] in *. cbn. now rewrite Hb, IH.
Qed.

Lemma learn_base_family (bs : list learner) (key : Key) (context : Context)
  (acts : list Action) (losses preds : list Q) :
  map Description.family (fst (learn_base bs key context acts losses preds))
  = map Description.family bs.
Proof.
  revert acts losses preds.
  induction bs as [|b bs IH]; intros [|a acts] [|L losses] [|P preds];
    try reflexivity.
  cbn [learn_base].
  pose proof (learner_learn_family b key context a (1 - L) P) as Hb.
  destruct (learner_learn b key context a (1 - L) P) as [b' [[]| |]];
    cbn [fst] in Hb; cbn; try (now rewrite Hb).
  specialize (IH acts losses preds).
  destruct (learn_base bs key context acts losses preds) as [bs' r'].
  cbn [fst] in *. cbn. now rewrite Hb, IH.
Qed.

Lemma predict_params (s : state) (key : Key) (context : Context)
  (actions : list Action) :
  Description.CorralLearner_params (fst (predict s key context actions))
  = Description.CorralLearner_params s.
Proof.
  unfold Description.CorralLearner_params, predict.
  pose proof (predicts_of_family (base_learners s) key context actions) as Hf.
  destruct (predicts_of (base_learners s) key context actions)
    as [bs [predicts| |]]; cbn [fst] in Hf; cbn; try (now rewrite Hf).
  destruct (choices (random s) actions predicts) as [rnd acts].
  destruct (Py.mapM _ (zip acts predicts)); cbn; now rewrite Hf.
Qed.

Lemma learn_params (fuel : nat) (s : state) (key : Key) (context : Context)
  (action : Action) (reward probability : Q) :
  Description.CorralLearner_params
    (fst (learn fuel s key context action reward probability))
  = Description.CorralLearner_params s.
Proof.
  unfold Description.CorralLearner_params, learn.
  destruct (base_actions s !! key) as [acts|]; [|reflexivity].
  cbn [base_predicts with_maps].
  destruct (base_predicts s !! key) as [preds|]; [|reflexivity].
  destruct (Py.mapM _ acts) as [losses| |]; try reflexivity.
  cbn [base_learners with_maps].
  pose proof (learn_base_family (base_learners s) key context acts losses preds) as Hf.
  destruct (learn_base _ _ _ _ _ _) as [bs [[]| |]]; cbn [fst] in Hf;
    try (cbn; now rewrite Hf).
  destruct (log_barrier_omd _ _ _) as [ps'| |]; try (cbn; now rewrite Hf).
  cbn [ps with_weights].
  destruct (Py.mapM _ ps') as [p_bars'| |]; try (cbn; now rewrite Hf).
  destruct (rate_control _ _ _ _ _) as [[rhos' etas'] r']. cbn. now rewrite Hf.
Qed.

(** X11.  [params] describes the construction and never changes: the
    [eta] it reports is the constructor's argument, also after the
    learning rates [etas] have been lowered, and the families of the base
    learners are those of the learners passed in. *)
Theorem params_never_change (bs : list learner) (eta : Q) (T : pyfloat)
  (rnd : CobaRandom) (s0 s : state) :
  init bs eta T rnd = Ret s0 ->
  reachable s0 s ->
  Description.CorralLearner_params s = (eta, map Description.family bs).
Proof.
  intros Hinit Hreach.
  assert (H0 : Description.CorralLearner_params s0
               = (eta, map Description.family bs)).
  { unfold init in Hinit.
    repeat (apply bind_ret in Hinit as (? & _ & Hinit)).
    injection Hinit as <-. reflexivity. }
  rewrite <- H0. unfold reachable in Hreach. revert s Hreach.
  apply (rtc_ind_r (fun s => Description.CorralLearner_params s
                             = Description.CorralLearner_params s0) s0);
    [reflexivity|intros s2 s3 _ Hstep IH].
  rewrite <- IH.
  destruct Hstep; [apply predict_params|apply learn_params].
Qed.

(** *** A learning rate of zero *)

Lemma solve_zero_eta (fuel : nat) (s : state) (losses ps' : list Q) :
  Forall (fun e => e == 0) (etas s) ->
  ps s <> [] -> etas s <> [] ->
  log_barrier_omd fuel s losses <> Ret ps'.
Proof.
  intros He Hps Hes. unfold log_barrier_omd, find_lmbda, zip3.
  destruct (ps s) as [|p ps0]; [contradiction|].
  destruct (etas s) as [|e es]; [contradiction|].
  apply Forall_cons in He as [He _].
  destruct losses as [|L losses]; cbn; [discriminate|].
  destruct (div_inv (-1) p _ eq_refl) as [[_ ->]|[_ ->]]; cbn; [discriminate|].
  rewrite div_zero by (rewrite He; reflexivity). cbn. discriminate.
Qed.

(** X12.  A [CorralLearner] built with [eta = 0] never learns: no call of
    [learn] returns normally (for a pending key the solve divides by
    [-eta]), and the weights [p], [p_bar] and the rates stay what the
    constructor made them. *)
Theorem zero_eta_never_learns (bs : list learner) (eta : Q) (T : pyfloat)
  (rnd : CobaRandom) (s0 s : state) :
  init bs eta T rnd = Ret s0 ->
  eta == 0 ->
  reachable s0 s ->
  same_weights s0 s /\
  forall fuel key context action reward probability,
    snd (learn fuel s key context action reward probability) <> Ret tt.
Proof.
  intros Hinit Heta Hreach.
  pose proof (init_ret _ _ _ _ _ Hinit)
    as (HM & Hbs & _ & He & _ & Hp & _ & _ & _).
  assert (Hstep : forall u,
            length (base_learners u) = length bs /\ same_weights s0 u ->
            forall fuel key context action reward probability,
              (length (base_learners
                         (fst (learn fuel u key context action reward probability)))
               = length bs /\
               same_weights s0
                 (fst (learn fuel u key context action reward probability))) /\
              snd (learn fuel u key context action reward probability) <> Ret tt).
  { intros u (Hlen & Ep & Epb & Er & Ee) fuel key context action reward probability.
    destruct (learn fuel u key context action reward probability) as [u' r] eqn:Hl.
    cbn [fst snd].
    assert (HMu : length (base_learners u) <> 0%nat) by congruence.
    destruct (learn_weights _ _ _ _ _ _ _ _ _ HMu Hl)
      as [(_ & _ & Elen) [[(Ep' & Epb' & Er' & Ee') Hr]
                         |(s3 & losses & Ps3 & Es3 & Hsolve & _)]].
    - unfold same_weights. split; [|exact Hr]. repeat split; congruence.
    - exfalso. apply (solve_zero_eta _ _ _ _) in Hsolve; [exact Hsolve|..].
      + rewrite Es3, Ee, He. apply Forall_repeat. exact Heta.
      + rewrite Ps3, Ep, Hp. now destruct (length bs).
      + rewrite Es3, Ee, He. now destruct (length bs). }
  assert (Hinv : length (base_learners s) = length bs /\ same_weights s0 s).
  { unfold reachable in Hreach. revert s Hreach.
    apply (rtc_ind_r (fun s => length (base_learners s) = length bs /\
                               same_weights s0 s) s0).
    - unfold same_weights. rewrite Hbs. auto.
    - intros s2 s3 _ Hst (Hlen & Ep & Epb & Er & Ee).
      destruct Hst as [s2 key context actions
                      |fuel s2 key context action reward probability _].
      + destruct (predict_unchanged s2 key context actions)
          as [(_ & _ & Elen) (Ep' & Epb' & Er' & Ee')].
        unfold same_weights. split; [congruence|]. repeat split; congruence.
      + apply Hstep. unfold same_weights. auto. }
  split; [apply Hinv|]. intros. now apply Hstep.
Qed.

End Corral.
End CorralShapeFacts.

(** ** VowpalLearner: the action lists it keeps and the order of its answer *)

Module VowpalFacts.
Import PyFacts SimpleLearnerFacts CorralFacts.

(** *** [sorted] with a key *)

Lemma insert_by_key_Permutation {A} (x : nat * A) (l : list (nat * A)) :
  Permutation (VowpalLearner.insert_by_key x l) (x :: l).
Proof.
  induction l as [|y l IH]; cbn; [reflexivity|].
  destruct (fst x <=? fst y)%nat; [reflexivity|].
  rewrite IH. apply perm_swap.
Qed.

Lemma sort_Permutation {A} (l : list (nat * A)) :
  Permutation (fold_right VowpalLearner.insert_by_key [] l) l.
Proof.
  induction l as [|x l IH]; cbn; [reflexivity|].
  rewrite insert_by_key_Permutation. now rewrite IH.
Qed.

Lemma insert_by_key_sorted {A} (x : nat * A) (l : list (nat * A)) :
  StronglySorted (fun a b => (fst a <= fst b)%nat) l ->
  StronglySorted (fun a b => (fst a <= fst b)%nat)
    (VowpalLearner.insert_by_key x l).
Proof.
  induction 1 as [|y l Hs IH Hy]; cbn; [repeat constructor|].
  destruct (Nat.leb_spec (fst x) (fst y)) as [Hle|Hgt].
  - constructor; [now constructor|].
    constructor; [exact Hle|].
    eapply Forall_impl; [exact Hy|]. cbn. intros z Hz. lia.
  - constructor; [exact IH|].
    rewrite insert_by_key_Permutation. constructor; [lia|exact Hy].
Qed.

Lemma sort_sorted {A} (l : list (nat * A)) :
  StronglySorted (fun a b => (fst a <= fst b)%nat)
    (fold_right VowpalLearner.insert_by_key [] l).
Proof.
  induction l as [|x l IH]; cbn; [constructor|].
  now apply insert_by_key_sorted.
Qed.

Lemma seq_sorted (a n : nat) : StronglySorted le (seq a n).
Proof.
  revert a. induction n as [|n IH]; intros a; cbn; constructor; [apply IH|].
  apply List.Forall_forall. intros x Hx. apply in_seq in Hx. lia.
Qed.

(** Sorting the indexes [0 .. n-1] by keys that are a permutation of
    [0 .. n-1] inverts the permutation: position [j] of the result holds
    the index whose key is [j]. *)
Lemma sorted_by_key_inverse (keys : list nat) (n : nat) :
  length keys = n ->
  Permutation keys (seq 0 n) ->
  forall j i, VowpalLearner.sorted_by_key keys (seq 0 n) !! j = Some i <->
              keys !! i = Some j.
Proof.
  intros Hlen Hperm. unfold VowpalLearner.sorted_by_key.
  set (sorted := fold_right VowpalLearner.insert_by_key [] (zip keys (seq 0 n))).
  assert (Hp : Permutation sorted (zip keys (seq 0 n))) by apply sort_Permutation.
  assert (Hs : StronglySorted (fun a b => (fst a <= fst b)%nat) sorted)
    by apply sort_sorted.
  clearbody sorted.
  assert (Hfst : map fst sorted = seq 0 n).
  { apply (StronglySorted_unique le).
    - change (map fst sorted) with (fst <$> sorted).
      apply (StronglySorted_fmap fst (fun a b => (fst a <= fst b)%nat) le);
        [auto|exact Hs].
    - apply seq_sorted.
    - rewrite Hp. change (map fst ?l) with (fst <$> l).
      rewrite fst_zip by (rewrite length_seq; lia). exact Hperm. }
  assert (Hmem : forall j i, In (j, i) sorted <-> keys !! i = Some j).
  { intros j i. rewrite <- list_elem_of_In, Hp, elem_of_lookup_zip_with.
    split.
    - intros (pos & k & x & [= -> ->] & Hk & Hx).
      apply lookup_seq in Hx as [-> _]. exact Hk.
    - intros Hk. exists i, j, i. split; [reflexivity|]. split; [exact Hk|].
      apply lookup_seq. split; [reflexivity|].
      rewrite <- Hlen. eapply lookup_lt_Some; eauto. }
  intros j i. rewrite list_lookup_fmap. split.
  - destruct (sorted !! j) as [[k i']|] eqn:E; [|discriminate].
    cbn. intros [= ->]. apply Hmem.
    assert (Hk : seq 0 n !! j = Some k).
    { rewrite <- Hfst. change (map fst sorted) with (fst <$> sorted).
      now rewrite list_lookup_fmap, E. }
    apply lookup_seq in Hk as [-> _].
    apply list_elem_of_In. eapply list_elem_of_lookup_2; eauto.
  - intros Hk. apply Hmem in Hk.
    apply list_elem_of_In, list_elem_of_lookup_1 in Hk as [pos Hpos].
    assert (Hj : seq 0 n !! pos = Some j).
    { rewrite <- Hfst. change (map fst sorted) with (fst <$> sorted).
      now rewrite list_lookup_fmap, Hpos. }
    apply lookup_seq in Hj as [-> _]. cbn [plus] in *. now rewrite Hpos.
Qed.

(** *** [list.index] *)

Lemma index_lookup (actions : list Action) (a : Action) (i : nat) :
  CorralLearner.index actions a = Ret i -> actions !! i = Some a.
Proof.
  revert i. induction actions as [|b actions IH]; intros i; cbn; [discriminate|].
  destruct (Z.eqb_spec b a) as [->|Hne].
  - now intros [= <-].
  - intros Hi. apply bind_ret in Hi as (k & Hk & [= <-]). cbn. now apply IH.
Qed.

Lemma index_first (actions : list Action) (a : Action) (i : nat) :
  NoDup actions -> actions !! i = Some a -> CorralLearner.index actions a = Ret i.
Proof.
  intros Hnd. revert i. induction Hnd as [|b actions Hb Hnd IH]; intros i Hi;
    [discriminate|].
  cbn. destruct i as [|i]; cbn in Hi.
  - injection Hi as ->. now rewrite Z.eqb_refl.
  - destruct (Z.eqb_spec b a) as [->|Hne].
    + exfalso. apply Hb. eapply list_elem_of_lookup_2; eauto.
    + now rewrite (IH i Hi).
Qed.

Section Vowpal.
Context `{Vowpal}.
Import VowpalLearner.

Lemma sorted_by_key_length {A} (keys : list nat) (xs : list A) :
  length (sorted_by_key keys xs) = length (zip keys xs).
Proof.
  unfold sorted_by_key. rewrite length_map.
  apply Permutation_length, sort_Permutation.
Qed.

(** [reorder] when the list kept from the first [predict] is a
    rearrangement of the actions offered now: the answer follows the
    order of the actions offered now. *)
Lemma reorder_aligned (l acts : list Action) (probs_ out : list Q) :
  NoDup l -> Permutation l acts ->
  reorder (Fixed l) acts probs_ = Ret out ->
  length out = length acts /\
  forall j a i, acts !! j = Some a -> l !! i = Some a ->
                exists x, out !! j = Some x /\ probs_ !! i = Some x.
Proof.
  intros Hnd Hperm Hre. unfold reorder in Hre.
  apply bind_ret in Hre as (keys & Hkeys & Hout).
  assert (Hn : length l = length acts) by now apply Permutation_length.
  assert (Hnd' : NoDup acts) by now rewrite <- Hperm.
  assert (Hkl : length keys = length acts).
  { apply mapM_length in Hkeys. now rewrite range_length in Hkeys. }
  apply mapM_ret in Hkeys.
  assert (Hkey : forall i k, keys !! i = Some k ->
                   exists a, l !! i = Some a /\ acts !! k = Some a).
  { intros i k Hk.
    destruct (Forall2_lookup_r _ _ _ i k Hkeys Hk) as (i' & Hi' & Hs).
    unfold Py.range in Hi'. apply lookup_seq in Hi' as [-> _]. cbn in Hs.
    destruct (l !! i) as [a|] eqn:El; [|discriminate].
    exists a. split; [reflexivity|]. now apply index_lookup. }
  assert (Hkey' : forall i a j, l !! i = Some a -> acts !! j = Some a ->
                    keys !! i = Some j).
  { intros i a j Hi Hj.
    assert (Hlt : (i < length acts)%nat)
      by (rewrite <- Hn; eapply lookup_lt_Some; eauto).
    destruct (Forall2_lookup_l _ _ _ i i Hkeys) as (k & Hk & Hs).
    { unfold Py.range. now apply lookup_seq_lt. }
    cbn in Hs. rewrite Hi in Hs.
    rewrite (index_first acts a j Hnd' Hj) in Hs. now injection Hs as <-. }
  assert (Hp : Permutation keys (seq 0 (length acts))).
  { apply NoDup_Permutation.
    - apply NoDup_alt. intros i i' k Hi Hi'.
      destruct (Hkey i k Hi) as (a & Ha & Hak).
      destruct (Hkey i' k Hi') as (a' & Ha' & Hak').
      rewrite Hak in Hak'. injection Hak' as <-.
      apply (NoDup_lookup l i i' a Hnd Ha Ha').
    - apply NoDup_seq.
    - intros k. rewrite elem_of_seq. split.
      + intros Hin. apply list_elem_of_lookup_1 in Hin as [i Hi].
        destruct (Hkey i k Hi) as (a & _ & Hak).
        apply lookup_lt_Some in Hak. lia.
      + intros [_ Hk]. cbn in Hk.
        destruct (lookup_lt_is_Some_2 acts k Hk) as [a Ha].
        assert (Hin : a ∈ l).
        { rewrite Hperm. eapply list_elem_of_lookup_2; eauto. }
        apply list_elem_of_lookup_1 in Hin as [i Hi].
        eapply list_elem_of_lookup_2. eapply Hkey'; eauto. }
  pose proof (sorted_by_key_inverse keys (length acts) Hkl Hp) as Hinv.
  unfold Py.range in Hout.
  split.
  - apply mapM_length in Hout.
    rewrite Hout, sorted_by_key_length, length_zip, length_seq. lia.
  - intros j a i Hj Hi.
    assert (Hs : sorted_by_key keys (seq 0 (length acts)) !! j = Some i).
    { apply Hinv. eapply Hkey'; eauto. }
    apply mapM_ret in Hout.
    destruct (Forall2_lookup_l _ _ _ j i Hout Hs) as (x & Hx & Hitem).
    exists x. split; [exact Hx|].
    unfold CorralLearner.item in Hitem.
    destruct (probs_ !! i); [now injection Hitem as ->|discriminate].
Qed.

Lemma set_actions_spec (s : state) (key : Key) (acts : list Action) :
  learning (set_actions s key acts) = learning s /\
  vw (set_actions s key acts) = vw s /\
  actions (set_actions s key acts)
  = match actions s with
    | Fixed [] => Fixed acts
    | Fixed l => Fixed l
    | PerKey m => PerKey (<[key := acts]> m)
    end.
Proof.
  unfold set_actions. destruct (actions s) as [[|a l]|m] eqn:E; cbn.
  - destruct acts; cbn; auto.
  - rewrite E. auto.
  - rewrite E. auto.
Qed.

(** [predict], outcome by outcome. *)
Lemma vowpal_predict_cases (s : state) (key : Key) (context : Context)
  (acts : list Action) :
  (actions (fst (predict s key context acts)) = actions s /\
   forall out, snd (predict s key context acts) <> Ret out) \/
  exists w probs_,
    snd (vw_predict w context acts) = Ret probs_ /\
    actions (fst (predict s key context acts))
    = match actions s with
      | Fixed [] => Fixed acts
      | Fixed l => Fixed l
      | PerKey m => PerKey (<[key := acts]> m)
      end /\
    snd (predict s key context acts)
    = match learning s with
      | VW.cb_explore =>
          reorder (actions (fst (predict s key context acts))) acts probs_
      | VW.cb_explore_adf => Ret probs_
      end.
Proof.
  unfold predict.
  set (c := if vw_created (vw s) then (vw s, Ret tt)
            else vw_create (vw s) (learning s) (exploration s) acts (flags s)).
  destruct c as [w [[]| |]]; cbn; try (left; split; [reflexivity|discriminate]).
  destruct (vw_predict w context acts) as [w' [probs_| |]] eqn:Ep; cbn;
    try (left; split; [reflexivity|discriminate]).
  right. exists w, probs_. rewrite Ep. split; [reflexivity|].
  destruct (set_actions_spec (with_vw s w') key acts) as (El & _ & Ea).
  cbn in El, Ea. rewrite El, Ea. auto.
Qed.

(** X13.  With [VW.cb_explore] the learner keeps the action list of the
    first [predict].  When a [predict] lists the same (pairwise distinct)
    actions in another order, it rearranges the answer of Vowpal Wabbit
    to the order of the list given: the entry for an action is the entry
    of Vowpal Wabbit's answer at the position the action has in the list
    that is kept. *)
Theorem predict_aligns_probabilities (s s1 : state) (key : Key)
  (context : Context) (acts : list Action) (out : list Q) (l : list Action) :
  learning s = VW.cb_explore ->
  actions s = Fixed l ->
  NoDup (match l with [] => acts | _ => l end) ->
  Permutation (match l with [] => acts | _ => l end) acts ->
  predict s key context acts = (s1, Ret out) ->
  actions s1 = Fixed (match l with [] => acts | _ => l end) /\
  length out = length acts /\
  exists w probs_,
    snd (vw_predict w context acts) = Ret probs_ /\
    forall j a i,
      acts !! j = Some a ->
      (match l with [] => acts | _ => l end) !! i = Some a ->
      exists x, out !! j = Some x /\ probs_ !! i = Some x.
Proof.
  intros Hl Ha Hnd Hperm Hp.
  destruct (vowpal_predict_cases s key context acts)
    as [[_ Hno]|(w & probs_ & Hvw & Hact & Hout)].
  { rewrite Hp in Hno. now destruct (Hno out). }
  rewrite Hp, Ha in Hact. rewrite Hp, Hl in Hout. cbn [fst snd] in Hact, Hout.
  assert (Hstored : actions s1 = Fixed (match l with [] => acts | _ => l end))
    by (rewrite Hact; now destruct l).
  rewrite Hstored in Hout. symmetry in Hout.
  destruct (reorder_aligned _ _ _ _ Hnd Hperm Hout) as [Hlen Hal].
  split; [exact Hstored|]. split; [exact Hlen|]. eauto.
Qed.

Lemma learn_fixed (s : state) (key : Key) (context : Context)
  (action : Action) (reward probability : Q) (l : list Action) :
  actions s = Fixed l ->
  learn s key context action reward probability
  = (with_vw s (fst (vw_learn (vw s) probability l context action reward)),
     snd (vw_learn (vw s) probability l context action reward)).
Proof.
  intros Ha. unfold learn, get_actions. rewrite Ha.
  now destruct (vw_learn (vw s) probability l context action reward).
Qed.

(** X14.  With a list in [_actions] (the [VW.cb_explore] learners) the
    first non-empty action list given to [predict] is kept for the life of
    the learner: no later [predict] or [learn] replaces it, and every
    [learn], whatever its key, hands that list to Vowpal Wabbit and never
    raises [KeyError]. *)
Theorem first_action_list_is_kept (s s' : state) (l : list Action) :
  actions s = Fixed l -> l <> [] -> rtc step s s' ->
  actions s' = Fixed l /\
  forall key context action reward probability,
    learn s' key context action reward probability
    = (with_vw s' (fst (vw_learn (vw s') probability l context action reward)),
       snd (vw_learn (vw s') probability l context action reward)).
Proof.
  intros Ha Hne Hreach.
  assert (Hkept : actions s' = Fixed l).
  { revert s' Hreach.
    apply (rtc_ind_r (fun s' => actions s' = Fixed l) s); [exact Ha|].
    intros s2 s3 _ Hstep IH. destruct Hstep as [s2 key context acts|s2 key context action reward probability].
    - destruct (vowpal_predict_cases s2 key context acts)
        as [[-> _]|(_ & _ & _ & -> & _)]; [exact IH|].
      rewrite IH. destruct l; [contradiction|reflexivity].
    - rewrite (learn_fixed _ _ _ _ _ _ l IH). exact IH. }
  split; [exact Hkept|]. intros. now apply learn_fixed.
Qed.

(** X15.  With a dict in [_actions] (the [VW.cb_explore_adf] learners) a
    [predict] that returns stores its action list under the key; the
    [learn] for that key hands the list to Vowpal Wabbit and removes the
    entry; a [learn] for a key without entry raises [KeyError] before Vowpal
    Wabbit is called and leaves the learner as it was. *)
Theorem vowpal_key_round_trip (s : state) (key : Key) (context : Context)
  (acts : list Action) (out : list Q) (m : gmap Key (list Action)) :
  actions s = PerKey m ->
  snd (predict s key context acts) = Ret out ->
  actions (fst (predict s key context acts)) = PerKey (<[key := acts]> m) /\
  (forall context' action reward probability,
     learn (fst (predict s key context acts)) key context' action reward
       probability
     = (with_vw (with_actions (fst (predict s key context acts))
                   (PerKey (delete key m)))
          (fst (vw_learn (vw (fst (predict s key context acts))) probability
                  acts context' action reward)),
        snd (vw_learn (vw (fst (predict s key context acts))) probability
               acts context' action reward))) /\
  (forall (u : state) (mu : gmap Key (list Action)) (k : Key)
          context' action reward probability,
     actions u = PerKey mu -> mu !! k = None ->
     learn u k context' action reward probability = (u, Raise KeyError)).
Proof.
  intros Ha Hout.
  destruct (vowpal_predict_cases s key context acts)
    as [[_ Hno]|(_ & _ & _ & Hact & _)]; [now destruct (Hno out)|].
  rewrite Ha in Hact. split; [exact Hact|]. split.
  - intros. unfold learn, get_actions. rewrite Hact, lookup_insert_eq.
    cbn [vw with_actions]. rewrite delete_insert_eq.
    now destruct (vw_learn _ _ _ _ _ _).
  - intros u mu k context' action reward probability Hu Hk.
    unfold learn, get_actions. now rewrite Hu, Hk.
Qed.

Lemma set_actions_fields (s : state) (key : Key) (acts : list Action) :
  learning (set_actions s key acts) = learning s /\
  probs (set_actions s key acts) = probs s.
Proof.
  unfold set_actions. destruct (actions s) as [[|a l]|m] eqn:E; cbn;
    rewrite ?E; auto.
Qed.

Lemma predict_fields (s : state) (key : Key) (context : Context)
  (acts : list Action) :
  learning (fst (predict s key context acts)) = learning s /\
  probs (fst (predict s key context acts)) = probs s.
Proof.
  unfold predict.
  destruct (if vw_created (vw s) then (vw s, Ret tt)
            else vw_create (vw s) (learning s) (exploration s) acts (flags s))
    as [w [[]| |]]; cbn; auto.
  destruct (vw_predict w context acts) as [w' [probs_| |]]; cbn; auto.
  apply (set_actions_fields (with_vw s w') key acts).
Qed.

Lemma learn_fields (s : state) (key : Key) (context : Context)
  (action : Action) (reward probability : Q) :
  learning (fst (learn s key context action reward probability)) = learning s /\
  probs (fst (learn s key context action reward probability)) = probs s /\
  match actions s, actions (fst (learn s key context action reward probability)) with
  | Fixed _, Fixed _ => True
  | PerKey _, PerKey _ => True
  | _, _ => False
  end.
Proof.
  unfold learn, get_actions.
  destruct (actions s) as [l|m] eqn:Ea.
  - destruct (vw_learn _ _ _ _ _ _). cbn. now rewrite Ea.
  - destruct (m !! key).
    + destruct (vw_learn _ _ _ _ _ _). cbn. auto.
    + cbn. now rewrite Ea.
Qed.

(** X16.  The kind of [_actions] goes with the learning class for the
    life of the learner, whatever arguments the constructor was given: a
    list with [VW.cb_explore], a dict with [VW.cb_explore_adf]; and
    nothing is ever put into [_probs]. *)
Theorem store_matches_learning (learning0 : VW.learning)
  (exploration0 : VW.exploration) (kw : kwargs) (s : state) :
  rtc step (init learning0 exploration0 kw) s ->
  learning s = learning (init learning0 exploration0 kw) /\
  probs s = ∅ /\
  match learning s, actions s with
  | VW.cb_explore, Fixed _ => True
  | VW.cb_explore_adf, PerKey _ => True
  | _, _ => False
  end.
Proof.
  revert s.
  apply (rtc_ind_r (fun s => learning s = learning (init learning0 exploration0 kw) /\
                             probs s = ∅ /\
                             match learning s, actions s with
                             | VW.cb_explore, Fixed _ => True
                             | VW.cb_explore_adf, PerKey _ => True
                             | _, _ => False
                             end) (init learning0 exploration0 kw)).
  - split; [reflexivity|]. unfold init.
    destruct (kw_epsilon kw), (kw_softmax kw), (kw_bag kw), (kw_cover kw);
      cbn; unfold adf_unless_disabled; try destruct (default true (kw_is_adf kw));
      cbn; auto; destruct learning0; cbn; auto.
  - intros s2 s3 _ Hstep (Hl & Hp & Hm).
    assert (Hsame : learning s3 = learning s2 /\ probs s3 = probs s2 /\
                    match actions s2, actions s3 with
                    | Fixed _, Fixed _ => True
                    | PerKey _, PerKey _ => True
                    | _, _ => False
                    end).
    { destruct Hstep as [s2 key context acts|s2 key context action reward probability].
      - destruct (predict_fields s2 key context acts) as [-> ->].
        split; [reflexivity|]. split; [reflexivity|].
        destruct (vowpal_predict_cases s2 key context acts)
          as [[-> _]|(_ & _ & _ & -> & _)].
        + now destruct (actions s2).
        + now destruct (actions s2) as [[|a l]|m].
      - apply learn_fields. }
    destruct Hsame as (El & Ep & Ea). rewrite El, Ep.
    split; [exact Hl|]. split; [exact Hp|].
    destruct (learning s2), (actions s2), (actions s3); auto.
Qed.

End Vowpal.
End VowpalFacts.

(** ** VowpalSolver: sampling and the probabilities it remembers *)

Module VowpalSolverFacts.
Import PyFacts.

Section Solver.
Context `{VowpalSolver.Host}.
Import VowpalSolver.

Lemma value_eqb_refl (v : value) : value_eqb v v = true.
Proof.
  revert v. fix IH 1. intros [|z|s|l|l]; cbn.
  - reflexivity.
  - apply Z.eqb_refl.
  - apply String.eqb_refl.
  - induction l as [|x l IHl]; [reflexivity|]. now rewrite IH, IHl.
  - induction l as [|x l IHl]; [reflexivity|]. now rewrite IH, IHl.
Qed.

Lemma keys_eqb_refl (k : list value) : keys_eqb k k = true.
Proof.
  induction k as [|x k IH]; [reflexivity|]. cbn.
  now rewrite value_eqb_refl, IH.
Qed.

(** The running sums [accumulate] returns. *)
Lemma accumulate_from_lookup (total : Q) (l : list Q) (i : nat) (c : Q) :
  accumulate_from total l !! i = Some c ->
  c == total + Py.sum (take (S i) l).
Proof.
  revert total i. induction l as [|x l IH]; intros total i; [discriminate|].
  destruct i as [|i]; cbn [accumulate_from lookup list_lookup].
  - intros [= <-]. cbn [take]. rewrite sum_cons, sum_nil. ring.
  - intros Hc. rewrite (IH _ _ Hc).
    change (take (S (S i)) (x :: l)) with (x :: take (S i) l).
    rewrite sum_cons. ring.
Qed.

Lemma accumulate_lookup (l : list Q) (i : nat) (c : Q) :
  accumulate l !! i = Some c -> c == Py.sum (take (S i) l).
Proof.
  destruct l as [|x l]; [discriminate|].
  destruct i as [|i]; cbn [accumulate lookup list_lookup].
  - intros [= <-]. cbn [take]. rewrite sum_cons, sum_nil. ring.
  - intros Hc. rewrite (accumulate_from_lookup _ _ _ _ Hc).
    change (take (S (S i)) (x :: l)) with (x :: take (S i) l).
    now rewrite sum_cons.
Qed.

Lemma accumulate_from_length (total : Q) (l : list Q) :
  length (accumulate_from total l) = length l.
Proof.
  revert total. induction l as [|x l IH]; intros total; cbn; auto.
Qed.

Lemma accumulate_length (l : list Q) : length (accumulate l) = length l.
Proof. destruct l; cbn; [reflexivity|]. now rewrite accumulate_from_length. Qed.

Lemma index_True_spec (l : list bool) (i : nat) :
  index_True l = Ret i <->
  l !! i = Some true /\ forall j, (j < i)%nat -> l !! j = Some false.
Proof.
  revert i. induction l as [|b l IH]; intros i; cbn [index_True].
  - split; [discriminate|]. intros [Hi _]. discriminate.
  - destruct b.
    + split.
      * intros [= <-]. split; [reflexivity|]. intros j Hj. lia.
      * intros [Hi Hbefore]. destruct i as [|i]; [reflexivity|].
        specialize (Hbefore 0%nat ltac:(lia)). discriminate.
    + split.
      * intros Hi. apply bind_ret in Hi as (k & Hk & [= <-]).
        apply IH in Hk as [Hk Hbefore]. split; [exact Hk|].
        intros [|j] Hj; [reflexivity|]. apply Hbefore. lia.
      * intros [Hi Hbefore]. destruct i as [|i]; [discriminate|].
        cbn in Hi.
        assert (Hk : index_True l = Ret i).
        { apply IH. split; [exact Hi|]. intros j Hj.
          apply (Hbefore (S j)). lia. }
        now rewrite Hk.
Qed.

Lemma index_True_none (l : list bool) :
  Forall (fun b => b = false) l -> index_True l = Raise ValueError.
Proof.
  induction 1 as [|b l -> _ IH]; [reflexivity|]. cbn. now rewrite IH.
Qed.

Lemma Qlt_bool_proper (a b b' : Q) :
  b == b' -> Py.Qlt_bool a b = Py.Qlt_bool a b'.
Proof.
  intros E. destruct (Py.Qlt_bool a b') eqn:E'.
  - apply Qlt_bool_iff. apply Qlt_bool_iff in E'. lra.
  - apply Qlt_bool_false. apply Qlt_bool_false in E'. lra.
Qed.

(** X17.  [choose] samples by the inverse of the cumulative distribution:
    the index it returns is the first whose cumulative probability exceeds
    the draw.  For a draw that is not negative the probability of the
    chosen index is positive; the probability is stored under the key of
    the state and the action chosen. *)
Theorem choose_inverts_cdf (s s1 : state) (state_ : value)
  (actions : list value) (rng : Q) (i : nat) :
  choose s state_ actions rng = (s1, Ret i) ->
  exists pmf p a,
    snd (pyvw_predict (vw s) ("| " +:+ vw_format state_)) = Ret pmf /\
    pmf !! i = Some p /\ actions !! i = Some a /\
    rng < Py.sum (take (S i) pmf) /\
    (forall j, (j < i)%nat -> Py.sum (take (S j) pmf) <= rng) /\
    (0 <= rng -> 0 < p) /\
    prob s1 = (key_ state_ a, p) :: prob s.
Proof.
  unfold choose.
  destruct (pyvw_predict (vw s) ("| " +:+ vw_format state_))
    as [w [pmf| |]]; try discriminate.
  destruct (index_True _) as [k| |] eqn:Hk; try discriminate.
  destruct (pmf !! k) as [p|] eqn:Hp; try discriminate.
  destruct (actions !! k) as [a|] eqn:Ha; try discriminate.
  destruct (forallb hashable (key_ state_ a)); try discriminate.
  intros [= <- <-]. exists pmf, p, a. cbn [snd prob].
  apply index_True_spec in Hk as [Hat Hbefore].
  assert (Hcdf : forall j b, map (fun c => Py.Qlt_bool rng c) (accumulate pmf) !! j
                             = Some b ->
                   b = Py.Qlt_bool rng (Py.sum (take (S j) pmf))).
  { intros j b Hj. change (map ?f ?l) with (f <$> l) in Hj.
    rewrite list_lookup_fmap in Hj.
    destruct (accumulate pmf !! j) as [c|] eqn:Ec; [|discriminate].
    injection Hj as <-. apply Qlt_bool_proper. now apply accumulate_lookup. }
  assert (Hlt : rng < Py.sum (take (S k) pmf)).
  { apply Qlt_bool_iff. symmetry. now apply Hcdf. }
  assert (Hge : forall j, (j < k)%nat -> Py.sum (take (S j) pmf) <= rng).
  { intros j Hj. apply Qlt_bool_false. symmetry. apply Hcdf. now apply Hbefore. }
  split; [reflexivity|]. split; [exact Hp|]. split; [exact Ha|].
  split; [exact Hlt|]. split; [exact Hge|]. split; [|reflexivity].
  intros Hrng.
  assert (Hstep : Py.sum (take (S k) pmf) == Py.sum (take k pmf) + p).
  { rewrite (take_S_r _ _ _ Hp). unfold Py.sum. rewrite fold_left_app.
    reflexivity. }
  destruct k as [|k].
  - cbn [take] in Hstep. rewrite sum_nil in Hstep. lra.
  - specialize (Hge k ltac:(lia)). lra.
Qed.

Lemma sum_take_le (l : list Q) (n : nat) :
  Forall (fun x => 0 <= x) l -> Py.sum (take n l) <= Py.sum l.
Proof.
  intros Hl. revert n. induction Hl as [|x l Hx Hl IH]; intros [|n]; cbn [take].
  - lra.
  - lra.
  - rewrite sum_nil, sum_cons.
    assert (0 <= Py.sum l) by (apply CorralFacts.sum_nonneg; exact Hl). lra.
  - rewrite !sum_cons. specialize (IH n). lra.
Qed.

(** X18.  When the probabilities Vowpal Wabbit returns are not negative
    and their sum does not exceed the draw (a distribution that sums to
    less than 1 after rounding, an empty one), no index is found: [choose]
    raises [ValueError] and stores nothing. *)
Theorem choose_fails_beyond_total (s : state) (state_ : value)
  (actions : list value) (rng : Q) (pmf : list Q) :
  snd (pyvw_predict (vw s) ("| " +:+ vw_format state_)) = Ret pmf ->
  Forall (fun x => 0 <= x) pmf ->
  Py.sum pmf <= rng ->
  snd (choose s state_ actions rng) = Raise ValueError /\
  prob (fst (choose s state_ actions rng)) = prob s.
Proof.
  intros Hp Hnn Hsum. unfold choose.
  destruct (pyvw_predict (vw s) ("| " +:+ vw_format state_)) as [w r].
  cbn [snd] in Hp. subst r.
  rewrite index_True_none; [auto|].
  apply List.Forall_forall. intros b Hb.
  apply in_map_iff in Hb as (c & <- & Hc).
  apply list_elem_of_In, list_elem_of_lookup_1 in Hc as [j Hj].
  apply Qlt_bool_false. rewrite (accumulate_lookup _ _ _ Hj).
  pose proof (sum_take_le pmf (S j) Hnn). lra.
Qed.

(** X19.  The key of a state and an action is the concatenation of their
    tuples, so different pairs can have the same key: moving the last
    components of a state to the front of the action does not change it,
    and a single value has the key of the tuple that holds only it.
    [learn] uses the probability stored last under the key, whichever pair
    it was stored for; it removes nothing, and it raises [KeyError] when
    nothing is stored under the key. *)
Theorem keys_can_collide (s s1 : state) (state_ : value)
  (actions : list value) (rng : Q) (i : nat) (a : value) :
  choose s state_ actions rng = (s1, Ret i) ->
  actions !! i = Some a ->
  (forall xs ys zs,
     key_ (VTuple (xs ++ ys)) (VTuple zs) = key_ (VTuple xs) (VTuple (ys ++ zs))) /\
  (forall v b, tuple_ v = [v] -> key_ v b = key_ (VTuple [v]) b) /\
  (forall state' a' reward,
     key_ state' a' = key_ state_ a ->
     exists p,
       dict_get (prob s1) (key_ state' a') = Some p /\
       learn s1 state' a' reward
       = ({| vw := fst (pyvw_learn (vw s1)
                          (str a' +:+ ":" +:+ str_number (- reward) +:+ ":"
                           +:+ str_number p +:+ " | " +:+ vw_format state'));
             prob := prob s1 |},
          snd (pyvw_learn (vw s1)
                 (str a' +:+ ":" +:+ str_number (- reward) +:+ ":"
                  +:+ str_number p +:+ " | " +:+ vw_format state')))) /\
  (forall u state' a' reward,
     forallb hashable (key_ state' a') = true ->
     dict_get (prob u) (key_ state' a') = None ->
     learn u state' a' reward = (u, Raise KeyError)).
Proof.
  intros Hc Ha. split; [|split; [|split]].
  - intros xs ys zs. unfold key_. cbn. now rewrite app_assoc.
  - intros v b Hv. unfold key_. now rewrite Hv.
  - intros state' a' reward Hkey.
    unfold choose in Hc.
    destruct (pyvw_predict (vw s) ("| " +:+ vw_format state_))
      as [w [pmf| |]]; try discriminate.
    destruct (index_True _) as [k| |]; try discriminate.
    destruct (pmf !! k) as [p|] eqn:Hp; try discriminate.
    destruct (actions !! k) as [a0|] eqn:Ha0; try discriminate.
    destruct (forallb hashable (key_ state_ a0)) eqn:Hh; try discriminate.
    injection Hc as <- <-. rewrite Ha in Ha0. injection Ha0 as <-.
    exists p. unfold learn. rewrite Hkey, Hh. cbn [prob dict_get vw].
    rewrite keys_eqb_refl. split; [reflexivity|].
    now destruct (pyvw_learn w _).
  - intros u state' a' reward Hh Hnone. unfold learn. now rewrite Hh, Hnone.
Qed.

End Solver.
End VowpalSolverFacts.

(** ** Concrete runs of the properties above *)

Module ExtraRuns.
Import PyFacts.

Section Runs.
#[local] Existing Instance Demo.externals.
#[local] Existing Instance DemoVowpal.vowpal.
#[local] Existing Instance DemoVowpal.host.

(** The variance accumulator of the concrete environment never reports a
    negative variance. *)
Lemma demo_M2_nonneg (rs : list Q) (o : nat * Q * Q) :
  0 <= snd o -> 0 <= snd (fold_left Demo.variance_update rs o).
Proof.
  revert o. induction rs as [|r rs IH]; intros [[count mean] M2] HM; [exact HM|].
  cbn [fold_left]. apply IH. cbn [Demo.variance_update snd] in *.
  assert (Hc : 1 <= Py.of_nat (S count)).
  { unfold Py.of_nat. change 1 with (inject_Z 1). rewrite <- Zle_Qle. lia. }
  set (c := Py.of_nat (S count)) in *. clearbody c.
  set (d := r - mean).
  assert (E : d * (r - (mean + d / c)) == d * d * (1 - 1 / c))
    by (subst d; field; lra).
  rewrite E.
  assert (0 <= 1 - 1 / c).
  { assert (1 / c <= 1) by (apply Qle_shift_div_r; lra). lra. }
  assert (0 <= d * d) by nra.
  assert (0 <= d * d * (1 - 1 / c)) by (apply Qmult_le_0_compat; assumption).
  lra.
Qed.

Lemma demo_variance_nonneg (rs : list Q) :
  0 <= Demo.variance (fold_left Demo.variance_update rs (0%nat, 0, 0)).
Proof.
  pose proof (demo_M2_nonneg rs (0%nat, 0, 0)) as HM.
  destruct (fold_left Demo.variance_update rs (0%nat, 0, 0)) as [[count mean] M2].
  cbn [snd] in HM. specialize (HM ltac:(cbn; lra)).
  unfold Demo.variance. destruct (Nat.ltb_spec 1 count) as [Hc|_]; [|lra].
  apply Qle_shift_div_l; [apply of_nat_pos; lia|]. lra.
Qed.


Lemma demo_log_nonneg (q : Q) : 1 < q -> 0 <= @log_approx Demo.externals q.
Proof. intros Hq. change (0 <= q - 1). lra. Qed.

Lemma demo_sqrt_nonneg (q : Q) : 0 < q -> 0 <= @sqrt_approx Demo.externals q.
Proof.
  intros Hq. change (0 <= (q + 1) / 2). apply Qle_shift_div_l; lra.
Qed.

(** *** EpsilonLearner and UcbTunedLearner *)

(** A fresh [EpsilonLearner(0.1)] on three actions. *)
Lemma greedy_share_witness :
  exists out best,
    EpsilonLearner.predict (EpsilonLearner.init (1 # 10) false) 1%Z None
      [1; 2; 3]%Z = Ret out /\
    length out = 3%nat /\
    In best [0; 0; 0].
Proof.
  destruct (EpsilonFacts.greedy_share (EpsilonLearner.init (1 # 10) false)
              1%Z None [1; 2; 3]%Z ltac:(discriminate))
    as (out & best & H1 & H2 & H3 & _).
  exists out, best. auto.
Defined.

(** A [UcbTunedLearner] after one round, asked about two actions. *)
Lemma predict_never_raises_witness :
  exists out,
    snd (UcbTunedLearner.predict
           (UcbTunedLearner.run UcbTunedLearner.init
              [UcbTunedLearner.Predict 1%Z None [10]%Z;
               UcbTunedLearner.Learn 1%Z None 10%Z 1 1])
           2%Z None [10; 20]%Z) = Ret out /\
    Py.sum out == 1.
Proof.
  destruct (@UcbHistoryFacts.predict_never_raises Demo.externals
              demo_log_nonneg demo_sqrt_nonneg demo_variance_nonneg
              [UcbTunedLearner.Predict 1%Z None [10]%Z;
               UcbTunedLearner.Learn 1%Z None 10%Z 1 1]
              2%Z None [10; 20]%Z ltac:(discriminate))
    as (out & H1 & _ & _ & H2).
  exists out. auto.
Defined.

(** Two [predict]s on two actions, only the first action learned: the
    third [predict] gives the second action probability 0. *)
Lemma unlearned_actions_after_warm_up_witness :
  exists out x,
    snd (UcbTunedLearner.predict
           (UcbTunedLearner.run UcbTunedLearner.init
              [UcbTunedLearner.Predict 1%Z None [10; 20]%Z;
               UcbTunedLearner.Learn 1%Z None 10%Z 1 1;
               UcbTunedLearner.Predict 2%Z None [10; 20]%Z])
           3%Z None [10; 20]%Z) = Ret out /\
    out !! 1%nat = Some x /\ x == 0.
Proof.
  set (s := UcbTunedLearner.run UcbTunedLearner.init
              [UcbTunedLearner.Predict 1%Z None [10; 20]%Z;
               UcbTunedLearner.Learn 1%Z None 10%Z 1 1;
               UcbTunedLearner.Predict 2%Z None [10; 20]%Z]).
  assert (Hout : exists out,
            snd (UcbTunedLearner.predict s 3%Z None [10; 20]%Z) = Ret out).
  { eexists. vm_compute. reflexivity. }
  destruct Hout as [out Hout].
  assert (Hwarm : (length [10; 20]%Z <= UcbTunedLearner.init_a s)%nat)
    by (vm_compute; lia).
  assert (Hsome : exists b, In b [10; 20]%Z /\ UcbTunedLearner.m s !! b <> None).
  { exists 10%Z. split; [now left|]. vm_compute. discriminate. }
  assert (Hnone : UcbTunedLearner.m s !! 20%Z = None)
    by (vm_compute; reflexivity).
  destruct (proj1 (@UcbHistoryFacts.unlearned_actions_after_warm_up
                     Demo.externals s 3%Z None [10; 20]%Z out Hwarm Hout)
              Hsome 1%nat 20%Z eq_refl Hnone)
    as (x & Hx & H0).
  exists out, x. auto.
Defined.

(** *** CorralLearner *)

Section CorralRuns.
Import CorralLearner.

(** Two [RandomLearner]s, horizon 100, after one [predict]. *)
Lemma rho_bounds_inverse_weight_witness :
  CorralShape.rho_bounds
    (fst (predict
            (Demo.corral [Random; Random] (1 # 2) (1 / 100)
               (1 / math.exp (1 / (100 - 1))) [1; 2]%Z)
            7%Z None [1; 2]%Z)).
Proof.
  eapply (fun H1 H2 H3 H4 H5 =>
            proj2 (@CorralShapeFacts.rho_bounds_inverse_weight Demo.externals
                     [Random; Random] (1 # 2) (Fin 100) [1; 2]%Z _ _
                     H1 H2 H3 H4 H5)).
  - reflexivity.
  - apply Qle_bool_iff. reflexivity.
  - split; apply Qle_bool_iff; reflexivity.
  - split; apply Qle_bool_iff; reflexivity.
  - eapply rtc_l; [apply step_predict|apply rtc_refl].
Defined.

(** Both base learners draw action 1: action 2 gets probability 0. *)
Lemma unsampled_actions_get_zero_witness :
  exists acts,
    base_actions
      (fst (predict (Demo.corral [Random; Random] (1 # 2) 0 (1 / 1) [1; 1]%Z)
              7%Z None [1; 2]%Z)) !! 7%Z = Some acts /\
    length acts = 2%nat.
Proof.
  destruct (@CorralShapeFacts.unsampled_actions_get_zero Demo.externals
              (Demo.corral [Random; Random] (1 # 2) 0 (1 / 1) [1; 1]%Z)
              (fst (predict (Demo.corral [Random; Random] (1 # 2) 0 (1 / 1) [1; 1]%Z)
                      7%Z None [1; 2]%Z))
              7%Z None [1; 2]%Z
              (match snd (predict (Demo.corral [Random; Random] (1 # 2) 0 (1 / 1) [1; 1]%Z)
                            7%Z None [1; 2]%Z) with
               | Ret out => out
               | _ => []
               end)
              eq_refl)
    as (acts & H1 & H2 & _).
  exists acts. auto.
Defined.

Lemma pending_keys_are_independent_witness :
  base_actions
    (fst (predict (Demo.corral [Random; Random] (1 # 2) 0 (1 / 1) [1; 2]%Z)
            2%Z None [1; 2]%Z)) !! 1%Z
  = base_actions (Demo.corral [Random; Random] (1 # 2) 0 (1 / 1) [1; 2]%Z) !! 1%Z.
Proof.
  apply (proj1 (@CorralShapeFacts.pending_keys_are_independent Demo.externals
                  (Demo.corral [Random; Random] (1 # 2) 0 (1 / 1) [1; 2]%Z)
                  2%Z 1%Z ltac:(discriminate))).
Defined.

Lemma learn_zero_probability_witness :
  snd (learn 0
         (fst (predict (Demo.corral [Random; Random] (1 # 2) 0 (1 / 1) [1; 2]%Z)
                 7%Z None [1; 2]%Z))
         7%Z None 1%Z 1 0) = Raise ZeroDivisionError.
Proof.
  rewrite (proj1 (@CorralShapeFacts.learn_zero_probability Demo.externals 0
              (fst (predict (Demo.corral [Random; Random] (1 # 2) 0 (1 / 1) [1; 2]%Z)
                      7%Z None [1; 2]%Z))
              7%Z None 1%Z 1 0 [1; 2]%Z [1 / Py.of_nat 2; 1 / Py.of_nat 2]
              eq_refl eq_refl ltac:(discriminate) ltac:(reflexivity))).
  reflexivity.
Defined.

Lemma params_never_change_witness :
  Description.CorralLearner_params
    (fst (predict (Demo.corral [Random; Random] (1 # 2) 0 (1 / 1) [1; 2]%Z)
            7%Z None [1; 2]%Z))
  = (1 # 2, ["random"; "random"]).
Proof.
  eapply (fun H1 H2 =>
            @CorralShapeFacts.params_never_change Demo.externals
              [Random; Random] (1 # 2) Inf [1; 2]%Z _ _ H1 H2).
  - reflexivity.
  - eapply rtc_l; [apply step_predict|apply rtc_refl].
Defined.

Lemma zero_eta_never_learns_witness :
  same_weights (Demo.corral [Random; Random] 0 0 (1 / 1) [1; 2]%Z)
    (fst (predict (Demo.corral [Random; Random] 0 0 (1 / 1) [1; 2]%Z)
            7%Z None [1; 2]%Z)).
Proof.
  eapply (fun H1 H2 H3 =>
            proj1 (@CorralShapeFacts.zero_eta_never_learns Demo.externals
                     [Random; Random] 0 Inf [1; 2]%Z _ _ H1 H2 H3)).
  - reflexivity.
  - reflexivity.
  - eapply rtc_l; [apply step_predict|apply rtc_refl].
Defined.

End CorralRuns.

(** *** VowpalLearner *)

Section VowpalRuns.
Import VowpalLearner.

(** A [VW.cb_explore] learner that has seen the actions 10, 20, 30 is
    asked about 30, 10, 20: the first entry of the answer is the third
    probability of Vowpal Wabbit. *)
Lemma predict_aligns_probabilities_witness :
  exists out x,
    snd (predict
           (fst (predict (init VW.cb_explore (VW.epsilongreedy (1 # 10))
                            DemoVowpal.no_kwargs)
                   1%Z None [10; 20; 30]%Z))
           2%Z None [30; 10; 20]%Z) = Ret out /\
    out !! 0%nat = Some x /\ DemoVowpal.ramp 3 !! 2%nat = Some x.
Proof.
  set (s := fst (predict (init VW.cb_explore (VW.epsilongreedy (1 # 10))
                            DemoVowpal.no_kwargs)
                   1%Z None [10; 20; 30]%Z)).
  assert (Hp : exists s1 out, predict s 2%Z None [30; 10; 20]%Z = (s1, Ret out)).
  { eexists _, _. vm_compute. reflexivity. }
  destruct Hp as (s1 & out & Hp).
  assert (Hl : learning s = VW.cb_explore) by reflexivity.
  assert (Ha : actions s = Fixed [10; 20; 30]%Z) by reflexivity.
  assert (Hnd : NoDup [10; 20; 30]%Z).
  { repeat constructor; rewrite ?list_elem_of_In; cbn; intuition discriminate. }
  assert (Hperm : Permutation [10; 20; 30]%Z [30; 10; 20]%Z).
  { apply Permutation_cons_app with (l1 := [30]%Z) (l2 := [20]%Z).
    apply perm_swap. }
  destruct (@VowpalFacts.predict_aligns_probabilities DemoVowpal.vowpal
              s s1 2%Z None [30; 10; 20]%Z out [10; 20; 30]%Z
              Hl Ha Hnd Hperm Hp)
    as (_ & _ & w & probs_ & Hvw & Hal).
  destruct (Hal 0%nat 30%Z 2%nat eq_refl eq_refl) as (x & Hx & Hpx).
  exists out, x. rewrite Hp. cbn [snd]. split; [reflexivity|].
  split; [exact Hx|]. cbn in Hvw. injection Hvw as <-. exact Hpx.
Defined.

Lemma first_action_list_is_kept_witness :
  actions
    (fst (predict
            (fst (predict (init VW.cb_explore (VW.epsilongreedy (1 # 10))
                             DemoVowpal.no_kwargs)
                    1%Z None [10; 20; 30]%Z))
            2%Z None [1; 2]%Z))
  = Fixed [10; 20; 30]%Z.
Proof.
  eapply (fun H1 H2 H3 =>
            proj1 (@VowpalFacts.first_action_list_is_kept DemoVowpal.vowpal
                     (fst (predict (init VW.cb_explore (VW.epsilongreedy (1 # 10))
                                      DemoVowpal.no_kwargs)
                             1%Z None [10; 20; 30]%Z))
                     _ [10; 20; 30]%Z H1 H2 H3)).
  - reflexivity.
  - discriminate.
  - eapply rtc_l; [apply step_predict|apply rtc_refl].
Defined.

Lemma vowpal_key_round_trip_witness :
  actions
    (fst (predict (init VW.cb_explore_adf (VW.epsilongreedy (1 # 10))
                     DemoVowpal.no_kwargs)
            1%Z None [10; 20; 30]%Z))
  = PerKey (<[1%Z := [10; 20; 30]%Z]> ∅).
Proof.
  eapply (fun H1 H2 =>
            proj1 (@VowpalFacts.vowpal_key_round_trip DemoVowpal.vowpal
                     (init VW.cb_explore_adf (VW.epsilongreedy (1 # 10))
                        DemoVowpal.no_kwargs)
                     1%Z None [10; 20; 30]%Z (DemoVowpal.ramp 3) ∅ H1 H2)).
  - reflexivity.
  - reflexivity.
Defined.

Lemma store_matches_learning_witness :
  probs
    (fst (predict (init VW.cb_explore (VW.epsilongreedy (1 # 10))
                     DemoVowpal.no_kwargs)
            1%Z None [10; 20; 30]%Z)) = ∅.
Proof.
  eapply (fun H1 =>
            proj1 (proj2 (@VowpalFacts.store_matches_learning DemoVowpal.vowpal
                            VW.cb_explore (VW.epsilongreedy (1 # 10))
                            DemoVowpal.no_kwargs _ H1))).
  eapply rtc_l; [apply step_predict|apply rtc_refl].
Defined.

End VowpalRuns.

(** *** VowpalSolver *)

Section SolverRuns.
Import VowpalSolver.

(** The distribution is [[1/4, 0, 3/4]] and the draw 1/2: index 2. *)
Lemma choose_inverts_cdf_witness :
  exists pmf p,
    pmf !! 2%nat = Some p /\ 1 # 2 < Py.sum (take 3 pmf) /\ 0 < p.
Proof.
  destruct (@VowpalSolverFacts.choose_inverts_cdf DemoVowpal.host
              init
              (fst (choose init (VTuple [VInt 1; VInt 2])
                      [VInt 1; VInt 2; VInt 3] (1 # 2)))
              (VTuple [VInt 1; VInt 2]) [VInt 1; VInt 2; VInt 3] (1 # 2)
              2%nat eq_refl)
    as (pmf & p & a & _ & Hp & _ & Hlt & _ & Hpos & _).
  exists pmf, p. split; [exact Hp|]. split; [exact Hlt|].
  apply Hpos. apply Qle_bool_iff. reflexivity.
Defined.

Lemma choose_fails_beyond_total_witness :
  snd (choose init VNone [VInt 1; VInt 2; VInt 3] 1) = Raise ValueError.
Proof.
  eapply (fun H1 H2 H3 =>
            proj1 (@VowpalSolverFacts.choose_fails_beyond_total DemoVowpal.host
                     init VNone [VInt 1; VInt 2; VInt 3] 1 [1 # 4; 0; 3 # 4]
                     H1 H2 H3)).
  - reflexivity.
  - repeat constructor; apply Qle_bool_iff; reflexivity.
  - apply Qle_bool_iff. reflexivity.
Defined.

(** The state [(1, 2)] with action 3 and the state 1 with action [(2, 3)]
    have the same key. *)
Lemma keys_can_collide_witness :
  exists p,
    dict_get
      (prob (fst (choose init (VTuple [VInt 1; VInt 2])
                    [VInt 1; VInt 2; VInt 3] (1 # 2))))
      (key_ (VInt 1) (VTuple [VInt 2; VInt 3])) = Some p.
Proof.
  destruct (proj1 (proj2 (proj2
              (@VowpalSolverFacts.keys_can_collide DemoVowpal.host
                 init
                 (fst (choose init (VTuple [VInt 1; VInt 2])
                         [VInt 1; VInt 2; VInt 3] (1 # 2)))
                 (VTuple [VInt 1; VInt 2]) [VInt 1; VInt 2; VInt 3] (1 # 2)
                 2%nat (VInt 3) eq_refl eq_refl)))
              (VInt 1) (VTuple [VInt 2; VInt 3]) 0 eq_refl)
    as (p & Hp & _).
  exists p. exact Hp.
Defined.

End SolverRuns.
End Runs.
End ExtraRuns.
